(** * College Attendance System: the check-in verification core

    A shallow embedding of the attendance check-in flow of the student
    dashboard (frontend/src/app/dashboard/studentDashboard.tsx), of the
    admin API client (the api module with [updateAttendanceStatus] and
    [bulkUpdateAttendance]) and of the attendance page that calls it,
    together with the properties the specification states about them.

    Part I holds the embedding, one module per component; Part II holds
    the lemmas and theorems, one module per component again.

    - JavaScript numbers are IEEE 754 doubles (module [Number]); the
      functions of [Math], whose values ECMAScript leaves to the
      implementation, are a parameter of the distance (module
      [GeoFence64]). Module [GeoFence] reads the same formula over the
      real numbers, where no operation rounds.
    - A request is in flight from the moment it is sent until its answer
      arrives; in which order the backend serves the requests in flight,
      and in which order their answers arrive, is for the run to say
      (module [InFlight]).
    - React state is a record, one field per [useState] cell; a handler is
      a function on that record; an [await] splits a handler into the part
      that runs to the suspension and the continuation that runs when the
      promise settles.
    - The browser objects the component touches (the media streams handed
      out by [getUserMedia], the video element behind [videoRef], the
      canvas) are part of the state. *)

From Stdlib Require Import ZArith List String Ascii Lia Reals Lra Psatz.
From Stdlib Require Import SpecFloat.
From stdpp Require Import base option list strings gmap.

(* ===================================================================== *)
(** * Part I: the embedding                                               *)
(* ===================================================================== *)

(** ** The distance formula over the real numbers *)

(** [getDistanceFromLatLonInMeters] and [deg2rad] with every operation
    exact: what the formula says, not what the doubles of module
    [GeoFence64] give. *)
Module GeoFence.
Local Open Scope R_scope.

(** [const deg2rad = (deg) => deg * (Math.PI / 180)] *)
Definition deg2rad (deg : R) : R := deg * (PI / 180).

(** [Math.atan2(y, x)], the angle of the point (x, y), on real numbers. *)
Definition Math_atan2 (y x : R) : R :=
  match total_order_T x 0 with
  | inleft (left _) =>
      if Rle_dec 0 y then atan (y / x) + PI else atan (y / x) - PI
  | inleft (right _) =>
      match total_order_T y 0 with
      | inleft (left _) => - (PI / 2)
      | inleft (right _) => 0
      | inright _ => PI / 2
      end
  | inright _ => atan (y / x)
  end.

(** The local [a] of [getDistanceFromLatLonInMeters]. *)
Definition haversine_a (lat1 lon1 lat2 lon2 : R) : R :=
  let dLat := deg2rad (lat2 - lat1) in
  let dLon := deg2rad (lon2 - lon1) in
  sin (dLat / 2) * sin (dLat / 2) +
  cos (deg2rad lat1) * cos (deg2rad lat2) *
  sin (dLon / 2) * sin (dLon / 2).

Definition getDistanceFromLatLonInMeters (lat1 lon1 lat2 lon2 : R) : R :=
  let R := 6371e3 in
  let a := haversine_a lat1 lon1 lat2 lon2 in
  let c := 2 * Math_atan2 (sqrt a) (sqrt (1 - a)) in
  let distance := R * c in
  distance.

(** The haversine of an angle, [sin^2 (t / 2)]. *)
Definition hav (t : R) : R := (sin (t / 2))².

End GeoFence.

(** ** JavaScript numbers: IEEE 754 binary64 *)

Module Number.
Local Open Scope Z_scope.

(** A Number is a double: a signed zero, a signed infinity, NaN, or a
    finite [(-1)^s * m * 2^e]. The operations are those of IEEE 754 in
    binary64 (53 bits of precision, exponents below 1024), rounding to
    the nearest double, ties to even. *)
Abbreviation double := spec_float.

Definition fadd : double -> double -> double := SFadd 53 1024.
Definition fsub : double -> double -> double := SFsub 53 1024.
Definition fmul : double -> double -> double := SFmul 53 1024.
Definition fdiv : double -> double -> double := SFdiv 53 1024.
Definition fsqrt : double -> double := SFsqrt 53 1024.

(** [x <= y] and [x < y]: false when either side is NaN. *)
Definition fleb : double -> double -> bool := SFleb.
Definition fltb : double -> double -> bool := SFltb.

Definition NaN : double := S754_nan.

(** The value of a decimal literal: [m / 10 ^ k], rounded once. *)
Definition dec (m : Z) (k : nat) : double :=
  match m with
  | Z0 => S754_zero false
  | Zpos p =>
      fdiv (S754_finite false p 0)
        (S754_finite false (Z.to_pos (10 ^ Z.of_nat k)) 0)
  | Zneg p =>
      fdiv (S754_finite true p 0)
        (S754_finite false (Z.to_pos (10 ^ Z.of_nat k)) 0)
  end.

(** The same double, bit for bit ([+0] and [-0] differ). *)
Definition same (x y : double) : bool :=
  match x, y with
  | S754_zero s, S754_zero s' => Bool.eqb s s'
  | S754_infinity s, S754_infinity s' => Bool.eqb s s'
  | S754_nan, S754_nan => true
  | S754_finite s m e, S754_finite s' m' e' =>
      Bool.eqb s s' && Pos.eqb m m' && Z.eqb e e'
  | _, _ => false
  end.

End Number.

(** ** The distance to the college, in doubles *)

Module GeoFence64.
Import Number.

(** The functions of [Math] that the component calls. ECMAScript fixes
    their values at a few arguments only and leaves the others to the
    implementation ("implementation-approximated"), so they are a
    parameter of the embedding. *)
Record Math := {
  Math_sin : double -> double;
  Math_cos : double -> double;
  Math_atan2 : double -> double -> double
}.

(** [Math.PI] is the double nearest to pi; [Math.sqrt] is the square
    root of IEEE 754. *)
Definition Math_PI : double := dec 3141592653589793 15.
Definition Math_sqrt : double -> double := fsqrt.

(** The constants of the component. *)
Definition collegeLatitude : double := dec 2771477743675058 14.
Definition collegeLongitude : double := dec 8530895279815599 14.
Definition allowedRadius : double := dec 100 0.

(** [const deg2rad = (deg) => deg * (Math.PI / 180)] *)
Definition deg2rad (deg : double) : double :=
  fmul deg (fdiv Math_PI (dec 180 0)).

Section Component.
Variable M : Math.

(** The local [a] of [getDistanceFromLatLonInMeters]; JavaScript
    multiplies from the left. *)
Definition haversine_a (lat1 lon1 lat2 lon2 : double) : double :=
  let dLat := deg2rad (fsub lat2 lat1) in
  let dLon := deg2rad (fsub lon2 lon1) in
  fadd
    (fmul (Math_sin M (fdiv dLat (dec 2 0))) (Math_sin M (fdiv dLat (dec 2 0))))
    (fmul
       (fmul
          (fmul (Math_cos M (deg2rad lat1)) (Math_cos M (deg2rad lat2)))
          (Math_sin M (fdiv dLon (dec 2 0))))
       (Math_sin M (fdiv dLon (dec 2 0)))).

Definition getDistanceFromLatLonInMeters (lat1 lon1 lat2 lon2 : double)
  : double :=
  let R := dec 6371000 0 in
  let a := haversine_a lat1 lon1 lat2 lon2 in
  let c :=
    fmul (dec 2 0)
      (Math_atan2 M (Math_sqrt a) (Math_sqrt (fsub (dec 1 0) a))) in
  let distance := fmul R c in
  distance.

(** The success callback of the geolocation effect (lines 100 to 112),
    which the component keeps commented out:
    [setIsWithinCollegeRadius(distance <= allowedRadius)], and the toast
    [if (distance > allowedRadius)]. It is the only place that calls
    [getDistanceFromLatLonInMeters]. *)
Record Located := { isWithinCollegeRadius : bool; toasts : list string }.

Definition onPosition (latitude longitude : double) : Located :=
  let distance :=
    getDistanceFromLatLonInMeters latitude longitude
      collegeLatitude collegeLongitude in
  {| isWithinCollegeRadius := fleb distance allowedRadius;
     toasts := if fltb allowedRadius distance
               then ["Out of College Radius"] else [] |}.

End Component.

(** A coordinate the specification calls well-formed: latitude in
    [-90, 90] and longitude in [-180, 180]. *)
Definition well_formed (latitude longitude : double) : bool :=
  fleb (dec (-90) 0) latitude && fleb latitude (dec 90 0)
  && fleb (dec (-180) 0) longitude && fleb longitude (dec 180 0).

(** Malformed, as the specification has it. *)
Definition malformed (latitude longitude : double) : Prop :=
  well_formed latitude longitude = false.

(** What ECMAScript does fix of the three functions, as far as the
    component's calls go: [Math.sin(+0)] is [+0]; [Math.atan2] is NaN
    when an argument is; [Math.atan2(+0, x)] is [+0] for [x > 0]. *)
Record ecmascript (M : Math) : Prop := {
  sin_zero : Math_sin M (S754_zero false) = S754_zero false;
  atan2_NaN : forall y, Math_atan2 M y NaN = NaN;
  atan2_zero : forall x,
    fltb (S754_zero false) x = true ->
    Math_atan2 M (S754_zero false) x = S754_zero false
}.

(** Values of [Math.sin], [Math.cos] and [Math.atan2] at the arguments
    the examples meet, as the libraries derived from fdlibm (V8's and
    SpiderMonkey's) and glibc return them: argument, then value. *)
Definition sin_samples : list (double * double) :=
  [ (dec (-4363323129985824) 17, dec (-43619387365336) 15);
    (dec 15707963267948966 16, dec 1 0);
    (dec 48371411740802284 17, dec 46507038620923613 17);
    (dec 157079633725078 14, dec 1 0);
    (dec (-3141592653589793) 15, dec (-12246467991473532) 32) ].

Definition cos_samples : list (double * double) :=
  [ (dec 4363323129985824 17, dec 9990482215818578 16);
    (dec (-4363323129985824) 17, dec 9990482215818578 16);
    (dec (-4837141170873135) 16, dec 8852737069038442 16);
    (dec 48371411772873213 17, dec 8852737066055394 16);
    (dec 6766899424908319 15, dec 8852737066055393 16) ].

Definition atan2_samples : list (double * double * double) :=
  [ (dec 12246467991473532 32, dec 1 0, dec 12246467991473532 32) ].

(** A library returns the sampled values. *)
Definition on_samples (M : Math) : Prop :=
  Forall (fun p => Math_sin M p.1 = p.2) sin_samples
  /\ Forall (fun p => Math_cos M p.1 = p.2) cos_samples
  /\ Forall (fun p => Math_atan2 M p.1.1 p.1.2 = p.2) atan2_samples.

(** The library that knows the samples and what ECMAScript fixes, and
    answers NaN elsewhere: enough to run the examples. *)
Definition lookup (table : list (double * double)) (x : double) : double :=
  match List.find (fun p => same x p.1) table with
  | Some p => p.2
  | None => NaN
  end.

Definition sampled : Math :=
  {| Math_sin x :=
       if same x (S754_zero false) then x else lookup sin_samples x;
     Math_cos x := lookup cos_samples x;
     Math_atan2 y x :=
       match x, y with
       | S754_nan, _ | _, S754_nan => NaN
       | _, S754_zero false =>
           if fltb (S754_zero false) x then y
           else NaN
       | _, _ =>
           match List.find (fun p => same y p.1.1 && same x p.1.2)
                   atan2_samples with
           | Some p => p.2
           | None => NaN
           end
       end |}.

End GeoFence64.

(** ** The [Date] operations of the "verified today" effect *)

Module JSDate.
Local Open Scope Z_scope.

(** Time values are milliseconds since the epoch; [None] is the NaN time
    value of an invalid date. *)
Definition TimeValue := option Z.

Definition msPerDay : Z := 86400000.

(** ECMAScript's [Day(t) = floor(t / msPerDay)]. *)
Definition Day (t : Z) : Z := t / msPerDay.

(** ECMAScript's [DayFromYear]: the day number of 1 January of year [y]. *)
Definition DayFromYear (y : Z) : Z :=
  365 * (y - 1970) + (y - 1969) / 4 - (y - 1901) / 100 + (y - 1601) / 400.

(** [YearFromTime], on day numbers: the year a day falls in, found through
    the 400-, 100-, 4- and 1-year cycles counted from 1 January 1601. *)
Definition YearFromDay (d : Z) : Z :=
  let n := d + 134774 in
  let r := n mod 146097 in
  let c := Z.min (r / 36524) 3 in
  let r2 := r - c * 36524 in
  let q := r2 / 1461 in
  let r3 := r2 - q * 1461 in
  let yq := Z.min (r3 / 365) 3 in
  1601 + 400 * (n / 146097) + 100 * c + 4 * q + yq.

Definition DaysInYear (y : Z) : Z :=
  if negb (y mod 4 =? 0) then 365
  else if negb (y mod 100 =? 0) then 366
  else if negb (y mod 400 =? 0) then 365
  else 366.

Definition InLeapYear (d : Z) : Z :=
  if DaysInYear (YearFromDay d) =? 366 then 1 else 0.

Definition DayWithinYear (d : Z) : Z := d - DayFromYear (YearFromDay d).

(** The first day (within the year) of each month, 0 = January. *)
Definition monthStart (leap m : Z) : Z :=
  match m with
  | 0 => 0
  | 1 => 31
  | 2 => 59 + leap
  | 3 => 90 + leap
  | 4 => 120 + leap
  | 5 => 151 + leap
  | 6 => 181 + leap
  | 7 => 212 + leap
  | 8 => 243 + leap
  | 9 => 273 + leap
  | 10 => 304 + leap
  | _ => 334 + leap
  end.

Definition MonthFromDay (d : Z) : Z :=
  let w := DayWithinYear d in
  let leap := InLeapYear d in
  if w <? 31 then 0
  else if w <? 59 + leap then 1
  else if w <? 90 + leap then 2
  else if w <? 120 + leap then 3
  else if w <? 151 + leap then 4
  else if w <? 181 + leap then 5
  else if w <? 212 + leap then 6
  else if w <? 243 + leap then 7
  else if w <? 273 + leap then 8
  else if w <? 304 + leap then 9
  else if w <? 334 + leap then 10
  else 11.

Definition DateFromDay (d : Z) : Z :=
  DayWithinYear d - monthStart (InLeapYear d) (MonthFromDay d) + 1.

(** [WeekDay], 0 = Sunday; 1 January 1970 was a Thursday. *)
Definition WeekDay (d : Z) : Z := (d + 4) mod 7.

(** What [toDateString] prints: "Invalid Date", or the four tokens
    weekday, month, day of the month and year, as in "Wed May 01 2024".
    Two printed strings are equal exactly when their tokens are. *)
Inductive DateString : Type :=
| InvalidDate
| DateTokens (weekday month date year : Z).

#[global] Instance DateString_eq_dec : EqDecision DateString.
Proof. solve_decision. Defined.

Section LocalTime.

(** The offset of local time from UTC, in milliseconds, at UTC time [t]
    (it varies with [t] where daylight saving applies), and the parser
    behind [new Date(string)]. *)
Variable LocalTZA : Z -> Z.
Variable Date_parse : string -> TimeValue.

Definition LocalTime (t : Z) : Z := t + LocalTZA t.

(** The local calendar day of a time value, as a day number. *)
Definition localDay (t : Z) : Z := Day (LocalTime t).

Definition toDateString (tv : TimeValue) : DateString :=
  match tv with
  | None => InvalidDate
  | Some t =>
      let d := localDay t in
      DateTokens (WeekDay d) (MonthFromDay d) (DateFromDay d) (YearFromDay d)
  end.

(** The value the effect on [studentData] passes to [setIsVerified]:
    [new Date(studentData.last_check_in).toDateString() ===
     new Date().toDateString()]; [now] is the time value of [new Date()]. *)
Definition verifiedToday (last_check_in : string) (now : Z) : bool :=
  bool_decide (toDateString (Date_parse last_check_in)
               = toDateString (Some now)).

End LocalTime.

(** Examples, in Kathmandu's local time (UTC+5:45, no daylight saving). *)
Definition kathmandu (_ : Z) : Z := 20700000.

(** 2024-05-01T00:30 local is 2024-04-30T18:45Z. *)
Definition may_1_0030_local : Z := 1714502700000.
(** 2024-05-01T10:00 local is 2024-05-01T04:15Z. *)
Definition may_1_1000_local : Z := 1714536900000.
(** 2024-04-30T23:30 local is 2024-04-30T17:45Z. *)
Definition apr_30_2330_local : Z := 1714499100000.

End JSDate.

(** ** Attendance ledger (server side) *)

Module Ledger.

Inductive Status := Present | Absent | Late.

(** Modelled from the spec: the AttendanceRecord of section 3; [date] is a
    calendar day such as "2024-05-01", [recordedAt] a timestamp. *)
Record AttendanceRecord := {
  studentId : string;
  date : string;
  status : Status;
  recordedAt : nat
}.

(** The persisted records, in insertion order. A list, not a map: that a
    key occurs once is a property to prove, not one of the type. *)
Definition Table := list AttendanceRecord.

Definition has_key (sid day : string) (r : AttendanceRecord) : bool :=
  bool_decide (studentId r = sid /\ date r = day).

Definition lookup_record (sid day : string) (t : Table)
  : option AttendanceRecord :=
  List.find (has_key sid day) t.

Section Upsert.

(** The status the server gives a check-in verified at a given time;
    the specification leaves it open. *)
Variable statusAt : nat -> Status.

(** Modelled from the spec: [recordVerifiedCheckIn] of section 4.5, the
    server-side ledger write whose code is not among the sources. An
    idempotent upsert keyed on (studentId, date): an existing record is
    returned unchanged, otherwise a record stamped [now] is appended. *)
Definition recordVerifiedCheckIn (sid day : string) (now : nat) (t : Table)
  : Table * AttendanceRecord :=
  match lookup_record sid day t with
  | Some existing => (t, existing)
  | None =>
      let created :=
        {| studentId := sid; date := day; status := statusAt now;
           recordedAt := now |} in
      (t ++ [created], created)
  end.

(** One call per clock reading of [nows], in order, all with the same
    arguments; the records the calls return, in call order. *)
Fixpoint repeatedCheckIn (sid day : string) (nows : list nat) (t : Table)
  : Table * list AttendanceRecord :=
  match nows with
  | [] => (t, [])
  | now :: later =>
      let '(t1, r) := recordVerifiedCheckIn sid day now t in
      let '(t2, rs) := repeatedCheckIn sid day later t1 in
      (t2, r :: rs)
  end.

End Upsert.

(** How many persisted records a pair (studentId, date) has. *)
Definition records_for (sid day : string) (t : Table) : nat :=
  length (List.filter (has_key sid day) t).

(** At most one record per (studentId, date). *)
Definition unique_keys (t : Table) : Prop :=
  forall sid day, records_for sid day t <= 1.

End Ledger.

(** ** Admin API client and the attendance page's bulk action *)

(** The client with every request answered before the client goes on:
    of the runs of a batch this is the one in which the backend serves
    each request, and its answer arrives, before the next request is
    served. Module [InFlight] has all the runs. *)
Module AdminApi.

Inductive AttendanceStatus := Present | Absent | Late.

#[global] Instance AttendanceStatus_eq_dec : EqDecision AttendanceStatus.
Proof. solve_decision. Defined.

(** [interface Attendance]; of the nested student record the page only
    reads names and class, kept here as one opaque string. *)
Record Attendance := {
  id : nat;
  student : string;
  status : AttendanceStatus;
  date : string
}.

Record AxiosResponse := { data : Attendance }.

(** A settled promise. *)
Inductive Settled (A : Type) : Type :=
| Fulfilled (value : A)
| Rejected (reason : string).
Arguments Fulfilled {A} value.
Arguments Rejected {A} reason.

(** A request put on the wire: [PUT /attendance/<id>/ {status}]. *)
Record Request := { put_id : nat; put_status : AttendanceStatus }.

(** [Promise.all] of promises that settle in the order of the list:
    the values in order when every promise is fulfilled, otherwise the
    reason of the first one that rejected. *)
Fixpoint Promise_all {A : Type} (ps : list (Settled A)) : Settled (list A) :=
  match ps with
  | [] => Fulfilled []
  | Rejected reason :: _ => Rejected reason
  | Fulfilled v :: rest =>
      match Promise_all rest with
      | Fulfilled vs => Fulfilled (v :: vs)
      | Rejected reason => Rejected reason
      end
  end.

Section Client.

(** The backend is not among the sources: any state type and any
    behaviour of the PUT endpoint, which answers with the updated record
    or fails the request. *)
Variable Backend : Type.
Variable serve_put :
  nat -> AttendanceStatus -> Backend -> Backend * Settled AxiosResponse.

(** What a client call acts on: the backend and the wire. *)
Record World := { backend : Backend; wire : list Request }.

(** Client code threads the world through its calls. *)
Definition Client (A : Type) : Type := World -> A * World.

Definition ret {A : Type} (a : A) : Client A := fun w => (a, w).

Definition bind {A B : Type} (c : Client A) (k : A -> Client B) : Client B :=
  fun w => let '(a, w1) := c w in k a w1.

Notation "'let*' x ':=' c 'in' k" := (bind c (fun x => k))
  (at level 10, x name, c at level 100, k at level 200).

(** [Array.prototype.map] with an effectful callback: the callback runs
    on each element in index order. *)
Fixpoint mapM {A B : Type} (f : A -> Client B) (l : list A) : Client (list B) :=
  match l with
  | [] => ret []
  | a :: rest =>
      let* b := f a in
      let* bs := mapM f rest in
      ret (b :: bs)
  end.

(** [api.put(`/attendance/${id}/`, { status })]: the request goes out
    when the call is made and, in this module, is served and answered
    before the client goes on. *)
Definition api_put (i : nat) (st : AttendanceStatus)
  : Client (Settled AxiosResponse) :=
  fun w =>
    let '(b, response) := serve_put i st (backend w) in
    (response,
     {| backend := b;
        wire := wire w ++ [{| put_id := i; put_status := st |}] |}).

(** [updateAttendanceStatus]: [await api.put(...)], then [response.data];
    a rejected request rejects the call. *)
Definition updateAttendanceStatus (i : nat) (st : AttendanceStatus)
  : Client (Settled Attendance) :=
  let* response := api_put i st in
  ret match response with
      | Fulfilled r => Fulfilled (data r)
      | Rejected reason => Rejected reason
      end.

(** [bulkUpdateAttendance]:
    [const updates = ids.map((id) => updateAttendanceStatus(id, status))]
    [return Promise.all(updates)] *)
Definition bulkUpdateAttendance (ids : list nat) (st : AttendanceStatus)
  : Client (Settled (list Attendance)) :=
  let* updates := mapM (fun i => updateAttendanceStatus i st) ids in
  ret (Promise_all updates).

(** The specification's words: N single-record updates, issued one after
    the other in the order of the ids, each settling on its own. *)
Fixpoint sequential_updates (ids : list nat) (st : AttendanceStatus) (w : World)
  : list (Settled Attendance) * World :=
  match ids with
  | [] => ([], w)
  | i :: rest =>
      let '(r, w1) := updateAttendanceStatus i st w in
      let '(rs, w2) := sequential_updates rest st w1 in
      (r :: rs, w2)
  end.

(** The attendance page: its [attendanceData] state and the filters that
    make [filteredAttendance]. *)
Variable matchesFilters : Attendance -> bool.

Definition filteredAttendance (attendanceData : list Attendance)
  : list Attendance :=
  List.filter matchesFilters attendanceData.

(** [updatedRecords.find((u) => u.id === r.id) || r] *)
Definition replaceUpdated (updatedRecords : list Attendance) (r : Attendance)
  : Attendance :=
  match List.find (fun u => Nat.eqb (id u) (id r)) updatedRecords with
  | Some u => u
  | None => r
  end.

(** [handleBulkUpdate]: the ids of the filtered records go to
    [bulkUpdateAttendance]; on success the page's records are replaced by
    the updated ones, on failure the page only logs the error. *)
Definition handleBulkUpdate (st : AttendanceStatus)
  (attendanceData : list Attendance) : Client (list Attendance) :=
  let ids := List.map id (filteredAttendance attendanceData) in
  let* outcome := bulkUpdateAttendance ids st in
  ret match outcome with
      | Fulfilled updatedRecords =>
          List.map (replaceUpdated updatedRecords) attendanceData
      | Rejected _ => attendanceData
      end.

End Client.

Arguments backend {Backend} w.
Arguments wire {Backend} w.

(** A small backend to run the client against: records by id; a PUT on a
    missing id fails with 404 and changes nothing. *)
Definition store_put (i : nat) (st : AttendanceStatus) (db : gmap nat Attendance)
  : gmap nat Attendance * Settled AxiosResponse :=
  match db !! i with
  | Some r =>
      let r' := {| id := id r; student := student r; status := st;
                   date := date r |} in
      (<[i := r']> db, Fulfilled {| data := r' |})
  | None => (db, Rejected "Request failed with status code 404")
  end.

(** Against the small backend: records 1 and 2 exist, 99 does not. *)
Definition two_records : gmap nat Attendance :=
  <[1 := {| id := 1; student := "Asha"; status := Absent;
            date := "2024-05-01" |}]>
  (<[2 := {| id := 2; student := "Bikash"; status := Absent;
             date := "2024-05-01" |}]> ∅).

End AdminApi.

(** ** The bulk update with its requests in flight *)

Module InFlight.
Import AdminApi.

(** Where a request is: on its way to the backend; answered there, with
    the answer on its way back; or answered to the client. *)
Inductive Progress :=
| Sent
| Served (response : Settled AxiosResponse)
| Delivered (response : Settled AxiosResponse).

Record Flight := { request : Request; progress : Progress }.

(** The order in which the backend serves the requests in flight, and
    the order in which the answers arrive, are not the client's to
    choose: they are the events of a run. *)
Inductive Event :=
| Serve (k : nat)
| Deliver (k : nat).

Section Client.
Variable Backend : Type.
Variable serve_put :
  nat -> AttendanceStatus -> Backend -> Backend * Settled AxiosResponse.

(** One call of [bulkUpdateAttendance]: the backend, the requests of
    the call in the order in which they went out, and the promise that
    [Promise.all] returned, pending ([None]) or settled. The other two
    fields are a record of the run: the requests in the order in which
    they were served, and the answers in the order in which they
    arrived. *)
Record Call := {
  server : Backend;
  flights : list Flight;
  promise : option (Settled (list Attendance));
  servedOrder : list nat;
  arrivals : list (nat * Settled AxiosResponse)
}.

(** [updateAttendanceStatus(id, status)] runs to its [await]: [api.put]
    has sent the request. *)
Definition updateAttendanceStatus (i : nat) (st : AttendanceStatus) : Flight :=
  {| request := {| put_id := i; put_status := st |}; progress := Sent |}.

(** It resumes when the answer arrives: [return response.data], or the
    rejection of the request. *)
Definition updateAttendanceStatus_resume (response : Settled AxiosResponse)
  : Settled Attendance :=
  match response with
  | Fulfilled r => Fulfilled (data r)
  | Rejected reason => Rejected reason
  end.

(** The promise of one update. *)
Definition update_promise (f : Flight) : option (Settled Attendance) :=
  match progress f with
  | Delivered response => Some (updateAttendanceStatus_resume response)
  | _ => None
  end.

(** The values of the updates, when all of them are fulfilled. *)
Fixpoint all_fulfilled (fs : list Flight) : option (list Attendance) :=
  match fs with
  | [] => Some []
  | f :: rest =>
      match update_promise f, all_fulfilled rest with
      | Some (Fulfilled v), Some vs => Some (v :: vs)
      | _, _ => None
      end
  end.

(** [bulkUpdateAttendance]:
    [const updates = ids.map((id) => updateAttendanceStatus(id, status))]
    starts the updates one after the other, awaiting none;
    [return Promise.all(updates)] is pending, unless there is nothing
    to wait for. *)
Definition bulkUpdateAttendance (ids : list nat) (st : AttendanceStatus)
  (b : Backend) : Call :=
  {| server := b;
     flights := List.map (fun i => updateAttendanceStatus i st) ids;
     promise := match ids with [] => Some (Fulfilled []) | _ => None end;
     servedOrder := [];
     arrivals := [] |}.

(** [Promise.all] when one of its promises settles: a rejection rejects
    it; a fulfilment fulfils it when it was the last one missing, with
    the values in the order of the promises; once settled, it stays as
    it is. *)
Definition Promise_all_settle (p : option (Settled (list Attendance)))
  (outcome : Settled Attendance) (updates : list Flight)
  : option (Settled (list Attendance)) :=
  match p with
  | Some _ => p
  | None =>
      match outcome with
      | Rejected reason => Some (Rejected reason)
      | Fulfilled _ => Fulfilled <$> all_fulfilled updates
      end
  end.

Definition enabled (c : Call) (e : Event) : bool :=
  match e with
  | Serve k =>
      match progress <$> flights c !! k with
      | Some Sent => true
      | _ => false
      end
  | Deliver k =>
      match progress <$> flights c !! k with
      | Some (Served _) => true
      | _ => false
      end
  end.

Definition handle (c : Call) (e : Event) : Call :=
  match e with
  | Serve k =>
      match flights c !! k with
      | Some f =>
          let '(b, response) :=
            serve_put (put_id (request f)) (put_status (request f))
              (server c) in
          {| server := b;
             flights :=
               <[k := {| request := request f;
                         progress := Served response |}]> (flights c);
             promise := promise c;
             servedOrder := servedOrder c ++ [k];
             arrivals := arrivals c |}
      | None => c
      end
  | Deliver k =>
      match flights c !! k with
      | Some {| request := r; progress := Served response |} =>
          let updates :=
            <[k := {| request := r; progress := Delivered response |}]>
              (flights c) in
          {| server := server c;
             flights := updates;
             promise :=
               Promise_all_settle (promise c)
                 (updateAttendanceStatus_resume response) updates;
             servedOrder := servedOrder c;
             arrivals := arrivals c ++ [(k, response)] |}
      | _ => c
      end
  end.

Definition step (c : Call) (e : Event) : Call :=
  if enabled c e then handle c e else c.

Definition run (c : Call) (trace : list Event) : Call :=
  fold_left step trace c.

(** The run in which every request is served and answered before the
    next one is served: the sequential reading of the batch. *)
Definition in_order (n : nat) : list Event :=
  flat_map (fun k => [Serve k; Deliver k]) (seq 0 n).

(** The reason of the first rejection to arrive. *)
Fixpoint first_rejection (answers : list (nat * Settled AxiosResponse))
  : option string :=
  match answers with
  | [] => None
  | (_, Rejected reason) :: _ => Some reason
  | (_, Fulfilled _) :: rest => first_rejection rest
  end.

(** The PUT of an id. *)
Definition put (st : AttendanceStatus) (i : nat) : Request :=
  {| put_id := i; put_status := st |}.

(** What the backend becomes when it serves the request of index [k]. *)
Definition serve_index (ids : list nat) (st : AttendanceStatus)
  (b : Backend) (k : nat) : Backend :=
  match ids !! k with
  | Some i => (serve_put i st b).1
  | None => b
  end.

(** [handleBulkUpdate] to its [await]: the ids of the filtered records
    go to [bulkUpdateAttendance]. *)
Variable matchesFilters : Attendance -> bool.

Definition handleBulkUpdate (st : AttendanceStatus)
  (attendanceData : list Attendance) (b : Backend) : Call :=
  bulkUpdateAttendance
    (List.map id (filteredAttendance matchesFilters attendanceData)) st b.

(** It resumes when the promise settles: on success the page's records
    are replaced by the updated ones, on failure the page only logs the
    error. *)
Definition handleBulkUpdate_resume (attendanceData : list Attendance)
  (outcome : Settled (list Attendance)) : list Attendance :=
  match outcome with
  | Fulfilled updatedRecords =>
      List.map (replaceUpdated updatedRecords) attendanceData
  | Rejected _ => attendanceData
  end.

(** The page's records at a point of the run. *)
Definition attendanceData_at (attendanceData : list Attendance) (c : Call)
  : list Attendance :=
  match promise c with
  | Some outcome => handleBulkUpdate_resume attendanceData outcome
  | None => attendanceData
  end.

End Client.

Arguments server {Backend} c.
Arguments flights {Backend} c.
Arguments promise {Backend} c.
Arguments servedOrder {Backend} c.
Arguments arrivals {Backend} c.

(** A backend that keeps a log of the ids it served and fails two of
    them, each in its own way. *)
Definition logging_put (i : nat) (st : AttendanceStatus) (log : list nat)
  : list nat * Settled AxiosResponse :=
  (log ++ [i],
   match i with
   | 1 => Rejected "Request failed with status code 500"
   | 2 => Rejected "Request failed with status code 404"
   | _ => Fulfilled {| data := {| id := i; student := ""; status := st;
                                  date := "" |} |}
   end).

End InFlight.

(** ** The student dashboard's check-in flow *)

Module Dashboard.

(** *** Browser objects *)

Inductive ReadyState := live | ended.

Record MediaStreamTrack := { kind : string; readyState : ReadyState }.

(** A stream is its tracks ([stream.getTracks()]). *)
Abbreviation MediaStream := (list MediaStreamTrack).

(** [track.stop()] *)
Definition track_stop (t : MediaStreamTrack) : MediaStreamTrack :=
  {| kind := kind t; readyState := ended |}.

Definition track_live (t : MediaStreamTrack) : bool :=
  match readyState t with live => true | ended => false end.

(** The video element behind [videoRef]; [srcObject] names a stream of the
    store by its index. *)
Record HTMLVideoElement := { srcObject : option nat }.

(** [canvas.toDataURL("image/jpeg")] after [drawImage(video, 0, 0)] on a
    canvas sized [width] x [height]: a canvas without pixels serialises
    to "data:,", any other to a JPEG data URL of the [picture] on it. *)
Definition canvas_toDataURL (width height : nat) (picture : string) : string :=
  if (width =? 0)%nat || (height =? 0)%nat then "data:,"
  else "data:image/jpeg;base64," ++ picture.

(** *** Strings *)

Definition comma : ascii := ","%char.

Fixpoint after_comma (s : string) : option string :=
  match s with
  | EmptyString => None
  | String c rest => if Ascii.eqb c comma then Some rest else after_comma rest
  end.

Fixpoint before_comma (s : string) : string :=
  match s with
  | EmptyString => EmptyString
  | String c rest =>
      if Ascii.eqb c comma then EmptyString else String c (before_comma rest)
  end.

(** [s.split(',')[1]]: the text between the first and the second comma;
    [None] is [undefined] (no comma in [s]). *)
Definition split_comma_1 (s : string) : option string :=
  before_comma <$> after_comma s.

(** *** Component state *)

(** The captured still image: [capturedImage] holds its data URL;
    [frameId] numbers the captures, so that two frames with equal
    pixels are still told apart. *)
Record CapturedFrame := { frameId : nat; dataUrl : string }.

(** A request of [handleAttendance] in flight:
    [axios.post(url, { student_id, image_data })]. The call passes no
    request config, so [timeout] is axios's default. *)
Record VerificationRequest := {
  url : string;
  student_id : nat;
  image_data : option string;
  frame : nat;
  sentAt : nat;
  timeout : nat
}.

(** axios's default [timeout] is 0, which it reads as "no timeout". *)
Definition axios_defaults_timeout : nat := 0.

Record State := {
  mounted : bool;
  props_id : nat;
  (* useState *)
  isChecking : bool;
  isVerified : bool;
  isCameraOpen : bool;
  capturedImage : option CapturedFrame;
  isWithinCollegeRadius : bool;
  (* useRef *)
  videoRef : option HTMLVideoElement;
  (* the environment *)
  streams : list MediaStream;
  pendingGetUserMedia : nat;
  pendingVerification : list VerificationRequest;
  posted : list VerificationRequest;
  captures : nat;
  clock : nat;
  toasts : list string
}.

Definition init (student : nat) : State :=
  {| mounted := true; props_id := student;
     isChecking := false; isVerified := false; isCameraOpen := false;
     capturedImage := None; isWithinCollegeRadius := false;
     videoRef := None;
     streams := []; pendingGetUserMedia := 0; pendingVerification := [];
     posted := []; captures := 0; clock := 0; toasts := [] |}.

Definition set_mounted (b : bool) (s : State) : State :=
  {| mounted := b; props_id := props_id s;
     isChecking := isChecking s; isVerified := isVerified s;
     isCameraOpen := isCameraOpen s; capturedImage := capturedImage s;
     isWithinCollegeRadius := isWithinCollegeRadius s;
     videoRef := videoRef s; streams := streams s;
     pendingGetUserMedia := pendingGetUserMedia s;
     pendingVerification := pendingVerification s; posted := posted s;
     captures := captures s; clock := clock s; toasts := toasts s |}.

Definition setIsChecking (b : bool) (s : State) : State :=
  {| mounted := mounted s; props_id := props_id s;
     isChecking := b; isVerified := isVerified s;
     isCameraOpen := isCameraOpen s; capturedImage := capturedImage s;
     isWithinCollegeRadius := isWithinCollegeRadius s;
     videoRef := videoRef s; streams := streams s;
     pendingGetUserMedia := pendingGetUserMedia s;
     pendingVerification := pendingVerification s; posted := posted s;
     captures := captures s; clock := clock s; toasts := toasts s |}.

Definition setIsVerified (b : bool) (s : State) : State :=
  {| mounted := mounted s; props_id := props_id s;
     isChecking := isChecking s; isVerified := b;
     isCameraOpen := isCameraOpen s; capturedImage := capturedImage s;
     isWithinCollegeRadius := isWithinCollegeRadius s;
     videoRef := videoRef s; streams := streams s;
     pendingGetUserMedia := pendingGetUserMedia s;
     pendingVerification := pendingVerification s; posted := posted s;
     captures := captures s; clock := clock s; toasts := toasts s |}.

Definition setIsCameraOpen (b : bool) (s : State) : State :=
  {| mounted := mounted s; props_id := props_id s;
     isChecking := isChecking s; isVerified := isVerified s;
     isCameraOpen := b; capturedImage := capturedImage s;
     isWithinCollegeRadius := isWithinCollegeRadius s;
     videoRef := videoRef s; streams := streams s;
     pendingGetUserMedia := pendingGetUserMedia s;
     pendingVerification := pendingVerification s; posted := posted s;
     captures := captures s; clock := clock s; toasts := toasts s |}.

Definition setCapturedImage (c : option CapturedFrame) (s : State) : State :=
  {| mounted := mounted s; props_id := props_id s;
     isChecking := isChecking s; isVerified := isVerified s;
     isCameraOpen := isCameraOpen s; capturedImage := c;
     isWithinCollegeRadius := isWithinCollegeRadius s;
     videoRef := videoRef s; streams := streams s;
     pendingGetUserMedia := pendingGetUserMedia s;
     pendingVerification := pendingVerification s; posted := posted s;
     captures := captures s; clock := clock s; toasts := toasts s |}.

Definition set_videoRef (v : option HTMLVideoElement) (s : State) : State :=
  {| mounted := mounted s; props_id := props_id s;
     isChecking := isChecking s; isVerified := isVerified s;
     isCameraOpen := isCameraOpen s; capturedImage := capturedImage s;
     isWithinCollegeRadius := isWithinCollegeRadius s;
     videoRef := v; streams := streams s;
     pendingGetUserMedia := pendingGetUserMedia s;
     pendingVerification := pendingVerification s; posted := posted s;
     captures := captures s; clock := clock s; toasts := toasts s |}.

Definition set_streams (l : list MediaStream) (s : State) : State :=
  {| mounted := mounted s; props_id := props_id s;
     isChecking := isChecking s; isVerified := isVerified s;
     isCameraOpen := isCameraOpen s; capturedImage := capturedImage s;
     isWithinCollegeRadius := isWithinCollegeRadius s;
     videoRef := videoRef s; streams := l;
     pendingGetUserMedia := pendingGetUserMedia s;
     pendingVerification := pendingVerification s; posted := posted s;
     captures := captures s; clock := clock s; toasts := toasts s |}.

Definition set_pendingGetUserMedia (n : nat) (s : State) : State :=
  {| mounted := mounted s; props_id := props_id s;
     isChecking := isChecking s; isVerified := isVerified s;
     isCameraOpen := isCameraOpen s; capturedImage := capturedImage s;
     isWithinCollegeRadius := isWithinCollegeRadius s;
     videoRef := videoRef s; streams := streams s;
     pendingGetUserMedia := n;
     pendingVerification := pendingVerification s; posted := posted s;
     captures := captures s; clock := clock s; toasts := toasts s |}.

Definition set_pendingVerification (l : list VerificationRequest) (s : State)
  : State :=
  {| mounted := mounted s; props_id := props_id s;
     isChecking := isChecking s; isVerified := isVerified s;
     isCameraOpen := isCameraOpen s; capturedImage := capturedImage s;
     isWithinCollegeRadius := isWithinCollegeRadius s;
     videoRef := videoRef s; streams := streams s;
     pendingGetUserMedia := pendingGetUserMedia s;
     pendingVerification := l; posted := posted s;
     captures := captures s; clock := clock s; toasts := toasts s |}.

Definition set_posted (l : list VerificationRequest) (s : State) : State :=
  {| mounted := mounted s; props_id := props_id s;
     isChecking := isChecking s; isVerified := isVerified s;
     isCameraOpen := isCameraOpen s; capturedImage := capturedImage s;
     isWithinCollegeRadius := isWithinCollegeRadius s;
     videoRef := videoRef s; streams := streams s;
     pendingGetUserMedia := pendingGetUserMedia s;
     pendingVerification := pendingVerification s; posted := l;
     captures := captures s; clock := clock s; toasts := toasts s |}.

Definition set_captures (n : nat) (s : State) : State :=
  {| mounted := mounted s; props_id := props_id s;
     isChecking := isChecking s; isVerified := isVerified s;
     isCameraOpen := isCameraOpen s; capturedImage := capturedImage s;
     isWithinCollegeRadius := isWithinCollegeRadius s;
     videoRef := videoRef s; streams := streams s;
     pendingGetUserMedia := pendingGetUserMedia s;
     pendingVerification := pendingVerification s; posted := posted s;
     captures := n; clock := clock s; toasts := toasts s |}.

Definition set_clock (n : nat) (s : State) : State :=
  {| mounted := mounted s; props_id := props_id s;
     isChecking := isChecking s; isVerified := isVerified s;
     isCameraOpen := isCameraOpen s; capturedImage := capturedImage s;
     isWithinCollegeRadius := isWithinCollegeRadius s;
     videoRef := videoRef s; streams := streams s;
     pendingGetUserMedia := pendingGetUserMedia s;
     pendingVerification := pendingVerification s; posted := posted s;
     captures := captures s; clock := n; toasts := toasts s |}.

(** [toast({ title, ... })]: the titles shown so far, oldest first. *)
Definition toast (title : string) (s : State) : State :=
  {| mounted := mounted s; props_id := props_id s;
     isChecking := isChecking s; isVerified := isVerified s;
     isCameraOpen := isCameraOpen s; capturedImage := capturedImage s;
     isWithinCollegeRadius := isWithinCollegeRadius s;
     videoRef := videoRef s; streams := streams s;
     pendingGetUserMedia := pendingGetUserMedia s;
     pendingVerification := pendingVerification s; posted := posted s;
     captures := captures s; clock := clock s;
     toasts := toasts s ++ [title] |}.

(** JavaScript truthiness of [capturedImage] ([string | null]). *)
Definition truthy (c : option CapturedFrame) : bool :=
  match c with
  | Some f => negb (String.eqb (dataUrl f) "")
  | None => false
  end.

(** *** Handlers *)

(** [closeCamera]: when the video element exists and has a stream, stop
    each of its tracks and clear [srcObject]. *)
Definition closeCamera (s : State) : State :=
  match videoRef s with
  | Some video =>
      match srcObject video with
      | Some stream =>
          set_videoRef (Some {| srcObject := None |})
            (set_streams (alter (List.map track_stop) stream (streams s)) s)
      | None => s
      end
  | None => s
  end.

(** [openCamera], up to [await getUserMedia]. *)
Definition openCamera (s : State) : State :=
  let s := closeCamera s in
  let s := setIsCameraOpen true s in
  set_pendingGetUserMedia (S (pendingGetUserMedia s)) s.

(** [openCamera] resumed with the stream the browser created. *)
Definition openCamera_granted (stream : MediaStream) (s : State) : State :=
  let handle := length (streams s) in
  let s := set_streams (streams s ++ [stream]) s in
  let s := set_pendingGetUserMedia (pred (pendingGetUserMedia s)) s in
  match videoRef s with
  | Some _ => set_videoRef (Some {| srcObject := Some handle |}) s
  | None => s
  end.

(** [openCamera] resumed in its [catch]. *)
Definition openCamera_denied (s : State) : State :=
  let s := set_pendingGetUserMedia (pred (pendingGetUserMedia s)) s in
  let s := toast "Camera Error" s in
  closeCamera s.

(** [capturePhoto]; [videoWidth], [videoHeight] and the [picture] on the
    preview are read from the video element at the time of the call. *)
Definition capturePhoto (videoWidth videoHeight : nat) (picture : string)
  (s : State) : State :=
  match videoRef s with
  | Some _ =>
      let imageDataUrl := canvas_toDataURL videoWidth videoHeight picture in
      let s :=
        setCapturedImage
          (Some {| frameId := captures s; dataUrl := imageDataUrl |})
          (set_captures (S (captures s)) s) in
      closeCamera s
  | None => s
  end.

(** [retakePhoto] *)
Definition retakePhoto (s : State) : State :=
  openCamera (setCapturedImage None s).

(** [axios.post('http://localhost:8000/api/face-verification', {...})] *)
Definition axios_post (f : CapturedFrame) (imageData : option string)
  (s : State) : State :=
  let request :=
    {| url := "http://localhost:8000/api/face-verification";
       student_id := props_id s; image_data := imageData;
       frame := frameId f; sentAt := clock s;
       timeout := axios_defaults_timeout |} in
  set_posted (posted s ++ [request])
    (set_pendingVerification (pendingVerification s ++ [request]) s).

(** [handleAttendance], up to [await axios.post]. *)
Definition handleAttendance (s : State) : State :=
  let captured := capturedImage s in
  let s := setIsChecking true s in
  match captured with
  | Some f =>
      if truthy captured then
        let imageData := split_comma_1 (dataUrl f) in
        axios_post f imageData s
      else setIsChecking false (toast "No Image Captured" s)
  | None => setIsChecking false (toast "No Image Captured" s)
  end.

(** The [finally] block of [handleAttendance]. *)
Definition handleAttendance_finally (s : State) : State :=
  let s := setIsChecking false s in
  let s := setIsCameraOpen false s in
  let s := setCapturedImage None s in
  closeCamera s.

(** [handleAttendance] resumed with the response. *)
Definition handleAttendance_response (verified : bool) (s : State) : State :=
  let s := set_pendingVerification (tail (pendingVerification s)) s in
  let s := setIsVerified verified s in
  let s := closeCamera s in
  let s := setIsCameraOpen false s in
  let s := setCapturedImage None s in
  let s :=
    toast (if verified then "Attendance Verified"
           else "Attendance Not Verified") s in
  handleAttendance_finally s.

(** [handleAttendance] resumed in its [catch]. *)
Definition handleAttendance_error (s : State) : State :=
  let s := set_pendingVerification (tail (pendingVerification s)) s in
  let s := closeCamera s in
  let s := setIsCameraOpen false s in
  let s := setCapturedImage None s in
  let s := toast "Attendance Error" s in
  handleAttendance_finally s.

(** Time passing: the clock advances, and axios rejects the oldest
    request in flight once a non-zero [timeout] has run out. *)
Definition expired (now : nat) (r : VerificationRequest) : bool :=
  (0 <? timeout r)%nat && (sentAt r + timeout r <=? now)%nat.

Definition tick (ms : nat) (s : State) : State :=
  let s := set_clock (clock s + ms) s in
  match pendingVerification s with
  | r :: _ => if expired (clock s) r then handleAttendance_error s else s
  | [] => s
  end.

(** *** Rendering and events *)

(** What the JSX mounts: the dialog's content exists while
    [isCameraOpen], and in it the video element while no image is
    captured ([!capturedImage ? <video ref={videoRef}/> : <img/>]). React
    sets [videoRef.current] when the element mounts and clears it when
    the element unmounts; a newly mounted element has no stream. *)
Definition video_shown (s : State) : bool :=
  mounted s && isCameraOpen s && negb (truthy (capturedImage s)).

Definition render (s : State) : State :=
  if video_shown s then
    match videoRef s with
    | Some _ => s
    | None => set_videoRef (Some {| srcObject := None |}) s
    end
  else set_videoRef None s.

Inductive Event :=
| ClickTakeAttendance
| DialogDismiss
| ClickCapture (videoWidth videoHeight : nat) (picture : string)
| ClickRetake
| ClickSubmit
| CameraGranted (stream : MediaStream)
| CameraDenied
| VerificationResponse (verified : bool)
| VerificationError
| Tick (ms : nat)
| Unmount.

(** When an event can happen: a button must be on screen and not
    disabled, a promise must be pending to settle.
    - "Take Attendance": [disabled={false}];
    - the dialog and its buttons: shown while [isCameraOpen]; "Capture"
      while no image is captured, "Retake" and "Submit" otherwise;
    - "Submit": [disabled={isChecking}]. *)
Definition enabled (s : State) (e : Event) : bool :=
  match e with
  | ClickTakeAttendance => mounted s
  | DialogDismiss => mounted s && isCameraOpen s
  | ClickCapture _ _ _ =>
      mounted s && isCameraOpen s && negb (truthy (capturedImage s))
  | ClickRetake => mounted s && isCameraOpen s && truthy (capturedImage s)
  | ClickSubmit =>
      mounted s && isCameraOpen s && truthy (capturedImage s)
      && negb (isChecking s)
  | CameraGranted _ | CameraDenied => (0 <? pendingGetUserMedia s)%nat
  | VerificationResponse _ | VerificationError =>
      match pendingVerification s with [] => false | _ :: _ => true end
  | Tick _ => true
  | Unmount => mounted s
  end.

(** The handler an event runs. The dialog's [onOpenChange] is
    [setIsCameraOpen] itself; the component registers no cleanup for
    its unmounting. *)
Definition handle (e : Event) (s : State) : State :=
  match e with
  | ClickTakeAttendance => openCamera s
  | DialogDismiss => setIsCameraOpen false s
  | ClickCapture w h picture => capturePhoto w h picture s
  | ClickRetake => retakePhoto s
  | ClickSubmit => handleAttendance s
  | CameraGranted stream => openCamera_granted stream s
  | CameraDenied => openCamera_denied s
  | VerificationResponse verified => handleAttendance_response verified s
  | VerificationError => handleAttendance_error s
  | Tick ms => tick ms s
  | Unmount => set_mounted false s
  end.

Definition step (s : State) (e : Event) : State :=
  if enabled s e then render (handle e s) else s.

Definition run (s : State) (trace : list Event) : State :=
  fold_left step trace s.

(** *** The specification's view of the state *)

(** The tagged state of section 4.3, read off the flags. The terminal
    states Verified, Rejected and Failed only show as a toast: the
    continuation that reaches one acknowledges it at once. *)
Inductive Phase := Idle | CameraOpen | Captured | Submitting.

Definition phase (s : State) : Phase :=
  if isChecking s then Submitting
  else if isCameraOpen s then
    if truthy (capturedImage s) then Captured else CameraOpen
  else Idle.

(** No track of any stream the browser handed out is still live. *)
Definition camera_released (s : State) : bool :=
  forallb (forallb (fun t => negb (track_live t))) (streams s).

(** The stream attached to the preview, if any. *)
Definition attached (s : State) : option nat :=
  video ← videoRef s; srcObject video.

(** The frames sent for verification so far, oldest first. *)
Definition posted_frames (s : State) : list nat :=
  List.map frame (posted s).

(** The "verified today" effect, run when [studentData] changes:
    [if (studentData) setIsVerified(...)]. *)
Definition studentDataEffect (LocalTZA : Z -> Z)
  (Date_parse : string -> JSDate.TimeValue)
  (last_check_in : option string) (now : Z) (s : State) : State :=
  match last_check_in with
  | Some text =>
      setIsVerified (JSDate.verifiedToday LocalTZA Date_parse text now) s
  | None => s
  end.


(** *** Invariants of the flow *)

(** Every track of a stream has ended. *)
Definition stream_ended (st : MediaStream) : bool :=
  forallb (fun t => negb (track_live t)) st.

(** After a render the video element exists exactly when the JSX shows
    it. *)
Definition rendered (s : State) : Prop :=
  is_Some (videoRef s) <-> video_shown s = true.

(** The request [handleAttendance] posts for a frame. *)
Definition request_for (s : State) (f : CapturedFrame) : VerificationRequest :=
  {| url := "http://localhost:8000/api/face-verification";
     student_id := props_id s; image_data := split_comma_1 (dataUrl f);
     frame := frameId f; sentAt := clock s; timeout := 0 |}.

(** A step keeps the frames and requests (the held frame may be
    dropped), or captures a frame, or submits the held frame, or
    delivers the outcome of the oldest submission. *)
Inductive Effect (s : State) (e : Event) (s' : State) : Prop :=
| effect_none :
    posted s' = posted s ->
    pendingVerification s' = pendingVerification s ->
    captures s' = captures s ->
    isChecking s' = isChecking s ->
    capturedImage s' = capturedImage s \/ capturedImage s' = None ->
    Effect s e s'
| effect_capture dataUrl :
    posted s' = posted s ->
    pendingVerification s' = pendingVerification s ->
    captures s' = S (captures s) ->
    isChecking s' = isChecking s ->
    capturedImage s' = Some {| frameId := captures s; dataUrl := dataUrl |} ->
    Effect s e s'
| effect_submit f :
    e = ClickSubmit ->
    enabled s e = true ->
    capturedImage s = Some f ->
    isChecking s = false ->
    isCameraOpen s = true ->
    truthy (capturedImage s) = true ->
    posted s' = posted s ++ [request_for s f] ->
    pendingVerification s' = pendingVerification s ++ [request_for s f] ->
    captures s' = captures s ->
    isChecking s' = true ->
    capturedImage s' = Some f ->
    Effect s e s'
| effect_outcome :
    posted s' = posted s ->
    pendingVerification s' = tail (pendingVerification s) ->
    captures s' = captures s ->
    isChecking s' = false ->
    isCameraOpen s' = false ->
    capturedImage s' = None ->
    Effect s e s'.

(** Every request the component has in flight carries no timeout. *)
Definition no_timeouts (s : State) : Prop :=
  Forall (fun r => timeout r = 0) (pendingVerification s)
  /\ Forall (fun r => timeout r = 0) (posted s).

(** Frames are numbered as they are captured; a frame that has been
    posted is held only while its submission is in progress. *)
Definition fresh_frames (s : State) : Prop :=
  (forall n, n ∈ posted_frames s -> n < captures s)
  /\ (forall f, capturedImage s = Some f -> frameId f < captures s)
  /\ NoDup (posted_frames s)
  /\ (forall f, capturedImage s = Some f -> isChecking s = false ->
        frameId f ∉ posted_frames s).

(** At most one request is in flight at any time, and none while the
    checking flag is down. *)
Definition single_flight (s : State) : Prop :=
  length (pendingVerification s) <= 1
  /\ (isChecking s = false -> pendingVerification s = []).

(** *** Scenarios *)

Definition videoTrack : MediaStreamTrack :=
  {| kind := "video"; readyState := live |}.

(** The camera is opened and granted. *)
Definition camera_open : State :=
  run (init 7) [ClickTakeAttendance; CameraGranted [videoTrack]].

(** A submission is in flight and the dialog has been dismissed. *)
Definition submitting_dismissed : State :=
  run camera_open [ClickCapture 640 480 "AAAA"; ClickSubmit; DialogDismiss].

(** A frame is captured and submitted; the response is outstanding. *)
Definition awaiting_verification : State :=
  run camera_open [ClickCapture 640 480 "AAAA"; ClickSubmit].

End Dashboard.

(** ** The student dashboard: the camera pair, invariants, the rank *)

Module DashboardView.
Import Dashboard.

(** What [closeCamera], [openCamera] and [render] act on: the video
    element behind [videoRef] and the streams. *)
Definition camera_of (s : State)
  : option HTMLVideoElement * list MediaStream :=
  (videoRef s, streams s).

(** [closeCamera], on that pair alone. *)
Definition close_pair (c : option HTMLVideoElement * list MediaStream)
  : option HTMLVideoElement * list MediaStream :=
  match c.1 with
  | Some video =>
      match srcObject video with
      | Some stream =>
          (Some {| srcObject := None |},
           alter (List.map track_stop) stream c.2)
      | None => c
      end
  | None => c
  end.

(** The continuation of [openCamera] after a grant, on that pair. *)
Definition grant_pair (stream : MediaStream)
  (c : option HTMLVideoElement * list MediaStream)
  : option HTMLVideoElement * list MediaStream :=
  (match c.1 with
   | Some _ => Some {| srcObject := Some (length c.2) |}
   | None => None
   end,
   c.2 ++ [stream]).

(** What a handler leaves of the camera pair: it is untouched, or
    closed, or a granted stream is added to it. *)
Inductive CameraEffect (s s' : State) : Prop :=
| camera_kept : camera_of s' = camera_of s -> CameraEffect s s'
| camera_closed : camera_of s' = close_pair (camera_of s) -> CameraEffect s s'
| camera_granted stream :
    camera_of s' = grant_pair stream (camera_of s) -> CameraEffect s s'.

(** The stream a pair has on the preview. *)
Definition attached_pair (c : option HTMLVideoElement * list MediaStream)
  : option nat :=
  video ← c.1; srcObject video.

Fixpoint has_comma (s : string) : bool :=
  match s with
  | EmptyString => false
  | String c rest => Ascii.eqb c comma || has_comma rest
  end.

(** The titles of the toasts the flow can show once a submission is
    possible only with an image. *)
Definition flow_toasts : list string :=
  ["Camera Error"; "Attendance Verified"; "Attendance Not Verified";
   "Attendance Error"].

(** The checking flag is up exactly while a request is in flight, and
    there is at most one. *)
Definition checking_while_in_flight (s : State) : Prop :=
  length (pendingVerification s) <= 1
  /\ (isChecking s = true <-> pendingVerification s <> []).

(** A list of frame numbers that grows from left to right. *)
Definition ascending (l : list nat) : Prop :=
  forall i j a b, i < j -> l !! i = Some a -> l !! j = Some b -> a < b.

(** Requests are for the student of the component, go to the one
    endpoint, and their frames are older than any frame held and not yet
    submitted. *)
Definition requests_in_order (student : nat) (s : State) : Prop :=
  props_id s = student
  /\ Forall (fun r => student_id r = student
                      /\ url r = "http://localhost:8000/api/face-verification")
       (posted s)
  /\ ascending (posted_frames s)
  /\ (forall n, n ∈ posted_frames s -> n < captures s)
  /\ (forall f, capturedImage s = Some f -> frameId f < captures s)
  /\ (forall f n, capturedImage s = Some f -> isChecking s = false ->
        n ∈ posted_frames s -> n < frameId f).

(** The ordinal suffix of the class rank:
    [const j = rank % 10, k = rank % 100], and the tests on them. [%]
    is the remainder of the division truncated towards zero. *)
Definition suffix (rank : Z) : string :=
  let j := Z.rem rank 10 in
  let k := Z.rem rank 100 in
  if (j =? 1)%Z && negb (k =? 11)%Z then "st"
  else if (j =? 2)%Z && negb (k =? 12)%Z then "nd"
  else if (j =? 3)%Z && negb (k =? 13)%Z then "rd"
  else "th".

(** The English rule, by digits: ranks whose tens digit is 1 take "th";
    the others go by their last digit. *)
Definition ordinal_by_digits (rank : Z) : string :=
  let units := (rank mod 10)%Z in
  let tens := ((rank / 10) mod 10)%Z in
  if (tens =? 1)%Z then "th"
  else if (units =? 1)%Z then "st"
  else if (units =? 2)%Z then "nd"
  else if (units =? 3)%Z then "rd"
  else "th".

End DashboardView.

(** ** ISO dates: [date.toISOString().split("T")[0]] *)

Module IsoDate.
Import JSDate.
Local Open Scope Z_scope.

(** The character of a decimal digit. *)
Definition digitChar (d : Z) : ascii := ascii_of_nat (48 + Z.to_nat d).

(** A number below [10 ^ width] in decimal, padded with zeros on the
    left to [width] digits, as [toISOString] prints each of its
    fields; all its uses stay below that bound. *)
Fixpoint padded (width : nat) (n : Z) : string :=
  match width with
  | O => EmptyString
  | S w => padded w (n / 10) ++ String (digitChar (n mod 10)) EmptyString
  end.

(** Years 0 to 9999 print with four digits, the others with a sign and
    six. *)
Definition yearString (y : Z) : string :=
  if (0 <=? y) && (y <=? 9999) then padded 4 y
  else (if y <? 0 then "-" else "+") ++ padded 6 (Z.abs y).

(** The date part, from the day number: "YYYY-MM-DD". *)
Definition isoDate (d : Z) : string :=
  yearString (YearFromDay d) ++ "-" ++ padded 2 (MonthFromDay d + 1)
  ++ "-" ++ padded 2 (DateFromDay d).

(** The time part: "HH:mm:ss.sss". *)
Definition isoTime (t : Z) : string :=
  padded 2 ((t / 3600000) mod 24) ++ ":" ++ padded 2 ((t / 60000) mod 60)
  ++ ":" ++ padded 2 ((t / 1000) mod 60) ++ "." ++ padded 3 (t mod 1000).

(** [toISOString]: date and time in UTC. *)
Definition toISOString (t : Z) : string :=
  isoDate (Day t) ++ "T" ++ isoTime t ++ "Z".

(** [s.split(c)[0]]: the text before the first [c], all of [s] when it
    has none. *)
Fixpoint before_char (c : ascii) (s : string) : string :=
  match s with
  | EmptyString => EmptyString
  | String a rest =>
      if Ascii.eqb a c then EmptyString else String a (before_char c rest)
  end.

Fixpoint has_char (c : ascii) (s : string) : bool :=
  match s with
  | EmptyString => false
  | String a rest => Ascii.eqb a c || has_char c rest
  end.

(** [date.toISOString().split("T")[0]] *)
Definition isoDay (t : Z) : string := before_char "T" (toISOString t).

(** Days whose year prints with four digits. *)
Definition four_digit_year (d : Z) : Prop := 0 <= YearFromDay d <= 9999.

End IsoDate.

(** ** The attendance page: single updates, counts, the date filter *)

Module AttendancePage.
Import AdminApi.

Section Page.
Variable Backend : Type.
Variable serve_put :
  nat -> AttendanceStatus -> Backend -> Backend * Settled AxiosResponse.

(** [r.id === updated.id ? updated : r] *)
Definition replaceOne (updated r : Attendance) : Attendance :=
  if Nat.eqb (id r) (id updated) then updated else r.

(** [handleStatusChange]: one update; on success the page's records
    with the id of the returned record are replaced by it, on failure
    the page only logs the error. *)
Definition handleStatusChange (i : nat) (st : AttendanceStatus)
  (attendanceData : list Attendance) : Client Backend (list Attendance) :=
  bind Backend (updateAttendanceStatus Backend serve_put i st)
    (fun outcome =>
       ret Backend
         match outcome with
         | Fulfilled updated => List.map (replaceOne updated) attendanceData
         | Rejected _ => attendanceData
         end).

(** A backend that answers every PUT with a record of the id and the
    status it was asked for. *)
Definition answers_as_asked : Prop :=
  forall i st b,
    exists r, (serve_put i st b).2 = Fulfilled {| data := r |}
              /\ id r = i /\ status r = st.

End Page.

(** [attendanceStats]: [filteredAttendance.reduce((acc, record) =>
    { acc[record.status]++; return acc },
    { Present: 0, Absent: 0, Late: 0 })]. *)
Record Stats := { countPresent : nat; countAbsent : nat; countLate : nat }.

Definition countRecord (acc : Stats) (record : Attendance) : Stats :=
  match status record with
  | Present =>
      {| countPresent := S (countPresent acc); countAbsent := countAbsent acc;
         countLate := countLate acc |}
  | Absent =>
      {| countPresent := countPresent acc; countAbsent := S (countAbsent acc);
         countLate := countLate acc |}
  | Late =>
      {| countPresent := countPresent acc; countAbsent := countAbsent acc;
         countLate := S (countLate acc) |}
  end.

Definition attendanceStats (filteredAttendance : list Attendance) : Stats :=
  fold_left countRecord filteredAttendance
    {| countPresent := 0; countAbsent := 0; countLate := 0 |}.

(** How many records have a status. *)
Definition with_status (st : AttendanceStatus) (l : list Attendance) : nat :=
  length (List.filter (fun r => bool_decide (status r = st)) l).

(** [isDateMatch]:
    [record.date?.startsWith(selectedDate.toISOString().split("T")[0])];
    [selectedDate] is the time value of the date picked. *)
Definition isDateMatch (selectedDate : Z) (record : Attendance) : bool :=
  String.prefix (IsoDate.isoDay selectedDate) (date record).

(** The page's filter, with the class and search tests left open:
    [isClassMatch && isDateMatch && isSearchMatch]. *)
Definition pageFilter (isClassMatch isSearchMatch : Attendance -> bool)
  (selectedDate : Z) (record : Attendance) : bool :=
  isClassMatch record && isDateMatch selectedDate record
  && isSearchMatch record.

(** A backend that echoes: it stores nothing and answers every PUT with
    a record of the id and status asked for. *)
Definition echo_put (i : nat) (st : AttendanceStatus) (b : unit)
  : unit * Settled AxiosResponse :=
  (b, Fulfilled {| data := {| id := i; student := ""; status := st;
                              date := "" |} |}).

(** The records of the small backend, as the page holds them, with one
    the backend does not know. *)
Definition page_records : list Attendance :=
  [ {| id := 1; student := "Asha"; status := Absent; date := "2024-05-01" |};
    {| id := 99; student := "Chandra"; status := Absent;
       date := "2024-05-01" |};
    {| id := 2; student := "Bikash"; status := Absent;
       date := "2024-05-01" |} ].

End AttendancePage.

(** ** The classes page: add, update, delete *)

Module ClassesPage.
Import AdminApi.

(** [admin: number | Admin] *)
Inductive AdminRef :=
| AdminId (admin : nat)
| AdminObject (first_name last_name : string).

(** [interface Class] *)
Record Class := {
  class_id : nat;
  name : string;
  section : string;
  semester : string;
  year : Z;
  admin : AdminRef
}.

(** [handleAddClass], resumed with what [addClass] settled to:
    [setClasses((prev) => [...prev, addedClass])], or only a log. *)
Definition handleAddClass (response : Settled Class) (classes : list Class)
  : list Class :=
  match response with
  | Fulfilled addedClass => classes ++ [addedClass]
  | Rejected _ => classes
  end.

(** [handleUpdateClass], resumed with what [updateClass] settled to:
    [prev.map((c) => (c.class_id === updated.class_id ? updated : c))]. *)
Definition handleUpdateClass (response : Settled Class) (classes : list Class)
  : list Class :=
  match response with
  | Fulfilled updated =>
      List.map
        (fun c => if Nat.eqb (class_id c) (class_id updated) then updated
                  else c)
        classes
  | Rejected _ => classes
  end.

(** [handleDeleteClass], resumed with what [deleteClass] settled to:
    [prev.filter((c) => c.class_id !== classId)]. *)
Definition handleDeleteClass (response : Settled unit) (classId : nat)
  (classes : list Class) : list Class :=
  match response with
  | Fulfilled _ =>
      List.filter (fun c => negb (Nat.eqb (class_id c) classId)) classes
  | Rejected _ => classes
  end.

(** The ids on the page. *)
Definition class_ids (classes : list Class) : list nat :=
  List.map class_id classes.

End ClassesPage.

(* ===================================================================== *)
(** * Part II: properties                                                 *)
(* ===================================================================== *)

(** ** The distance formula over the real numbers *)

Module GeoFenceProofs.
Import GeoFence.
Local Open Scope R_scope.

Lemma deg2rad_minus x y : deg2rad (x - y) = deg2rad x - deg2rad y.
Proof. unfold deg2rad. ring. Qed.

Lemma haversine_a_hav lat1 lon1 lat2 lon2 :
  haversine_a lat1 lon1 lat2 lon2 =
  hav (deg2rad lat2 - deg2rad lat1)
  + cos (deg2rad lat1) * cos (deg2rad lat2)
    * hav (deg2rad lon2 - deg2rad lon1).
Proof.
  unfold haversine_a, hav, Rsqr. rewrite !deg2rad_minus. ring.
Qed.

End GeoFenceProofs.

(** ** The distance to the college, in doubles *)

Module GeoFence64Proofs.
Import Number GeoFence64.

#[local] Arguments fadd : simpl never.
#[local] Arguments fsub : simpl never.
#[local] Arguments fmul : simpl never.
#[local] Arguments fdiv : simpl never.
#[local] Arguments fsqrt : simpl never.
#[local] Arguments dec : simpl never.
#[local] Arguments deg2rad : simpl never.

(** Decimal literals denote the doubles they denote in JavaScript:
    0.1, [Math.PI] and the latitude of the college, bit for bit. *)
Example dec_literals :
  dec 1 1 = S754_finite false 7205759403792794 (-56)
  /\ Math_PI = S754_finite false 7074237752028440 (-51)
  /\ collegeLatitude = S754_finite false 7801016333550384 (-48)
  /\ dec 6371000 0 = S754_finite false 6840809160704000 (-30).
Proof. vm_compute. done. Qed.

(** The factor of [deg2rad]: [Math.PI / 180] is the double
    0.017453292519943295, and half a turn is [Math.PI] again. *)
Lemma deg2rad_factor deg :
  deg2rad deg = fmul deg (dec 17453292519943295 18).
Proof.
  unfold deg2rad.
  assert (fdiv Math_PI (dec 180 0) = dec 17453292519943295 18) as ->
    by (vm_compute; reflexivity).
  reflexivity.
Qed.

Lemma deg2rad_180 : deg2rad (dec 180 0) = Math_PI.
Proof. vm_compute. reflexivity. Qed.

(** The sampled library returns the samples and is as ECMAScript
    requires. *)
Lemma sampled_on_samples : on_samples sampled.
Proof.
  unfold on_samples, sin_samples, cos_samples, atan2_samples.
  repeat first [apply conj | apply List.Forall_cons | apply List.Forall_nil];
    vm_compute; reflexivity.
Defined.

Lemma sampled_ecmascript : ecmascript sampled.
Proof.
  split.
  - reflexivity.
  - intros y. cbn. now destruct y as [[]|[]| |[]].
  - intros x Hx. cbn. destruct x as [[]|[]| |[] m e]; try done.
Defined.

(** The square root of a negative number is NaN, and NaN spreads. *)
Lemma fsqrt_negative x : fltb x (S754_zero false) = true -> fsqrt x = NaN.
Proof. now destruct x as [[]|[]| |[] m e]. Qed.

Section Component.
Variable M : Math.
Hypothesis Hecma : ecmascript M.

(** Where [1 - a] comes out negative, because [a] is rounded to a
    double above 1, the distance is NaN. *)
Lemma getDistance_NaN lat1 lon1 lat2 lon2 :
  fltb (fsub (dec 1 0) (haversine_a M lat1 lon1 lat2 lon2)) (S754_zero false)
  = true ->
  getDistanceFromLatLonInMeters M lat1 lon1 lat2 lon2 = NaN.
Proof.
  intros Hneg. unfold getDistanceFromLatLonInMeters. cbv zeta.
  unfold Math_sqrt. rewrite (fsqrt_negative _ Hneg).
  rewrite (atan2_NaN M Hecma). reflexivity.
Qed.

End Component.

(** Reading the samples off [on_samples], and running a call of the
    distance on them: the arguments of [Math.sin] and [Math.cos] are
    computed, the samples give their values, then the arguments of
    [Math.atan2] are computed. *)
Ltac computed_in E x :=
  let x' := eval vm_compute in x in
  replace x with x' in E by (vm_compute; reflexivity).

Ltac sample E :=
  cbv beta in E; cbn [fst snd] in E;
  match type of E with
  | Math_atan2 _ ?y ?x = ?v =>
      computed_in E y; computed_in E x; computed_in E v
  | _ ?x = ?v => computed_in E x; computed_in E v
  end.

Ltac samples H :=
  let Hsin := fresh "Hsin" in
  let Hcos := fresh "Hcos" in
  let Hatan := fresh "Hatan" in
  destruct H as (Hsin & Hcos & Hatan);
  unfold sin_samples in Hsin; unfold cos_samples in Hcos;
  unfold atan2_samples in Hatan;
  repeat match goal with
  | H : Forall _ (_ :: _) |- _ =>
      let E := fresh "E" in
      apply List.Forall_cons_iff in H as [E H]; sample E
  end.

Ltac computed x :=
  let x' := eval vm_compute in x in
  progress (replace x with x' by (vm_compute; reflexivity)).

Ltac sampled_call :=
  match goal with
  | |- context [Math_sin ?M ?x] => computed x
  | |- context [Math_cos ?M ?x] => computed x
  | E : Math_sin ?M ?x = _ |- context [Math_sin ?M ?x] => rewrite E
  | E : Math_cos ?M ?x = _ |- context [Math_cos ?M ?x] => rewrite E
  end.

Ltac sampled_atan2 :=
  match goal with
  | |- context [Math_atan2 ?M ?y ?x] =>
      first [computed y | computed x]
  | E : Math_atan2 ?M ?y ?x = _ |- context [Math_atan2 ?M ?y ?x] => rewrite E
  end.

Ltac run_distance Hecma :=
  unfold onPosition, getDistanceFromLatLonInMeters, haversine_a; cbv zeta;
  repeat sampled_call; rewrite ?(sin_zero _ Hecma); repeat sampled_atan2.










End GeoFence64Proofs.

(** ** Dates: the "verified today" comparison *)

Module JSDateProofs.
Import JSDate.
Local Open Scope Z_scope.

(** [YearFromDay] is ECMAScript's [YearFromTime]: the one year whose
    first day is not after [d] and whose successor's first day is. *)
Lemma YearFromDay_spec d :
  DayFromYear (YearFromDay d) <= d < DayFromYear (YearFromDay d + 1).
Proof.
  unfold DayFromYear, YearFromDay. cbv zeta.
  Z.to_euclidean_division_equations. lia.
Qed.

Lemma DaysInYear_spec y :
  DayFromYear (y + 1) - DayFromYear y = DaysInYear y.
Proof.
  unfold DayFromYear, DaysInYear.
  destruct (Z.eqb_spec (y mod 4) 0), (Z.eqb_spec (y mod 100) 0),
    (Z.eqb_spec (y mod 400) 0); cbn;
    Z.to_euclidean_division_equations; lia.
Qed.

Lemma DayWithinYear_range d :
  0 <= DayWithinYear d < 365 + InLeapYear d.
Proof.
  unfold DayWithinYear, InLeapYear.
  pose proof (YearFromDay_spec d) as Hy.
  pose proof (DaysInYear_spec (YearFromDay d)) as Hn.
  assert (DaysInYear (YearFromDay d) = 365 \/ DaysInYear (YearFromDay d) = 366)
    as [Hd | Hd].
  { unfold DaysInYear. repeat case_match; auto. }
  - rewrite Hd in *. cbn. lia.
  - rewrite Hd in *. cbn. lia.
Qed.

Lemma InLeapYear_range d : InLeapYear d = 0 \/ InLeapYear d = 1.
Proof. unfold InLeapYear. case_match; auto. Qed.

(** The month and the day of the month are those of a calendar. *)
Lemma MonthFromDay_range d : 0 <= MonthFromDay d <= 11.
Proof. unfold MonthFromDay. cbv zeta. repeat case_match; lia. Qed.

Lemma DateFromDay_range d : 1 <= DateFromDay d <= 31.
Proof.
  unfold DateFromDay, MonthFromDay. cbv zeta.
  pose proof (DayWithinYear_range d) as Hw.
  destruct (InLeapYear_range d) as [Hl | Hl]; rewrite Hl in *;
    repeat (case_match; try (cbn; lia)).
Qed.

(** The year, month and day of the month determine the day. *)
Lemma civil_date_injective d1 d2 :
  YearFromDay d1 = YearFromDay d2 ->
  MonthFromDay d1 = MonthFromDay d2 ->
  DateFromDay d1 = DateFromDay d2 ->
  d1 = d2.
Proof.
  intros Hy Hm Hd. unfold DateFromDay in Hd.
  assert (InLeapYear d1 = InLeapYear d2) as Hl
    by (unfold InLeapYear; now rewrite Hy).
  rewrite Hm, Hl in Hd. unfold DayWithinYear in Hd. rewrite Hy in Hd. lia.
Qed.

Section LocalTime.
Variable LocalTZA : Z -> Z.
Variable Date_parse : string -> TimeValue.

(** Two valid dates print the same date string exactly when they fall
    on the same local calendar day. *)
Lemma toDateString_same_day t1 t2 :
  toDateString LocalTZA (Some t1) = toDateString LocalTZA (Some t2)
  <-> localDay LocalTZA t1 = localDay LocalTZA t2.
Proof.
  cbn. split.
  - intros H. injection H as _ Hm Hd Hy. now apply civil_date_injective.
  - now intros ->.
Qed.

Lemma verifiedToday_spec last_check_in now :
  verifiedToday LocalTZA Date_parse last_check_in now = true
  <-> exists t, Date_parse last_check_in = Some t
             /\ localDay LocalTZA t = localDay LocalTZA now.
Proof.
  unfold verifiedToday. rewrite bool_decide_eq_true.
  destruct (Date_parse last_check_in) as [t|].
  - rewrite toDateString_same_day. split.
    + intros H. now exists t.
    + intros (t' & [= <-] & H). exact H.
  - split; [discriminate|]. intros (t & [=] & _).
Qed.

End LocalTime.

Example toDateString_epoch :
  toDateString (fun _ => 0) (Some 0) = DateTokens 4 0 1 1970.
Proof. reflexivity. Qed.

Example toDateString_may_1 :
  toDateString kathmandu (Some may_1_1000_local) = DateTokens 3 4 1 2024.
Proof. vm_compute. reflexivity. Qed.

(** Same local day, different UTC days: verified. *)
Example same_local_day_across_utc_days :
  Day may_1_0030_local <> Day may_1_1000_local
  /\ verifiedToday kathmandu (fun _ => Some may_1_0030_local) "text"
       may_1_1000_local = true.
Proof. split; [vm_compute; discriminate | vm_compute; reflexivity]. Qed.

(** One hour apart, across local midnight: not verified. *)
Example one_hour_apart_across_midnight :
  may_1_0030_local - apr_30_2330_local = 3600000
  /\ verifiedToday kathmandu (fun _ => Some apr_30_2330_local) "text"
       may_1_0030_local = false.
Proof. split; vm_compute; reflexivity. Qed.

(** An unparsable [last_check_in]: not verified. *)
Example invalid_date_not_verified now :
  verifiedToday kathmandu (fun _ => None) "not a date" now = false.
Proof. reflexivity. Qed.

End JSDateProofs.

(** ** Attendance ledger *)

Module LedgerProofs.
Import Ledger.

Lemma records_for_app sid day (t1 t2 : Table) :
  records_for sid day (t1 ++ t2)
  = records_for sid day t1 + records_for sid day t2.
Proof.
  unfold records_for. now rewrite List.filter_app, length_app.
Qed.

Lemma lookup_record_none sid day (t : Table) :
  lookup_record sid day t = None <-> records_for sid day t = 0.
Proof.
  unfold lookup_record, records_for.
  induction t as [|r t IH]; cbn; [done|].
  destruct (has_key sid day r); cbn; [split; discriminate | exact IH].
Qed.

Lemma lookup_record_some sid day (t : Table) r :
  lookup_record sid day t = Some r ->
  has_key sid day r = true /\ 0 < records_for sid day t.
Proof.
  unfold lookup_record, records_for. intros H.
  induction t as [|r' t IH]; cbn in *; [discriminate|].
  destruct (has_key sid day r') eqn:Hk; cbn.
  - injection H as ->. split; [exact Hk | lia].
  - apply IH, H.
Qed.

Lemma lookup_record_app_none sid day (t : Table) r :
  lookup_record sid day t = None ->
  has_key sid day r = true ->
  lookup_record sid day (t ++ [r]) = Some r.
Proof.
  unfold lookup_record. intros Hnone Hk.
  induction t as [|r' t IH]; cbn in *.
  - now rewrite Hk.
  - destruct (has_key sid day r'); [discriminate | auto].
Qed.

Lemma has_key_created sid day st now :
  has_key sid day
    {| studentId := sid; date := day; status := st; recordedAt := now |}
  = true.
Proof. unfold has_key. now apply bool_decide_eq_true. Qed.

Section Upsert.
Variable statusAt : nat -> Status.

(** After a call the record it returned is the one the ledger finds. *)
Lemma recordVerifiedCheckIn_lookup sid day now (t : Table) :
  lookup_record sid day (recordVerifiedCheckIn statusAt sid day now t).1
  = Some (recordVerifiedCheckIn statusAt sid day now t).2.
Proof.
  unfold recordVerifiedCheckIn.
  destruct (lookup_record sid day t) as [r|] eqn:Hl; cbn.
  - exact Hl.
  - apply lookup_record_app_none; [exact Hl | apply has_key_created].
Qed.

(** Once the record exists, further calls change nothing and return it. *)
Lemma repeatedCheckIn_existing sid day nows (t : Table) r :
  lookup_record sid day t = Some r ->
  repeatedCheckIn statusAt sid day nows t = (t, replicate (length nows) r).
Proof.
  intros Hl. induction nows as [|now later IH]; cbn; [done|].
  unfold recordVerifiedCheckIn. rewrite Hl, IH. reflexivity.
Qed.

Lemma recordVerifiedCheckIn_count sid day now (t : Table) :
  records_for sid day (recordVerifiedCheckIn statusAt sid day now t).1
  = Nat.max 1 (records_for sid day t).
Proof.
  unfold recordVerifiedCheckIn.
  destruct (lookup_record sid day t) as [r|] eqn:Hl; cbn [fst snd].
  - apply lookup_record_some in Hl as [_ Hpos]. lia.
  - apply lookup_record_none in Hl. rewrite records_for_app, Hl.
    unfold records_for. cbn [List.filter]. now rewrite has_key_created.
Qed.

Lemma recordVerifiedCheckIn_other_key sid day now (t : Table) sid' day' :
  (sid', day') <> (sid, day) ->
  records_for sid' day' (recordVerifiedCheckIn statusAt sid day now t).1
  = records_for sid' day' t.
Proof.
  intros Hne. unfold recordVerifiedCheckIn.
  destruct (lookup_record sid day t) as [r|]; cbn [fst snd]; [done|].
  rewrite records_for_app. unfold records_for at 2. cbn [List.filter].
  unfold has_key. cbn [studentId date].
  rewrite bool_decide_eq_false_2; [cbn; lia|].
  intros [-> ->]. now apply Hne.
Qed.

(** The ledger's invariant survives a check-in. *)
Lemma recordVerifiedCheckIn_unique sid day now (t : Table) :
  unique_keys t -> unique_keys (recordVerifiedCheckIn statusAt sid day now t).1.
Proof.
  intros Hu sid' day'.
  destruct (decide ((sid', day') = (sid, day))) as [[= -> ->] | Hne].
  - rewrite recordVerifiedCheckIn_count. specialize (Hu sid day). lia.
  - rewrite recordVerifiedCheckIn_other_key by exact Hne. apply Hu.
Qed.

(** C1. On a ledger with at most one record per (studentId, date), N
    calls of [recordVerifiedCheckIn] with the same arguments (the first
    at [now], the others at the times [later]) leave exactly one
    persisted record for the pair; every call returns the record the
    first call returned, so with the first call's [recordedAt], and the
    calls after the first leave the ledger as the first left it. Every
    call returns a record: none is an error. *)
Theorem recordVerifiedCheckIn_idempotent
  (sid day : string) (now : nat) (later : list nat) (t : Table) :
  unique_keys t ->
  let first := recordVerifiedCheckIn statusAt sid day now t in
  let all := repeatedCheckIn statusAt sid day (now :: later) t in
  records_for sid day all.1 = 1
  /\ unique_keys all.1
  /\ all.1 = first.1
  /\ all.2 = replicate (S (length later)) first.2
  /\ Forall (fun r => recordedAt r = recordedAt first.2) all.2.
Proof.
  intros Hu first all.
  assert (all = (first.1, replicate (S (length later)) first.2)) as ->.
  { subst all first. cbn [repeatedCheckIn].
    destruct (recordVerifiedCheckIn statusAt sid day now t) as [t1 r1] eqn:Hfirst.
    assert (lookup_record sid day t1 = Some r1) as Hl.
    { pose proof (recordVerifiedCheckIn_lookup sid day now t) as H.
      now rewrite Hfirst in H. }
    now rewrite (repeatedCheckIn_existing _ _ _ _ _ Hl). }
  cbn [fst snd]. subst first. repeat split.
  - rewrite recordVerifiedCheckIn_count. specialize (Hu sid day). lia.
  - now apply recordVerifiedCheckIn_unique.
  - now apply Forall_replicate.
Qed.

End Upsert.

Lemma recordVerifiedCheckIn_idempotent_witness :
  unique_keys []
  /\ records_for "S1" "2024-05-01"
       (repeatedCheckIn (fun _ => Present) "S1" "2024-05-01" [10; 20; 30]
          []).1 = 1
  /\ (repeatedCheckIn (fun _ => Present) "S1" "2024-05-01" [10; 20; 30]
        []).2
     = replicate 3
         {| studentId := "S1"; date := "2024-05-01"; status := Present;
            recordedAt := 10 |}.
Proof.
  assert (unique_keys []) as Hu by (intros sid day; cbn; lia).
  split; [exact Hu|].
  pose proof (recordVerifiedCheckIn_idempotent (fun _ => Present)
                "S1" "2024-05-01" 10 [20; 30] [] Hu)
    as (Hone & _ & _ & Hall & _).
  split; [exact Hone | exact Hall].
Defined.

(** A second verified check-in of the same day, later: the record of the
    first, nothing added. *)
Example second_check_in_is_a_no_op :
  let t1 := (recordVerifiedCheckIn (fun _ => Present) "S1" "2024-05-01" 10
               []).1 in
  recordVerifiedCheckIn (fun _ => Late) "S1" "2024-05-01" 99 t1
  = (t1, {| studentId := "S1"; date := "2024-05-01"; status := Present;
            recordedAt := 10 |}).
Proof. reflexivity. Qed.

End LedgerProofs.

(** ** Admin API client: the run that answers every request at once *)

Module AdminApiProofs.
Import AdminApi.

Section Client.
Variable Backend : Type.
Variable serve_put :
  nat -> AttendanceStatus -> Backend -> Backend * Settled AxiosResponse.

Abbreviation update := (updateAttendanceStatus Backend serve_put).
Abbreviation bulk := (bulkUpdateAttendance Backend serve_put).
Abbreviation sequential := (sequential_updates Backend serve_put).

Lemma mapM_sequential ids st (w : World Backend) :
  mapM Backend (fun i => update i st) ids w = sequential ids st w.
Proof.
  revert w. induction ids as [|i rest IH]; intros w; [done|].
  cbn [mapM sequential_updates]. unfold bind at 1.
  destruct (update i st w) as [r w1]. unfold bind at 1. rewrite IH.
  destruct (sequential rest st w1) as [rs w2]. done.
Qed.

End Client.

End AdminApiProofs.

(** ** The student dashboard's check-in flow *)

Module DashboardProofs.
Import Dashboard.

(** [closeCamera] touches the video element and the streams, [render]
    the video element, and neither anything else: what does not read
    those fields reads the same before and after. *)
Lemma closeCamera_frame {A : Type} (f : State -> A) :
  (forall v l s, f (set_videoRef v (set_streams l s)) = f s) ->
  forall s, f (closeCamera s) = f s.
Proof.
  intros Hf s. unfold closeCamera.
  destruct (videoRef s) as [[[i|]]|]; cbn; [apply Hf | done | done].
Qed.

Lemma render_frame {A : Type} (f : State -> A) :
  (forall v s, f (set_videoRef v s) = f s) ->
  forall s, f (render s) = f s.
Proof.
  intros Hf s. unfold render.
  destruct (video_shown s); [destruct (videoRef s)|]; (done || apply Hf).
Qed.

Ltac frame_step :=
  match goal with
  | |- context [?f (closeCamera ?s)] =>
      rewrite (closeCamera_frame f (fun _ _ _ => eq_refl) s)
  | |- context [?f (render ?s)] =>
      rewrite (render_frame f (fun _ _ => eq_refl) s)
  end.

(** Reading a field through the handlers, [closeCamera] and [render]. *)
Ltac frame :=
  repeat (progress
    (unfold handle, openCamera, openCamera_denied, retakePhoto,
       handleAttendance_response, handleAttendance_error,
       handleAttendance_finally, axios_post;
     cbn; repeat frame_step)).

Lemma run_snoc s trace e : run s (trace ++ [e]) = step (run s trace) e.
Proof. unfold run. now rewrite fold_left_app. Qed.

(** A property of the initial state that every step keeps holds after
    every trace. *)
Lemma run_invariant (P : State -> Prop) student :
  P (init student) ->
  (forall s e, P s -> P (step s e)) ->
  forall trace, P (run (init student) trace).
Proof.
  intros Hinit Hstep trace.
  induction trace as [|e trace IH] using rev_ind; [exact Hinit|].
  rewrite run_snoc. now apply Hstep.
Qed.

(** *** Closing the camera *)

Lemma stopped_stream_ended (st : MediaStream) :
  stream_ended (List.map track_stop st) = true.
Proof. induction st as [|t st IH]; [done|]. cbn. exact IH. Qed.

Lemma closeCamera_attached s : attached (closeCamera s) = None.
Proof.
  unfold closeCamera, attached.
  destruct (videoRef s) as [[[i|]]|] eqn:Hv; cbn; [done| |]; now rewrite Hv.
Qed.

Lemma closeCamera_not_attached s : attached s = None -> closeCamera s = s.
Proof.
  unfold closeCamera, attached. destruct (videoRef s) as [[[i|]]|]; cbn; done.
Qed.

(** Closing twice is closing once. *)
Lemma closeCamera_idempotent s : closeCamera (closeCamera s) = closeCamera s.
Proof. apply closeCamera_not_attached, closeCamera_attached. Qed.

(** It stops every track of the stream on the preview. *)
Lemma closeCamera_stops s i (st : MediaStream) :
  attached s = Some i ->
  streams s !! i = Some st ->
  streams (closeCamera s) !! i = Some (List.map track_stop st).
Proof.
  unfold closeCamera, attached. intros Ha Hs.
  destruct (videoRef s) as [[[j|]]|]; cbn in Ha; try discriminate.
  injection Ha as ->. cbn [streams srcObject set_videoRef set_streams].
  now rewrite list_lookup_alter_eq, Hs.
Qed.

Lemma closeCamera_releases s i (st : MediaStream) :
  attached s = Some i ->
  streams s !! i = Some st ->
  exists st', streams (closeCamera s) !! i = Some st'
              /\ stream_ended st' = true.
Proof.
  intros Ha Hs. exists (List.map track_stop st).
  split; [now apply closeCamera_stops | apply stopped_stream_ended].
Qed.

(** It leaves the streams that are not on the preview as they are:
    a stream that lost its video element is out of its reach. *)
Lemma closeCamera_elsewhere s j :
  attached s <> Some j -> streams (closeCamera s) !! j = streams s !! j.
Proof.
  unfold closeCamera, attached. intros Ha.
  destruct (videoRef s) as [[[i|]]|]; cbn in Ha; try done.
  cbn [streams srcObject set_videoRef set_streams].
  apply list_lookup_alter_ne. congruence.
Qed.

(** *** C2: the camera on the exit paths *)

Example camera_open_state :
  phase camera_open = CameraOpen
  /\ attached camera_open = Some 0
  /\ streams camera_open = [[videoTrack]].
Proof. done. Qed.

(** The paths that call [closeCamera] release the camera: capture, and
    with it every submission that follows, whatever its outcome. *)
Example capture_releases_camera :
  camera_released (step camera_open (ClickCapture 640 480 "AAAA")) = true.
Proof. reflexivity. Qed.

Example verified_flow_releases_camera :
  let s := run camera_open
             [ClickCapture 640 480 "AAAA"; ClickSubmit;
              VerificationResponse true] in
  phase s = Idle /\ camera_released s = true /\ capturedImage s = None.
Proof. done. Qed.

Example failed_flow_releases_camera :
  let s := run camera_open
             [ClickCapture 640 480 "AAAA"; ClickSubmit; VerificationError] in
  phase s = Idle /\ camera_released s = true /\ capturedImage s = None.
Proof. done. Qed.

Example denied_camera_holds_none :
  camera_released (run (init 7) [ClickTakeAttendance; CameraDenied]) = true.
Proof. reflexivity. Qed.

(** C2. The claim is that the camera is released on every exit path
    before the flow is back in Idle. Closing the dialog while the camera
    is open is an exit path on which it is not: [onOpenChange] is
    [setIsCameraOpen], which does not call [closeCamera]. After start,
    grant and dismissal the flow is Idle, the video element is gone, and
    the stream's only track is still live. *)
Theorem dismissed_dialog_leaves_camera_live :
  enabled camera_open DialogDismiss = true
  /\ phase (step camera_open DialogDismiss) = Idle
  /\ videoRef (step camera_open DialogDismiss) = None
  /\ streams (step camera_open DialogDismiss) = [[videoTrack]]
  /\ camera_released (step camera_open DialogDismiss) = false.
Proof. done. Qed.

(** In any state, dismissing the dialog stops no track: whatever was
    live stays live, and the video element that held it unmounts. *)
Lemma dialog_dismiss_stops_no_track s :
  streams (step s DialogDismiss) = streams s
  /\ (enabled s DialogDismiss = true -> videoRef (step s DialogDismiss) = None).
Proof.
  unfold step. destruct (enabled s DialogDismiss); [|done].
  split; [now frame|]. intros _. unfold render, video_shown. cbn.
  now rewrite andb_false_r.
Qed.

(** The same on teardown: the component registers no cleanup. *)
Lemma unmount_leaves_camera_live :
  mounted (step camera_open Unmount) = false
  /\ streams (step camera_open Unmount) = [[videoTrack]]
  /\ camera_released (step camera_open Unmount) = false.
Proof. done. Qed.

(** Once dismissed, no later [closeCamera] reaches the stream: a new
    start opens a second stream and leaves the first one live. *)
Lemma dismissed_stream_stays_live :
  let s := run camera_open
             [DialogDismiss; ClickTakeAttendance; CameraGranted [videoTrack];
              ClickCapture 640 480 "AAAA"; ClickSubmit;
              VerificationResponse true] in
  phase s = Idle
  /\ streams s = [[videoTrack]; [track_stop videoTrack]].
Proof. done. Qed.

(** *** C7: a start while the flow is not Idle *)

(** C7. A start while the flow is Submitting is not ignored. With a
    request in flight and the dialog dismissed, the button is enabled
    ([disabled] is [false], the guard on [isChecking] being commented
    out): the click changes the state, opens the dialog again and
    requests a second camera stream next to the request in flight. *)
Lemma start_while_submitting_is_not_ignored :
  phase submitting_dismissed = Submitting
  /\ enabled submitting_dismissed ClickTakeAttendance = true
  /\ step submitting_dismissed ClickTakeAttendance <> submitting_dismissed
  /\ isCameraOpen submitting_dismissed = false
  /\ isCameraOpen (step submitting_dismissed ClickTakeAttendance) = true
  /\ pendingGetUserMedia (step submitting_dismissed ClickTakeAttendance) = 1
  /\ length (pendingVerification
               (step submitting_dismissed ClickTakeAttendance)) = 1.
Proof.
  repeat split; try (vm_compute; reflexivity).
  intros H. apply (f_equal isCameraOpen) in H. vm_compute in H. discriminate.
Qed.

(** A start with the camera open restarts the camera: the stream on the
    preview is stopped and another one requested. *)
Lemma start_while_camera_open_restarts :
  phase camera_open = CameraOpen
  /\ streams (step camera_open ClickTakeAttendance) = [[track_stop videoTrack]]
  /\ pendingGetUserMedia (step camera_open ClickTakeAttendance) = 1.
Proof. done. Qed.

Lemma openCamera_attached s : attached (openCamera s) = None.
Proof.
  unfold openCamera. cbv zeta.
  pose proof (closeCamera_attached s) as H. unfold attached in *.
  cbn. exact H.
Qed.

Lemma render_attached s : attached s = None -> attached (render s) = None.
Proof.
  unfold render, attached. intros H.
  destruct (video_shown s); [|done].
  destruct (videoRef s) eqn:Hv; [now rewrite Hv | done].
Qed.

Lemma render_lookup_streams s j : streams (render s) !! j = streams s !! j.
Proof. now frame_step. Qed.

(** While the component is mounted a start is ignored in no state,
    Idle or not: [openCamera] runs at once.
    It stops the tracks of the stream on the preview, if there is one,
    and detaches it, opens the dialog and requests one more camera
    stream; the captured frame, the checking flag and the requests in
    flight stay as they are. *)
Theorem start_is_never_ignored (s : State) :
  mounted s = true ->
  enabled s ClickTakeAttendance = true
  /\ isCameraOpen (step s ClickTakeAttendance) = true
  /\ pendingGetUserMedia (step s ClickTakeAttendance)
     = S (pendingGetUserMedia s)
  /\ attached (step s ClickTakeAttendance) = None
  /\ (forall i (st : MediaStream),
        attached s = Some i -> streams s !! i = Some st ->
        streams (step s ClickTakeAttendance) !! i
        = Some (List.map track_stop st))
  /\ capturedImage (step s ClickTakeAttendance) = capturedImage s
  /\ isChecking (step s ClickTakeAttendance) = isChecking s
  /\ pendingVerification (step s ClickTakeAttendance) = pendingVerification s
  /\ posted (step s ClickTakeAttendance) = posted s.
Proof.
  intros Hm. unfold step. cbn [enabled handle]. rewrite Hm.
  split; [reflexivity|]. unfold openCamera. cbv zeta.
  repeat split; try (frame; reflexivity).
  - apply render_attached. apply (openCamera_attached s).
  - intros i st Ha Hs. rewrite render_lookup_streams. cbn.
    now apply closeCamera_stops.
Qed.

Lemma start_is_never_ignored_witness :
  mounted camera_open = true
  /\ isCameraOpen (step camera_open ClickTakeAttendance) = true
  /\ pendingGetUserMedia (step camera_open ClickTakeAttendance) = 1
  /\ attached (step camera_open ClickTakeAttendance) = None.
Proof.
  split; [reflexivity|].
  pose proof (start_is_never_ignored camera_open eq_refl)
    as (_ & Hopen & Hpending & Hattached & _).
  split; [exact Hopen|]. split; [exact Hpending | exact Hattached].
Defined.

(** *** C6: capturing before the preview has dimensions *)

Lemma video_shown_render s : video_shown (render s) = video_shown s.
Proof. unfold video_shown. now repeat frame_step. Qed.

Lemma render_rendered s : rendered (render s).
Proof.
  unfold rendered. rewrite video_shown_render. unfold render.
  destruct (video_shown s) eqn:Hshown.
  - destruct (videoRef s) eqn:Hv; cbn; [rewrite Hv|]; split; eauto.
  - cbn. split; [intros [? [=]] | discriminate].
Qed.

Lemma step_rendered s e : rendered s -> rendered (step s e).
Proof.
  intros H. unfold step. destruct (enabled s e); [apply render_rendered | exact H].
Qed.

Lemma reachable_rendered student trace : rendered (run (init student) trace).
Proof.
  apply run_invariant; [|intros s e; apply step_rendered].
  unfold rendered. cbn. split; [intros [? [=]] | discriminate].
Qed.

(** On a rendered state, rendering again changes nothing. *)
Lemma render_fixed s : rendered s -> render s = s.
Proof.
  unfold rendered, render. intros [H1 H2].
  destruct (video_shown s).
  - destruct H2 as [v Hv]; [done|]. now rewrite Hv.
  - destruct (videoRef s) as [v|] eqn:Hv.
    + discriminate H1. now exists v.
    + destruct s; cbn in *. now subst.
Qed.

(** C6, as stated, fails: with the camera open and the preview still
    0 x 0, a capture raises no NotReady error; it stores the degenerate
    frame "data:," and the flow moves on to Captured, from where that
    frame can be submitted. *)
Lemma capture_of_empty_preview_yields_frame :
  enabled camera_open (ClickCapture 0 0 "") = true
  /\ capturedImage (step camera_open (ClickCapture 0 0 ""))
     = Some {| frameId := 0; dataUrl := "data:," |}
  /\ toasts (step camera_open (ClickCapture 0 0 "")) = []
  /\ phase (step camera_open (ClickCapture 0 0 "")) = Captured
  /\ enabled (step camera_open (ClickCapture 0 0 "")) ClickSubmit = true.
Proof. done. Qed.

Lemma canvas_toDataURL_empty w h picture :
  w = 0 \/ h = 0 -> canvas_toDataURL w h picture = "data:,".
Proof.
  unfold canvas_toDataURL. intros [-> | ->]; [done|].
  now rewrite orb_true_r.
Qed.

(** C6, amended. [capturePhoto] checks no readiness: whenever the
    Capture button can be pressed and the preview has zero width or
    height, it raises no error and stores a frame all the same, the
    degenerate data URL "data:,", which counts as a captured image. *)
Theorem capture_without_readiness_check
  (student : nat) (trace : list Event) (w h : nat) (picture : string) :
  let s := run (init student) trace in
  enabled s (ClickCapture w h picture) = true ->
  w = 0 \/ h = 0 ->
  capturedImage (step s (ClickCapture w h picture))
  = Some {| frameId := captures s; dataUrl := "data:," |}
  /\ truthy (capturedImage (step s (ClickCapture w h picture))) = true
  /\ toasts (step s (ClickCapture w h picture)) = toasts s.
Proof.
  intros s Hen Hzero.
  assert (is_Some (videoRef s)) as [v Hv].
  { apply (reachable_rendered student trace). exact Hen. }
  unfold step. rewrite Hen. cbn [handle]. unfold capturePhoto.
  rewrite Hv, (canvas_toDataURL_empty _ _ _ Hzero).
  repeat split; frame; reflexivity.
Qed.

Lemma capture_without_readiness_check_witness :
  enabled (run (init 7) [ClickTakeAttendance; CameraGranted [videoTrack]])
    (ClickCapture 0 480 "") = true
  /\ capturedImage
       (step (run (init 7) [ClickTakeAttendance; CameraGranted [videoTrack]])
          (ClickCapture 0 480 ""))
     = Some {| frameId := 0; dataUrl := "data:," |}.
Proof.
  split; [reflexivity|].
  exact (proj1 (capture_without_readiness_check 7
                  [ClickTakeAttendance; CameraGranted [videoTrack]]
                  0 480 "" eq_refl (or_introl eq_refl))).
Defined.

(** *** What each handler does to the requests *)

#[local] Arguments closeCamera : simpl never.
#[local] Arguments render : simpl never.

Lemma submit_enabled s :
  enabled s ClickSubmit = true ->
  isChecking s = false /\ isCameraOpen s = true
  /\ exists f, capturedImage s = Some f /\ truthy (capturedImage s) = true.
Proof.
  cbn. rewrite !andb_true_iff, negb_true_iff.
  intros [[[_ Hopen] Htruthy] Hchecking]. repeat split; try done.
  destruct (capturedImage s) as [f|]; [now exists f | discriminate].
Qed.

Lemma handleAttendance_posts s f :
  capturedImage s = Some f ->
  truthy (capturedImage s) = true ->
  handleAttendance s
  = set_posted (posted s ++ [request_for s f])
      (set_pendingVerification (pendingVerification s ++ [request_for s f])
         (setIsChecking true s)).
Proof.
  intros Hf Ht. unfold handleAttendance. rewrite Ht, Hf. reflexivity.
Qed.

Lemma tick_cases ms s :
  tick ms s = set_clock (clock s + ms) s
  \/ tick ms s = handleAttendance_error (set_clock (clock s + ms) s).
Proof. unfold tick. cbv zeta. repeat case_match; auto. Qed.

Lemma posted_step_submit s f :
  enabled s ClickSubmit = true ->
  capturedImage s = Some f ->
  posted (step s ClickSubmit) = posted s ++ [request_for s f]
  /\ pendingVerification (step s ClickSubmit)
     = pendingVerification s ++ [request_for s f]
  /\ isChecking (step s ClickSubmit) = true
  /\ capturedImage (step s ClickSubmit) = Some f
  /\ captures (step s ClickSubmit) = captures s.
Proof.
  intros Hen Hf. unfold step. rewrite Hen. cbn [handle].
  destruct (submit_enabled s Hen) as (_ & _ & f' & Hf' & Ht).
  rewrite (handleAttendance_posts s f Hf Ht).
  repeat split; frame; done.
Qed.

(** *** What a step does to the frames and the requests *)

Lemma step_effect s e : Effect s e (step s e).
Proof.
  destruct (enabled s e) eqn:Hen;
    [|unfold step; rewrite Hen; apply effect_none; auto].
  destruct e as [| |w h picture| | |stream| |verified| |ms|].
  - apply effect_none; unfold step; rewrite Hen; frame; auto.
  - apply effect_none; unfold step; rewrite Hen; frame; auto.
  - unfold step. rewrite Hen. unfold handle, capturePhoto.
    destruct (videoRef s).
    + eapply effect_capture; frame; reflexivity.
    + apply effect_none; frame; auto.
  - apply effect_none; unfold step; rewrite Hen; frame; auto.
  - destruct (submit_enabled s Hen) as (Hc & Ho & f & Hf & Ht).
    pose proof (posted_step_submit s f Hen Hf) as (Hp & Hq & Hc' & Hf' & Hn).
    now apply (effect_submit s _ _ f).
  - apply effect_none; unfold step; rewrite Hen;
      unfold handle, openCamera_granted; frame; try case_match; frame; auto.
  - apply effect_none; unfold step; rewrite Hen; frame; auto.
  - apply effect_outcome; unfold step; rewrite Hen; frame; auto.
  - apply effect_outcome; unfold step; rewrite Hen; frame; auto.
  - unfold step. rewrite Hen. cbn [handle].
    destruct (tick_cases ms s) as [-> | ->].
    + apply effect_none; frame; auto.
    + apply effect_outcome; frame; auto.
  - apply effect_none; unfold step; rewrite Hen; frame; auto.
Qed.

(** *** C5: time passing while a request is in flight *)

Lemma tick_without_timeout ms s :
  Forall (fun r => timeout r = 0) (pendingVerification s) ->
  tick ms s = set_clock (clock s + ms) s.
Proof.
  intros H. unfold tick. cbv zeta. cbn [pendingVerification set_clock].
  destruct (pendingVerification s) as [|r rest]; [done|].
  apply Forall_cons in H as [Hr _]. unfold expired. now rewrite Hr.
Qed.

Lemma step_no_timeouts s e : no_timeouts s -> no_timeouts (step s e).
Proof.
  intros [Hp Hq]. unfold no_timeouts.
  destruct (step_effect s e)
    as [Hp' Hq' _ _ _ | url Hp' Hq' _ _ _
        | f _ _ _ _ _ _ Hp' Hq' _ _ _ | Hp' Hq' _ _ _ _];
    rewrite Hp', Hq'.
  - done.
  - done.
  - split; (apply Forall_app; split; [done|]; now apply Forall_singleton).
  - split; [now apply Forall_tail | done].
Qed.

Lemma reachable_no_timeouts student trace :
  no_timeouts (run (init student) trace).
Proof.
  apply run_invariant; [|intros s e; apply step_no_timeouts].
  split; apply Forall_nil; done.
Qed.

Lemma render_set_clock n s : render (set_clock n s) = set_clock n (render s).
Proof.
  unfold render, video_shown.
  cbn [mounted isCameraOpen capturedImage videoRef set_clock].
  destruct (mounted s && isCameraOpen s && negb (truthy (capturedImage s)));
    [destruct (videoRef s)|]; reflexivity.
Qed.

(** When no request in flight has a timeout, time passing moves the
    clock and nothing else. *)
Lemma step_tick s ms :
  no_timeouts s -> rendered s ->
  step s (Tick ms) = set_clock (clock s + ms) s.
Proof.
  intros [Hp _] Hr. unfold step. cbn [enabled handle].
  rewrite (tick_without_timeout _ _ Hp), render_set_clock.
  now rewrite (render_fixed s Hr).
Qed.



(** *** C3: one captured frame per submission *)

Lemma step_fresh_frames s e : fresh_frames s -> fresh_frames (step s e).
Proof.
  intros (Hposted & Hheld & Hnodup & Hfresh).
  unfold fresh_frames, posted_frames in *.
  destruct (step_effect s e)
    as [Hp _ Hn Hc [Hf | Hf] | url Hp _ Hn Hc Hf
        | f _ _ Hf0 Hc0 _ _ Hp _ Hn Hc Hf | Hp _ Hn Hc _ Hf];
    rewrite ?Hp, ?Hn, ?Hc, ?Hf; repeat split; try done.
  - intros n Hin. specialize (Hposted n Hin). lia.
  - intros f [= <-]. cbn. lia.
  - intros f [= <-] _ Hin. cbn in Hin. specialize (Hposted _ Hin). lia.
  - intros n. rewrite map_app, elem_of_app. intros [Hin | Hin]; [auto|].
    cbn in Hin. apply list_elem_of_singleton in Hin as ->. now apply Hheld.
  - intros f' [= <-]. now apply Hheld.
  - rewrite map_app. apply NoDup_app.
    split; [done|]. split; [|apply NoDup_singleton].
    intros n Hin Hn'. cbn in Hn'. apply list_elem_of_singleton in Hn' as ->.
    now apply (Hfresh f).
Qed.

Lemma reachable_fresh_frames student trace :
  fresh_frames (run (init student) trace).
Proof.
  apply run_invariant; [|intros s e; apply step_fresh_frames].
  unfold fresh_frames, posted_frames. cbn. repeat split; try done.
  - intros n Hin. inversion Hin.
  - apply NoDup_nil_2.
Qed.

(** C3. In every reachable state of the flow:
    - no frame has been submitted twice;
    - the outcome of a submission, be it a response (verified or not) or
      a failure, discards the held frame and returns the flow to Idle;
    - a request is posted only by a submission from Captured, for the
      frame then held, which has never been submitted before: to submit
      again, a new frame must first be captured. *)
Theorem each_submission_consumes_one_frame
  (student : nat) (trace : list Event) :
  let s := run (init student) trace in
  NoDup (posted_frames s)
  /\ (forall verified,
        enabled s (VerificationResponse verified) = true ->
        capturedImage (step s (VerificationResponse verified)) = None
        /\ phase (step s (VerificationResponse verified)) = Idle)
  /\ (enabled s VerificationError = true ->
        capturedImage (step s VerificationError) = None
        /\ phase (step s VerificationError) = Idle)
  /\ (forall e,
        posted (step s e) <> posted s ->
        e = ClickSubmit
        /\ phase s = Captured
        /\ exists f,
             capturedImage s = Some f
             /\ (frameId f ∉ posted_frames s)
             /\ posted_frames (step s e) = posted_frames s ++ [frameId f]).
Proof.
  intros s.
  destruct (reachable_fresh_frames student trace)
    as (_ & _ & Hnodup & Hfresh). fold s in Hnodup, Hfresh.
  split; [exact Hnodup|]. split; [|split].
  - intros verified Hen. unfold step, phase. rewrite Hen. frame. done.
  - intros Hen. unfold step, phase. rewrite Hen. frame. done.
  - intros e Hposted.
    destruct (step_effect s e)
      as [Hp _ _ _ _ | url Hp _ _ _ _
          | f -> Hen Hf Hc Ho Ht Hp _ _ _ _ | Hp _ _ _ _ _]; try done.
    split; [reflexivity|]. split.
    + unfold phase. now rewrite Hc, Ho, Ht.
    + exists f. split; [exact Hf|]. split; [now apply Hfresh|].
      unfold posted_frames. now rewrite Hp, map_app.
Qed.

Lemma step_single_flight s e : single_flight s -> single_flight (step s e).
Proof.
  intros [Hle Hidle]. unfold single_flight.
  destruct (step_effect s e)
    as [_ Hq _ Hc _ | url _ Hq _ Hc _
        | f _ _ _ Hc0 _ _ _ Hq _ Hc _ | _ Hq _ Hc _ _];
    rewrite Hq, ?Hc.
  - done.
  - done.
  - rewrite (Hidle Hc0). cbn. split; [lia | discriminate].
  - destruct (pendingVerification s) as [|r [|r' rest]]; cbn in *;
      split; (done || lia).
Qed.

Lemma reachable_single_flight student trace :
  single_flight (run (init student) trace).
Proof.
  apply run_invariant; [|intros s e; apply step_single_flight].
  split; [cbn; lia | done].
Qed.

(** *** C10: the "verified today" indicator *)

(** C10, as stated, fails: [isVerified] does not come from
    [last_check_in] alone. The data loads with a check-in of the day
    before, and the effect sets [isVerified] to false; a check-in is
    then verified, and the response sets it to true, with the fetched
    [last_check_in] still that of the day before. *)
Lemma isVerified_not_from_last_check_in_alone :
  let loaded :=
    studentDataEffect JSDate.kathmandu
      (fun _ => Some JSDate.apr_30_2330_local)
      (Some "2024-04-30T17:45:00Z") JSDate.may_1_1000_local (init 7) in
  let verified :=
    run loaded
      [ClickTakeAttendance; CameraGranted [videoTrack];
       ClickCapture 640 480 "AAAA"; ClickSubmit;
       VerificationResponse true] in
  isVerified loaded = false
  /\ isVerified verified = true
  /\ JSDate.verifiedToday JSDate.kathmandu
       (fun _ => Some JSDate.apr_30_2330_local)
       "2024-04-30T17:45:00Z" JSDate.may_1_1000_local
     = false.
Proof. vm_compute. done. Qed.

(** C10, amended. Whenever student data loads, the effect sets
    [isVerified], whatever it was: to false when [last_check_in] does
    not parse; otherwise to true exactly when the time parsed and the
    current time, each moved by the offset of local time from UTC, fall
    into the same day of 86,400,000 milliseconds: the same local
    calendar day, not the same UTC day and not a window of 24 hours.
    It is not the only place that sets it: a verification response
    sets [isVerified] to the verdict of the server. *)
Theorem isVerified_on_load_by_local_day
  (LocalTZA : Z -> Z) (Date_parse : string -> JSDate.TimeValue)
  (last_check_in : string) (now : Z) (s : State)
  (parsed : JSDate.TimeValue) :
  Date_parse last_check_in = parsed ->
  isVerified
    (studentDataEffect LocalTZA Date_parse (Some last_check_in) now s)
  = match parsed with
    | Some t =>
        bool_decide ((t + LocalTZA t) / 86400000
                     = (now + LocalTZA now) / 86400000)%Z
    | None => false
    end
  /\ (forall (s' : State) (verified : bool),
        enabled s' (VerificationResponse verified) = true ->
        isVerified (step s' (VerificationResponse verified)) = verified).
Proof.
  intros Hparse. split.
  - cbn. unfold JSDate.verifiedToday. rewrite Hparse.
    destruct parsed as [t|]; [|reflexivity].
    apply bool_decide_ext.
    apply (JSDateProofs.toDateString_same_day LocalTZA t now).
  - intros s' verified Hen. unfold step. rewrite Hen. now frame.
Qed.

(** In Kathmandu: half past midnight and ten in the morning of 1 May
    are the same local day and different UTC days; half past eleven in
    the evening of 30 April and half past midnight are an hour apart
    and different local days. *)
Lemma isVerified_on_load_by_local_day_witness :
  JSDate.Day JSDate.may_1_0030_local <> JSDate.Day JSDate.may_1_1000_local
  /\ isVerified
       (studentDataEffect JSDate.kathmandu
          (fun _ => Some JSDate.may_1_0030_local) (Some "2024-04-30T18:45Z")
          JSDate.may_1_1000_local (init 7))
     = true
  /\ (JSDate.may_1_0030_local - JSDate.apr_30_2330_local = 3600000)%Z
  /\ isVerified
       (studentDataEffect JSDate.kathmandu
          (fun _ => Some JSDate.apr_30_2330_local) (Some "2024-04-30T17:45Z")
          JSDate.may_1_0030_local (init 7))
     = false.
Proof.
  split; [vm_compute; discriminate|].
  split.
  - rewrite (proj1 (isVerified_on_load_by_local_day JSDate.kathmandu
                      (fun _ => Some JSDate.may_1_0030_local)
                      "2024-04-30T18:45Z" JSDate.may_1_1000_local (init 7)
                      _ eq_refl)).
    vm_compute. reflexivity.
  - split; [vm_compute; reflexivity|].
    rewrite (proj1 (isVerified_on_load_by_local_day JSDate.kathmandu
                      (fun _ => Some JSDate.apr_30_2330_local)
                      "2024-04-30T17:45Z" JSDate.may_1_0030_local (init 7)
                      _ eq_refl)).
    vm_compute. reflexivity.
Defined.

(** Before the data has loaded the effect does nothing. *)
Lemma studentDataEffect_no_data LocalTZA Date_parse now s :
  studentDataEffect LocalTZA Date_parse None now s = s.
Proof. reflexivity. Qed.

End DashboardProofs.

(** ** The distance formula over the real numbers: symmetry *)

Module GeoFenceDistance.
Import GeoFence GeoFenceProofs.
Local Open Scope R_scope.

(** X1. [getDistanceFromLatLonInMeters] is symmetric: the distance from
    A to B is the distance from B to A, for all coordinates. *)
Theorem distance_symmetric (lat1 lon1 lat2 lon2 : R) :
  getDistanceFromLatLonInMeters lat1 lon1 lat2 lon2
  = getDistanceFromLatLonInMeters lat2 lon2 lat1 lon1.
Proof.
  unfold getDistanceFromLatLonInMeters. cbv zeta.
  assert (haversine_a lat1 lon1 lat2 lon2 = haversine_a lat2 lon2 lat1 lon1)
    as ->; [|reflexivity].
  rewrite !haversine_a_hav. unfold hav, Rsqr.
  replace ((deg2rad lat1 - deg2rad lat2) / 2)
    with (- ((deg2rad lat2 - deg2rad lat1) / 2)) by field.
  replace ((deg2rad lon1 - deg2rad lon2) / 2)
    with (- ((deg2rad lon2 - deg2rad lon1) / 2)) by field.
  rewrite !sin_neg. ring.
Qed.

End GeoFenceDistance.

(** ** The student dashboard: camera, requests, toasts *)

Module DashboardViewProofs.
Import Dashboard DashboardProofs DashboardView.

#[local] Arguments closeCamera : simpl never.
#[local] Arguments render : simpl never.

(** *** The camera pair *)

Lemma closeCamera_camera s : camera_of (closeCamera s) = close_pair (camera_of s).
Proof.
  unfold closeCamera, close_pair, camera_of. cbn [fst snd].
  destruct (videoRef s) as [[[i|]]|] eqn:Hv; cbn; rewrite ?Hv; reflexivity.
Qed.

Lemma attached_camera s : attached s = attached_pair (camera_of s).
Proof. reflexivity. Qed.

Lemma close_pair_idempotent c : close_pair (close_pair c) = close_pair c.
Proof. destruct c as [[[[i|]]|] l]; reflexivity. Qed.

Lemma close_pair_attached c : attached_pair (close_pair c) = None.
Proof. destruct c as [[[[i|]]|] l]; reflexivity. Qed.

(** Closing keeps every stream but the attached one, and the number of
    streams. *)
Lemma close_pair_keeps c i :
  attached_pair c <> Some i ->
  (close_pair c).2 !! i = c.2 !! i.
Proof.
  destruct c as [[[[j|]]|] l]; cbn; try done.
  intros Hne. apply list_lookup_alter_ne. congruence.
Qed.

Lemma close_pair_length c : length (close_pair c).2 = length c.2.
Proof.
  destruct c as [[[[j|]]|] l]; cbn; try done. apply length_alter.
Qed.

Lemma camera_untouched (f : State -> State) :
  (forall s, camera_of (f s) = camera_of s) ->
  forall s, camera_of (f s) = camera_of s.
Proof. auto. Qed.

(** Reading the camera pair through a handler: setters and toasts do
    not touch it, [closeCamera] closes it. *)
Ltac camera_step :=
  match goal with
  | |- context [camera_of (closeCamera ?s)] => rewrite (closeCamera_camera s)
  | |- context [camera_of (setIsChecking ?v ?s)] =>
      rewrite (camera_untouched (setIsChecking v) (fun _ => eq_refl) s)
  | |- context [camera_of (setIsVerified ?v ?s)] =>
      rewrite (camera_untouched (setIsVerified v) (fun _ => eq_refl) s)
  | |- context [camera_of (setIsCameraOpen ?v ?s)] =>
      rewrite (camera_untouched (setIsCameraOpen v) (fun _ => eq_refl) s)
  | |- context [camera_of (setCapturedImage ?v ?s)] =>
      rewrite (camera_untouched (setCapturedImage v) (fun _ => eq_refl) s)
  | |- context [camera_of (set_pendingGetUserMedia ?v ?s)] =>
      rewrite (camera_untouched (set_pendingGetUserMedia v) (fun _ => eq_refl) s)
  | |- context [camera_of (set_pendingVerification ?v ?s)] =>
      rewrite (camera_untouched (set_pendingVerification v) (fun _ => eq_refl) s)
  | |- context [camera_of (set_posted ?v ?s)] =>
      rewrite (camera_untouched (set_posted v) (fun _ => eq_refl) s)
  | |- context [camera_of (set_captures ?v ?s)] =>
      rewrite (camera_untouched (set_captures v) (fun _ => eq_refl) s)
  | |- context [camera_of (set_clock ?v ?s)] =>
      rewrite (camera_untouched (set_clock v) (fun _ => eq_refl) s)
  | |- context [camera_of (set_mounted ?v ?s)] =>
      rewrite (camera_untouched (set_mounted v) (fun _ => eq_refl) s)
  | |- context [camera_of (toast ?v ?s)] =>
      rewrite (camera_untouched (toast v) (fun _ => eq_refl) s)
  end.

Ltac camera :=
  unfold handle, retakePhoto, handleAttendance_response,
    handleAttendance_error;
  unfold openCamera, openCamera_denied, handleAttendance_finally, axios_post;
  cbv zeta;
  repeat camera_step;
  rewrite ?close_pair_idempotent.

Lemma handle_camera e s : CameraEffect s (handle e s).
Proof.
  destruct e as [| |w h picture| | |stream| |verified| |ms|].
  - apply camera_closed. camera. reflexivity.
  - apply camera_kept. reflexivity.
  - unfold handle, capturePhoto. destruct (videoRef s) eqn:Hv.
    + apply camera_closed. camera. reflexivity.
    + apply camera_kept. reflexivity.
  - apply camera_closed. camera. reflexivity.
  - apply camera_kept. unfold handle, handleAttendance.
    destruct (capturedImage s); [destruct (truthy _)|]; reflexivity.
  - apply (camera_granted _ _ stream).
    unfold handle, openCamera_granted, grant_pair, camera_of. cbn.
    destruct (videoRef s) eqn:Hv; cbn; rewrite ?Hv; reflexivity.
  - apply camera_closed. camera. reflexivity.
  - apply camera_closed. camera. reflexivity.
  - apply camera_closed. camera. reflexivity.
  - cbn [handle]. destruct (tick_cases ms s) as [-> | ->].
    + apply camera_kept. reflexivity.
    + apply camera_closed. camera. reflexivity.
  - apply camera_kept. reflexivity.
Qed.

(** [render] keeps the streams; the stream on the preview stays or, when
    the video element unmounts, is let go of. *)
Lemma render_camera s :
  streams (render s) = streams s
  /\ (attached (render s) = attached s \/ attached (render s) = None).
Proof.
  split; [now frame_step|]. unfold render, attached.
  destruct (video_shown s); [|now right].
  destruct (videoRef s) eqn:Hv; cbn; rewrite ?Hv; auto.
Qed.

(** *** X4: closing the camera *)

(** X4. [closeCamera] is idempotent and can be called in any state:
    afterwards no stream is on the preview, every track of the stream
    that was there has ended, and all other streams, as well as the
    number of streams, are as before. *)
Theorem closeCamera_closes_once (s : State) :
  closeCamera (closeCamera s) = closeCamera s
  /\ attached (closeCamera s) = None
  /\ length (streams (closeCamera s)) = length (streams s)
  /\ (forall i (st : MediaStream),
        attached s = Some i -> streams s !! i = Some st ->
        exists st', streams (closeCamera s) !! i = Some st'
                    /\ stream_ended st' = true)
  /\ (forall j, attached s <> Some j ->
        streams (closeCamera s) !! j = streams s !! j).
Proof.
  split; [apply closeCamera_idempotent|].
  split; [apply closeCamera_attached|].
  split.
  { change (length (camera_of (closeCamera s)).2 = length (camera_of s).2).
    rewrite closeCamera_camera. apply close_pair_length. }
  split.
  - intros i st Ha Hs. exists (List.map track_stop st).
    split; [now apply closeCamera_stops | apply stopped_stream_ended].
  - intros j Hj. now apply closeCamera_elsewhere.
Qed.

(** *** X5: a stream that is not on the preview *)

Lemma step_keeps_unattached s e i :
  i < length (streams s) -> attached s <> Some i ->
  streams (step s e) !! i = streams s !! i
  /\ i < length (streams (step s e))
  /\ attached (step s e) <> Some i.
Proof.
  intros Hi Ha. unfold step. destruct (enabled s e); [|done].
  destruct (render_camera (handle e s)) as [Hs Hr]. rewrite Hs.
  assert (streams (handle e s) !! i = streams s !! i
          /\ i < length (streams (handle e s))
          /\ attached (handle e s) <> Some i) as (H1 & H2 & H3).
  { rewrite (attached_camera s) in Ha. rewrite (attached_camera (handle e s)).
    change (streams (handle e s)) with (camera_of (handle e s)).2.
    change (streams s) with (camera_of s).2 in *.
    destruct (handle_camera e s) as [-> | -> | stream ->].
    - done.
    - split; [now apply close_pair_keeps|].
      split; [now rewrite close_pair_length|].
      now rewrite close_pair_attached.
    - unfold grant_pair. cbn [fst snd].
      split; [now apply lookup_app_l|].
      split; [rewrite length_app; lia|].
      unfold attached_pair. cbn [fst].
      destruct (camera_of s).1; cbn; [|done].
      intros [= Heq]. cbn in Hi, Heq. lia. }
  split; [exact H1|]. split; [exact H2|].
  destruct Hr as [-> | ->]; done.
Qed.

(** X5. A stream that is not on the preview is out of reach for good:
    whatever happens next (any events, in any order), its tracks stay
    as they are, live ones live, and it never gets back on the preview.
    Only the attached stream can ever be stopped. *)
Theorem unattached_stream_is_never_stopped
  (s : State) (i : nat) (trace : list Event) :
  i < length (streams s) ->
  attached s <> Some i ->
  streams (run s trace) !! i = streams s !! i
  /\ attached (run s trace) <> Some i.
Proof.
  revert s. induction trace as [|e trace IH]; intros s Hi Ha; [done|].
  cbn [run fold_left].
  destruct (step_keeps_unattached s e i Hi Ha) as (H1 & H2 & H3).
  destruct (IH (step s e) H2 H3) as [H4 H5]. unfold run in *.
  split; [now rewrite H4 | exact H5].
Qed.

Lemma unattached_stream_is_never_stopped_witness :
  streams
    (run (step camera_open DialogDismiss)
       [ClickTakeAttendance; CameraGranted [videoTrack];
        ClickCapture 640 480 "AAAA"; ClickSubmit; VerificationResponse true])
    !! 0
  = Some [videoTrack].
Proof.
  refine (eq_trans
            (proj1 (unattached_stream_is_never_stopped
                      (step camera_open DialogDismiss) 0
                      [ClickTakeAttendance; CameraGranted [videoTrack];
                       ClickCapture 640 480 "AAAA"; ClickSubmit;
                       VerificationResponse true] _ _)) _).
  - vm_compute. lia.
  - vm_compute. discriminate.
  - reflexivity.
Defined.

(** *** X6: where a granted stream goes *)

(** X6. When [getUserMedia] resolves, the new stream is put on the
    preview exactly when the video element is shown (component mounted,
    dialog open, no image held); otherwise it is kept live with nothing
    referring to it. Either way it is added to the streams as it came. *)
Theorem granted_stream_attached_iff_video_shown
  (student : nat) (trace : list Event) (stream : MediaStream) :
  let s := run (init student) trace in
  enabled s (CameraGranted stream) = true ->
  streams (step s (CameraGranted stream)) = streams s ++ [stream]
  /\ attached (step s (CameraGranted stream))
     = (if video_shown s then Some (length (streams s)) else None).
Proof.
  intros s Hen. unfold step. rewrite Hen.
  pose proof (reachable_rendered student trace) as Hr. fold s in Hr.
  split.
  - frame_step. unfold handle, openCamera_granted. cbv zeta.
    cbn [videoRef set_pendingGetUserMedia set_streams].
    destruct (videoRef s); reflexivity.
  - unfold render.
    assert (video_shown (handle (CameraGranted stream) s) = video_shown s)
      as ->.
    { unfold handle, openCamera_granted, video_shown. cbv zeta.
      cbn [videoRef set_pendingGetUserMedia set_streams].
      destruct (videoRef s); reflexivity. }
    unfold handle, openCamera_granted. cbv zeta.
    cbn [videoRef set_pendingGetUserMedia set_streams].
    destruct (video_shown s) eqn:Hshown; [|reflexivity].
    destruct Hr as [_ Hr]. destruct (Hr Hshown) as [v Hv]. rewrite Hv.
    reflexivity.
Qed.

Lemma granted_stream_attached_iff_video_shown_witness :
  attached (step (run (init 7) [ClickTakeAttendance])
              (CameraGranted [videoTrack]))
  = Some 0.
Proof.
  exact (proj2 (granted_stream_attached_iff_video_shown 7
                  [ClickTakeAttendance] [videoTrack] eq_refl)).
Defined.

(** *** X7: the picture that is sent *)

Lemma before_comma_no_comma p : has_comma p = false -> before_comma p = p.
Proof.
  induction p as [|c p IH]; [done|]. cbn.
  destruct (Ascii.eqb c comma); [discriminate|]. intros H. now rewrite IH.
Qed.

(** What [split(',')[1]] reads back from a data URL made by
    [toDataURL]: the picture that went in. *)
Lemma split_comma_1_toDataURL w h picture :
  w <> 0 -> h <> 0 -> has_comma picture = false ->
  split_comma_1 (canvas_toDataURL w h picture) = Some picture.
Proof.
  intros Hw Hh Hp. unfold canvas_toDataURL.
  destruct w; [done|]. destruct h; [done|]. cbn [Nat.eqb orb].
  assert (after_comma ("data:image/jpeg;base64," ++ picture) = Some picture)
    as Ha by reflexivity.
  unfold split_comma_1. rewrite Ha. cbn [fmap option_fmap option_map].
  now rewrite before_comma_no_comma.
Qed.

(** X7. Capture, then submit: when the preview has dimensions and the
    picture on it is base64 text (no comma), the request that goes out
    carries exactly that picture as [image_data], for the student of the
    component and for the frame just captured; it is the only request
    added. *)
Theorem submitted_image_is_the_captured_picture
  (student : nat) (trace : list Event) (w h : nat) (picture : string) :
  let s := run (init student) trace in
  enabled s (ClickCapture w h picture) = true ->
  isChecking s = false ->
  w <> 0 -> h <> 0 -> has_comma picture = false ->
  exists r,
    posted (run s [ClickCapture w h picture; ClickSubmit]) = posted s ++ [r]
    /\ image_data r = Some picture
    /\ student_id r = props_id s
    /\ frame r = captures s.
Proof.
  intros s Hen Hc Hw Hh Hp.
  assert (is_Some (videoRef s)) as [v Hv].
  { apply (reachable_rendered student trace). exact Hen. }
  set (url := canvas_toDataURL w h picture).
  set (f := {| frameId := captures s; dataUrl := url |}).
  set (s1 := step s (ClickCapture w h picture)).
  assert (capturedImage s1 = Some f /\ isChecking s1 = false
          /\ isCameraOpen s1 = isCameraOpen s /\ mounted s1 = mounted s
          /\ posted s1 = posted s /\ props_id s1 = props_id s
          /\ captures s1 = S (captures s))
    as (Hf & Hc1 & Ho1 & Hm1 & Hp1 & Hid1 & Hn1).
  { subst s1. unfold step. rewrite Hen. cbn [handle]. unfold capturePhoto.
    rewrite Hv. repeat split; frame; done. }
  assert (truthy (Some f) = true) as Ht.
  { subst f url. unfold canvas_toDataURL.
    destruct w; [done|]. destruct h; [done|]. reflexivity. }
  assert (enabled s1 ClickSubmit = true) as Hen1.
  { cbn in Hen. cbn. rewrite Hm1, Ho1, Hf, Ht, Hc1.
    apply andb_true_iff in Hen as [Hen _]. now rewrite Hen. }
  destruct (posted_step_submit s1 f Hen1 Hf) as (Hposted & _).
  exists (request_for s1 f). cbn [run fold_left]. fold s1.
  rewrite Hposted, Hp1. split; [reflexivity|]. cbn.
  split; [now apply split_comma_1_toDataURL|]. split; [exact Hid1 | reflexivity].
Qed.

Lemma submitted_image_is_the_captured_picture_witness :
  exists r,
    posted (run (run (init 7) [ClickTakeAttendance; CameraGranted [videoTrack]])
              [ClickCapture 640 480 "AAAA"; ClickSubmit])
    = [] ++ [r]
    /\ image_data r = Some "AAAA".
Proof.
  destruct (submitted_image_is_the_captured_picture 7
              [ClickTakeAttendance; CameraGranted [videoTrack]]
              640 480 "AAAA" eq_refl eq_refl
              ltac:(discriminate) ltac:(discriminate) eq_refl)
    as (r & Hr & Himg & _).
  exists r. split; [exact Hr | exact Himg].
Defined.

(** *** X8: submitting without an image *)

(** The toasts of a step: none, or one more. *)
Lemma toasts_step s e :
  toasts (step s e) = toasts s
  \/ exists title, In title flow_toasts
                   /\ toasts (step s e) = toasts s ++ [title].
Proof.
  unfold step. destruct (enabled s e) eqn:Hen; [|now left].
  destruct e as [| |w h picture| | |stream| |verified| |ms|].
  - left. now frame.
  - left. now frame.
  - left. unfold handle, capturePhoto. case_match; now frame.
  - left. now frame.
  - left. destruct (submit_enabled s Hen) as (_ & _ & f & Hf & Ht).
    cbn [handle]. rewrite (handleAttendance_posts s f Hf Ht). now frame.
  - left. unfold handle, openCamera_granted. frame. case_match; now frame.
  - right. exists "Camera Error". split; [cbn; auto|]. now frame.
  - right. exists (if verified then "Attendance Verified"
                   else "Attendance Not Verified").
    split; [destruct verified; cbn; auto|]. now frame.
  - right. exists "Attendance Error". split; [cbn; auto|]. now frame.
  - cbn [handle]. destruct (tick_cases ms s) as [-> | ->].
    + left. now frame.
    + right. exists "Attendance Error". split; [cbn; auto|]. now frame.
  - left. now frame.
Qed.

(** X8. [handleAttendance] without a captured image posts nothing: it
    shows "No Image Captured" and lowers the checking flag again. Through
    the interface that case never arises: the Submit button exists only
    while an image is held, so in no reachable state has that toast
    been shown. *)
Theorem no_image_no_request (student : nat) (trace : list Event) :
  (forall s,
     truthy (capturedImage s) = false ->
     posted (handleAttendance s) = posted s
     /\ pendingVerification (handleAttendance s) = pendingVerification s
     /\ isChecking (handleAttendance s) = false
     /\ toasts (handleAttendance s) = toasts s ++ ["No Image Captured"])
  /\ ~ In "No Image Captured" (toasts (run (init student) trace)).
Proof.
  split.
  - intros s Ht. unfold handleAttendance. rewrite Ht.
    destruct (capturedImage s); done.
  - apply run_invariant; [cbn; tauto|]. intros s e Hs.
    destruct (toasts_step s e) as [-> | (title & Hin & ->)]; [exact Hs|].
    rewrite in_app_iff. intros [H | [Heq | []]]; [now apply Hs|].
    subst title. cbn in Hin.
    destruct Hin as [H | [H | [H | [H | []]]]]; discriminate.
Qed.

(** *** X9, X10: the outcome of a submission *)

(** X9. [isVerified] changes in one place only: a verification response
    sets it to the verdict of the server. No other event touches it: not
    a failed request, not starting, capturing, retaking, dismissing or
    time passing. *)
Theorem isVerified_follows_the_response (s : State) (e : Event) :
  isVerified (step s e)
  = match e with
    | VerificationResponse verified =>
        if enabled s e then verified else isVerified s
    | _ => isVerified s
    end.
Proof.
  unfold step. destruct (enabled s e) eqn:Hen; [|now destruct e].
  destruct e as [| |w h picture| | |stream| |verified| |ms|];
    try (now frame).
  - unfold handle, capturePhoto. case_match; now frame.
  - unfold handle, handleAttendance. frame_step.
    destruct (capturedImage s); [destruct (truthy _)|]; reflexivity.
  - unfold handle, openCamera_granted. frame. case_match; now frame.
  - cbn [handle]. destruct (tick_cases ms s) as [-> | ->]; now frame.
Qed.

Lemma outcome_attached e s :
  (exists verified, e = VerificationResponse verified) \/ e = VerificationError ->
  attached (render (handle e s)) = None.
Proof.
  intros He. destruct (render_camera (handle e s)) as [_ [-> | ->]]; [|done].
  rewrite attached_camera.
  assert (camera_of (handle e s) = close_pair (camera_of s)) as ->.
  { destruct He as [[verified ->] | ->]; camera; reflexivity. }
  apply close_pair_attached.
Qed.

(** X10. Every outcome of a submission is reported exactly once and
    ends the flow: a response shows "Attendance Verified" or "Attendance
    Not Verified" by its verdict, a failed request "Attendance Error";
    either way the oldest request in flight is settled, the dialog is
    closed and nothing is left on the preview. *)
Theorem outcome_is_reported_once (s : State) (e : Event) :
  enabled s e = true ->
  (exists verified, e = VerificationResponse verified) \/ e = VerificationError ->
  toasts (step s e)
  = toasts s
    ++ [match e with
        | VerificationResponse true => "Attendance Verified"
        | VerificationResponse false => "Attendance Not Verified"
        | _ => "Attendance Error"
        end]
  /\ pendingVerification (step s e) = tail (pendingVerification s)
  /\ isCameraOpen (step s e) = false
  /\ isChecking (step s e) = false
  /\ attached (step s e) = None.
Proof.
  intros Hen He. unfold step. rewrite Hen.
  split; [|split; [|split; [|split]]].
  - destruct He as [[[] ->] | ->]; now frame.
  - destruct He as [[verified ->] | ->]; now frame.
  - destruct He as [[verified ->] | ->]; now frame.
  - destruct He as [[verified ->] | ->]; now frame.
  - now apply outcome_attached.
Qed.

Lemma outcome_is_reported_once_witness :
  toasts (step awaiting_verification (VerificationResponse false))
  = [] ++ ["Attendance Not Verified"]
  /\ attached (step awaiting_verification (VerificationResponse false)) = None.
Proof.
  destruct (outcome_is_reported_once awaiting_verification
              (VerificationResponse false) eq_refl
              (or_introl (ex_intro _ false eq_refl)))
    as (Htoast & _ & _ & _ & Hatt).
  split; [exact Htoast | exact Hatt].
Defined.

(** *** X11: the checking flag and the request in flight *)

Lemma step_checking_while_in_flight s e :
  checking_while_in_flight s -> checking_while_in_flight (step s e).
Proof.
  intros [Hle Hiff]. unfold checking_while_in_flight.
  destruct (step_effect s e)
    as [_ Hq _ Hc _ | url _ Hq _ Hc _
        | f _ _ _ Hc0 _ _ _ Hq _ Hc _ | _ Hq _ Hc _ _];
    rewrite Hq, Hc.
  - done.
  - done.
  - assert (pendingVerification s = []) as ->.
    { destruct (pendingVerification s) as [|r rest]; [done|].
      destruct Hiff as [_ Hiff]. rewrite Hiff in Hc0; done. }
    cbn. split; [lia|]. split; done.
  - destruct (pendingVerification s) as [|r [|r' rest]]; cbn in *;
      [| |lia]; (split; [lia|]; split; done).
Qed.

(** X11. In every reachable state at most one verification request is
    in flight, and the checking flag (which disables the Submit button)
    is up exactly while there is one; so a submission can only start
    when none is in flight. *)
Theorem checking_exactly_while_in_flight
  (student : nat) (trace : list Event) :
  let s := run (init student) trace in
  length (pendingVerification s) <= 1
  /\ (isChecking s = true <-> pendingVerification s <> [])
  /\ (enabled s ClickSubmit = true -> pendingVerification s = []).
Proof.
  intros s.
  assert (checking_while_in_flight s) as [Hle Hiff].
  { apply run_invariant; [|intros s0 e; apply step_checking_while_in_flight].
    split; [cbn; lia|]. cbn. split; done. }
  split; [exact Hle|]. split; [exact Hiff|]. intros Hen.
  destruct (submit_enabled s Hen) as (Hc & _).
  destruct (pendingVerification s) as [|r rest]; [done|].
  destruct Hiff as [_ Hiff]. rewrite Hiff in Hc; done.
Qed.

(** *** X12: the requests that go out *)

Lemma ascending_snoc (l : list nat) a :
  ascending l -> (forall n, n ∈ l -> n < a) -> ascending (l ++ [a]).
Proof.
  intros Hl Ha i j x y Hij Hi Hj.
  assert (j < length (l ++ [a])) as Hjlen by (eapply lookup_lt_Some; eauto).
  rewrite length_app in Hjlen. cbn in Hjlen.
  assert (l !! i = Some x) as Hi'.
  { rewrite lookup_app_l in Hi; [done | lia]. }
  destruct (decide (j < length l)) as [Hlt | Hge].
  - rewrite lookup_app_l in Hj by lia. exact (Hl i j x y Hij Hi' Hj).
  - rewrite lookup_app_r in Hj by lia.
    replace (j - length l) with 0 in Hj by lia. cbn in Hj.
    injection Hj as <-. apply Ha. eapply list_elem_of_lookup_2; eauto.
Qed.

Lemma props_id_step s e : props_id (step s e) = props_id s.
Proof.
  unfold step. destruct (enabled s e) eqn:Hen; [|done].
  destruct e as [| |w h picture| | |stream| |verified| |ms|];
    try (now frame).
  - unfold handle, capturePhoto. case_match; now frame.
  - unfold handle, handleAttendance. frame_step.
    destruct (capturedImage s); [destruct (truthy _)|]; reflexivity.
  - unfold handle, openCamera_granted. frame. case_match; now frame.
  - cbn [handle]. destruct (tick_cases ms s) as [-> | ->]; now frame.
Qed.

Lemma step_requests_in_order student s e :
  requests_in_order student s -> requests_in_order student (step s e).
Proof.
  intros (Hid & Hall & Hasc & Hposted & Hheld & Hnewer).
  unfold requests_in_order, posted_frames in *.
  rewrite props_id_step. split; [exact Hid|].
  destruct (step_effect s e)
    as [Hp _ Hn Hc [Hf | Hf] | url Hp _ Hn Hc Hf
        | f _ _ Hf0 Hc0 _ _ Hp _ Hn Hc Hf | Hp _ Hn Hc _ Hf];
    rewrite ?Hp, ?Hn, ?Hc, ?Hf; repeat split; try done.
  - intros n Hin. specialize (Hposted n Hin). lia.
  - intros f [= <-]. cbn. lia.
  - intros f n [= <-] _ Hin. cbn. now apply Hposted.
  - apply Forall_app. split; [done|]. apply Forall_singleton. now cbn.
  - rewrite map_app. apply ascending_snoc; [done|].
    intros n Hin. now apply (Hnewer f).
  - intros n. rewrite map_app, elem_of_app. intros [Hin | Hin]; [auto|].
    cbn in Hin. apply list_elem_of_singleton in Hin as ->. now apply Hheld.
  - intros f' [= <-]. now apply Hheld.
Qed.

(** X12. Every verification request the component has posted is for the
    student it was mounted for ([props.id]) and goes to the
    face-verification endpoint, and the frames go out in the order in
    which they were captured. *)
Theorem requests_name_the_student_in_capture_order
  (student : nat) (trace : list Event) :
  let s := run (init student) trace in
  Forall (fun r => student_id r = student
                   /\ url r = "http://localhost:8000/api/face-verification")
    (posted s)
  /\ ascending (posted_frames s)
  /\ (forall n, n ∈ posted_frames s -> n < captures s).
Proof.
  intros s.
  assert (requests_in_order student s) as (_ & Hall & Hasc & Hposted & _).
  { apply run_invariant; [|intros s0 e; apply step_requests_in_order].
    unfold requests_in_order, posted_frames. cbn.
    repeat split; try done.
    intros n Hin. inversion Hin. }
  done.
Qed.

(** *** X13: the geofence *)

Lemma isWithinCollegeRadius_step s e :
  isWithinCollegeRadius (step s e) = isWithinCollegeRadius s.
Proof.
  unfold step. destruct (enabled s e) eqn:Hen; [|done].
  destruct e as [| |w h picture| | |stream| |verified| |ms|];
    try (now frame).
  - unfold handle, capturePhoto. case_match; now frame.
  - unfold handle, handleAttendance. frame_step.
    destruct (capturedImage s); [destruct (truthy _)|]; reflexivity.
  - unfold handle, openCamera_granted. frame. case_match; now frame.
  - cbn [handle]. destruct (tick_cases ms s) as [-> | ->]; now frame.
Qed.

(** X13. The geofence gates nothing: with the geolocation effect
    commented out, [isWithinCollegeRadius] is false in every reachable
    state, and the check-in can be started all the same whenever the
    component is mounted. *)
Theorem geofence_never_blocks_check_in (student : nat) (trace : list Event) :
  let s := run (init student) trace in
  isWithinCollegeRadius s = false
  /\ enabled s ClickTakeAttendance = mounted s
  /\ (mounted s = true -> isCameraOpen (step s ClickTakeAttendance) = true).
Proof.
  intros s. split; [|split; [reflexivity|]].
  - apply run_invariant; [reflexivity|].
    intros s0 e H. now rewrite isWithinCollegeRadius_step.
  - intros Hm. unfold step. cbn [enabled]. rewrite Hm. now frame.
Qed.

(** *** X14: dismissing and starting again *)

Lemma granted_without_video stream s :
  video_shown s = false ->
  attached (render (handle (CameraGranted stream) s)) = None.
Proof.
  intros Hshown. unfold render.
  assert (video_shown (handle (CameraGranted stream) s) = false) as ->; [|done].
  rewrite <- Hshown. unfold handle, openCamera_granted, video_shown. cbn.
  destruct (videoRef s); reflexivity.
Qed.

(** X14. Dismissing the dialog discards nothing, and the next start
    resumes the flow where it was: the same phase, the same held frame,
    the same streams. If a frame is held, the dialog shows that frame
    and no video element, so the stream the new start is granted is put
    on no preview. *)
Theorem dismiss_then_start_resumes (s : State) :
  enabled s DialogDismiss = true ->
  let s2 := run s [DialogDismiss; ClickTakeAttendance] in
  phase s2 = phase s
  /\ capturedImage s2 = capturedImage s
  /\ isChecking s2 = isChecking s
  /\ streams s2 = streams s
  /\ pendingGetUserMedia s2 = S (pendingGetUserMedia s)
  /\ (truthy (capturedImage s) = true ->
      forall stream,
        enabled s2 (CameraGranted stream) = true
        /\ attached (step s2 (CameraGranted stream)) = None).
Proof.
  intros Hen s2.
  assert (mounted s = true /\ isCameraOpen s = true) as [Hm Ho].
  { cbn in Hen. now apply andb_true_iff in Hen. }
  set (s1 := step s DialogDismiss).
  assert (mounted s1 = true /\ capturedImage s1 = capturedImage s
          /\ isChecking s1 = isChecking s /\ streams s1 = streams s
          /\ pendingGetUserMedia s1 = pendingGetUserMedia s
          /\ attached s1 = None)
    as (Hm1 & Hf1 & Hc1 & Hs1 & Hp1 & Ha1).
  { subst s1. unfold step. rewrite Hen. repeat split; try (now frame).
    unfold render, video_shown, attached. cbn. now rewrite andb_false_r. }
  assert (closeCamera s1 = s1) as Hclose
    by now apply closeCamera_not_attached.
  assert (s2 = render (set_pendingGetUserMedia (S (pendingGetUserMedia s1))
                         (setIsCameraOpen true s1))) as ->.
  { subst s2. cbn [run fold_left]. fold s1. unfold step.
    cbn [enabled handle]. rewrite Hm1. unfold openCamera. cbv zeta.
    now rewrite Hclose. }
  split; [unfold phase; frame; now rewrite Hc1, Hf1, Ho|].
  split; [frame; exact Hf1|]. split; [frame; exact Hc1|].
  split; [frame; exact Hs1|]. split; [frame; now rewrite Hp1|].
  intros Ht stream. set (s3 := render _).
  assert (enabled s3 (CameraGranted stream) = true) as Hen3
    by (subst s3; now frame).
  split; [exact Hen3|]. unfold step. rewrite Hen3.
  apply granted_without_video. subst s3. rewrite video_shown_render.
  unfold video_shown. cbn. now rewrite Hf1, Ht, andb_false_r.
Qed.

Lemma dismiss_then_start_resumes_witness :
  enabled (step camera_open (ClickCapture 640 480 "AAAA")) DialogDismiss = true
  /\ phase (run (step camera_open (ClickCapture 640 480 "AAAA"))
              [DialogDismiss; ClickTakeAttendance])
     = phase (step camera_open (ClickCapture 640 480 "AAAA"))
  /\ attached
       (step (run (step camera_open (ClickCapture 640 480 "AAAA"))
                [DialogDismiss; ClickTakeAttendance])
          (CameraGranted [videoTrack]))
     = None.
Proof.
  assert (enabled (step camera_open (ClickCapture 640 480 "AAAA"))
            DialogDismiss = true) as Hen by (vm_compute; reflexivity).
  assert (truthy (capturedImage
                    (step camera_open (ClickCapture 640 480 "AAAA"))) = true)
    as Ht by (vm_compute; reflexivity).
  split; [exact Hen|].
  destruct (dismiss_then_start_resumes _ Hen)
    as (Hphase & _ & _ & _ & _ & Hgrant).
  split; [exact Hphase|]. exact (proj2 (Hgrant Ht [videoTrack])).
Defined.

(** *** X15: the camera is refused *)

(** X15. When [getUserMedia] rejects, the user is told once ("Camera
    Error") and nothing is left on the preview; but the dialog is not
    closed and the flow does not end: the flags, and with them the
    phase, stay as they were. *)
Theorem camera_denied_keeps_dialog_open (s : State) :
  enabled s CameraDenied = true ->
  toasts (step s CameraDenied) = toasts s ++ ["Camera Error"]
  /\ attached (step s CameraDenied) = None
  /\ phase (step s CameraDenied) = phase s
  /\ isCameraOpen (step s CameraDenied) = isCameraOpen s
  /\ capturedImage (step s CameraDenied) = capturedImage s
  /\ pendingGetUserMedia (step s CameraDenied) = pred (pendingGetUserMedia s)
  /\ length (streams (step s CameraDenied)) = length (streams s).
Proof.
  intros Hen. unfold step. rewrite Hen.
  split; [now frame|]. split.
  { destruct (render_camera (handle CameraDenied s)) as [_ [-> | ->]]; [|done].
    rewrite attached_camera.
    assert (camera_of (handle CameraDenied s) = close_pair (camera_of s))
      as -> by (camera; reflexivity).
    apply close_pair_attached. }
  split; [unfold phase; now frame|].
  split; [now frame|]. split; [now frame|]. split; [now frame|].
  frame_step.
  change (length (camera_of (handle CameraDenied s)).2 = length (camera_of s).2).
  assert (camera_of (handle CameraDenied s) = close_pair (camera_of s))
    as -> by (camera; reflexivity).
  apply close_pair_length.
Qed.

Lemma camera_denied_keeps_dialog_open_witness :
  toasts (step (step (init 7) ClickTakeAttendance) CameraDenied)
  = [] ++ ["Camera Error"]
  /\ phase (step (step (init 7) ClickTakeAttendance) CameraDenied)
     = CameraOpen.
Proof.
  destruct (camera_denied_keeps_dialog_open
              (step (init 7) ClickTakeAttendance) eq_refl)
    as (Htoast & _ & Hphase & _).
  split; [exact Htoast | exact Hphase].
Defined.

(** *** X16: the rank's ordinal suffix *)

(** X16. For every rank from 0 up, the suffix shown after the class rank
    is the English ordinal suffix: "th" when the tens digit is 1 (11th,
    12th, 13th, 111th), otherwise "st", "nd", "rd" for a last digit of
    1, 2, 3 and "th" for the rest. A negative rank always gets "th". *)
Theorem suffix_is_the_ordinal_suffix (rank : Z) :
  ((0 <= rank)%Z -> suffix rank = ordinal_by_digits rank)
  /\ ((rank < 0)%Z -> suffix rank = "th").
Proof.
  unfold suffix, ordinal_by_digits. cbv zeta. split; intros Hrank.
  - rewrite !Z.rem_mod_nonneg by lia.
    destruct (Z.eqb_spec (rank mod 10) 1), (Z.eqb_spec (rank mod 100) 11),
      (Z.eqb_spec (rank mod 10) 2), (Z.eqb_spec (rank mod 100) 12),
      (Z.eqb_spec (rank mod 10) 3), (Z.eqb_spec (rank mod 100) 13),
      (Z.eqb_spec (rank / 10 mod 10) 1);
      cbn; try reflexivity; exfalso;
      Z.to_euclidean_division_equations; lia.
  - destruct (Z.eqb_spec (Z.rem rank 10) 1), (Z.eqb_spec (Z.rem rank 10) 2),
      (Z.eqb_spec (Z.rem rank 10) 3); cbn;
      try (exfalso; Z.to_euclidean_division_equations; lia);
      repeat case_match; reflexivity.
Qed.

End DashboardViewProofs.

(** ** The attendance page *)

Module AttendancePageProofs.
Import AdminApi AdminApiProofs AttendancePage.

Lemma Promise_all_fulfilled {A : Type} (ps : list (Settled A)) (vs : list A) :
  Promise_all ps = Fulfilled vs <-> ps = List.map Fulfilled vs.
Proof.
  revert vs. induction ps as [|[v | reason] rest IH]; intros vs; cbn.
  - split; [intros [= <-]; reflexivity|]. destruct vs; [done | discriminate].
  - destruct (Promise_all rest) as [ws | reason'] eqn:Hrest.
    + split.
      * intros [= <-]. cbn. f_equal. now apply IH.
      * destruct vs as [|v' vs']; [discriminate|]. cbn. intros [= <- Hr].
        apply IH in Hr. now injection Hr as <-.
    + split; [discriminate|].
      destruct vs as [|v' vs']; [discriminate|]. cbn. intros [= <- Hr].
      apply IH in Hr. discriminate.
  - split; [discriminate|]. destruct vs; discriminate.
Qed.

Section Page.
Variable Backend : Type.
Variable serve_put :
  nat -> AttendanceStatus -> Backend -> Backend * Settled AxiosResponse.

Abbreviation bulk := (bulkUpdateAttendance Backend serve_put).
Abbreviation sequential := (sequential_updates Backend serve_put).
Abbreviation update := (updateAttendanceStatus Backend serve_put).

Lemma bulk_as_sequential ids st (w : World Backend) :
  bulk ids st w
  = (Promise_all (sequential ids st w).1, (sequential ids st w).2).
Proof.
  unfold bulkUpdateAttendance, bind. rewrite mapM_sequential.
  now destruct (sequential ids st w).
Qed.

Lemma replaceUpdated_id updatedRecords r :
  id (replaceUpdated updatedRecords r) = id r.
Proof.
  unfold replaceUpdated.
  destruct (List.find _ updatedRecords) as [u|] eqn:Hfind; [|done].
  apply List.find_some in Hfind as [_ Heq]. now apply Nat.eqb_eq in Heq.
Qed.

Lemma replaceOne_id updated r : id (replaceOne updated r) = id r.
Proof.
  unfold replaceOne. destruct (Nat.eqb_spec (id r) (id updated)); done.
Qed.

(** X19. Updating never adds, removes or reorders the page's records:
    after [handleStatusChange] and after [handleBulkUpdate], whatever
    the backend answers, the page lists the same ids in the same
    order. *)
Theorem updates_keep_the_page_ids
  (matchesFilters : Attendance -> bool) (i : nat) (st : AttendanceStatus)
  (attendanceData : list Attendance) (w : World Backend) :
  List.map id (handleStatusChange Backend serve_put i st attendanceData w).1
  = List.map id attendanceData
  /\ List.map id
       (handleBulkUpdate Backend serve_put matchesFilters st attendanceData w).1
     = List.map id attendanceData.
Proof.
  split.
  - unfold handleStatusChange, bind, ret.
    destruct (update i st w) as [[updated | reason] w1]; cbn [fst]; [|done].
    rewrite List.map_map. apply List.map_ext. apply replaceOne_id.
  - unfold handleBulkUpdate, bind at 1, ret.
    destruct (bulk _ st w) as [[updated | reason] w1]; cbn [fst]; [|done].
    rewrite List.map_map. apply List.map_ext. apply replaceUpdated_id.
Qed.

(** Against a backend that answers as asked, the sequence of updates
    returns one record per id, with that id and the status asked for. *)
Lemma sequential_answers_as_asked ids st (w : World Backend) :
  answers_as_asked Backend serve_put ->
  exists updated,
    (sequential ids st w).1 = List.map Fulfilled updated
    /\ List.map id updated = ids
    /\ Forall (fun u => status u = st) updated.
Proof.
  intros Hasked. revert w. induction ids as [|i rest IH]; intros w.
  - now exists [].
  - cbn [sequential_updates].
    unfold updateAttendanceStatus, bind, api_put, ret.
    destruct (Hasked i st (backend w)) as (r & Hr & Hid & Hst).
    destruct (serve_put i st (backend w)) as [b response]. cbn in Hr.
    subst response. cbn [data].
    match goal with |- context [sequential rest st ?w1] =>
      destruct (IH w1) as (updated & Hseq & Hids & Hall);
      destruct (sequential rest st w1) as [rs w2] end.
    cbn in Hseq. subst rs. exists (r :: updated). cbn.
    split; [done|]. split; [now rewrite Hid, Hids|]. now constructor.
Qed.

Lemma replaceUpdated_found updated r :
  In (id r) (List.map id updated) ->
  In (replaceUpdated updated r) updated
  /\ id (replaceUpdated updated r) = id r.
Proof.
  intros Hin. split; [|apply replaceUpdated_id]. unfold replaceUpdated.
  destruct (List.find _ updated) as [u|] eqn:Hfind.
  - now apply List.find_some in Hfind as [Hu _].
  - exfalso. apply List.in_map_iff in Hin as (u & Hid & Hu).
    pose proof (List.find_none _ _ Hfind u Hu) as Hno. cbn in Hno.
    apply Nat.eqb_neq in Hno. done.
Qed.

Lemma replaceUpdated_missing updated r :
  ~ In (id r) (List.map id updated) -> replaceUpdated updated r = r.
Proof.
  intros Hnot. unfold replaceUpdated.
  destruct (List.find _ updated) as [u|] eqn:Hfind; [|done].
  apply List.find_some in Hfind as [Hu Heq]. apply Nat.eqb_eq in Heq.
  exfalso. apply Hnot. apply List.in_map_iff. now exists u.
Qed.

(** X20. Against a backend that answers every PUT with a record of the
    id and status asked for, "mark all" does what it says on the page:
    every record whose id is among those of the filtered records gets
    the status, and every other record is left exactly as it was. *)
Theorem handleBulkUpdate_marks_the_filtered_records
  (matchesFilters : Attendance -> bool) (st : AttendanceStatus)
  (attendanceData : list Attendance) (w : World Backend) :
  answers_as_asked Backend serve_put ->
  let ids := List.map id (filteredAttendance matchesFilters attendanceData) in
  exists f,
    (handleBulkUpdate Backend serve_put matchesFilters st attendanceData w).1
    = List.map f attendanceData
    /\ forall r,
         id (f r) = id r
         /\ (In (id r) ids -> status (f r) = st)
         /\ (~ In (id r) ids -> f r = r).
Proof.
  intros Hasked ids.
  destruct (sequential_answers_as_asked ids st w Hasked)
    as (updated & Hseq & Hids & Hall).
  exists (replaceUpdated updated). split.
  - unfold handleBulkUpdate, bind at 1, ret. fold ids.
    rewrite bulk_as_sequential, Hseq.
    assert (Promise_all (List.map Fulfilled updated) = Fulfilled updated)
      as -> by now apply Promise_all_fulfilled.
    reflexivity.
  - intros r. split; [apply replaceUpdated_id|]. rewrite <- Hids. split.
    + intros Hin. destruct (replaceUpdated_found updated r Hin) as [Hu _].
      rewrite List.Forall_forall in Hall. now apply Hall.
    + apply replaceUpdated_missing.
Qed.

(** X21. [handleStatusChange] sends one PUT for the record; when the
    request fails the page is left as it was, and when the backend
    answers as asked the records with that id take the new status and
    all others are left exactly as they were. *)
Theorem handleStatusChange_updates_one_record
  (i : nat) (st : AttendanceStatus) (attendanceData : list Attendance)
  (w : World Backend) :
  let out := handleStatusChange Backend serve_put i st attendanceData w in
  wire out.2 = wire w ++ [{| put_id := i; put_status := st |}]
  /\ (forall reason,
        (serve_put i st (backend w)).2 = Rejected reason ->
        out.1 = attendanceData)
  /\ (answers_as_asked Backend serve_put ->
      exists f,
        out.1 = List.map f attendanceData
        /\ forall r,
             (id r = i -> id (f r) = i /\ status (f r) = st)
             /\ (id r <> i -> f r = r)).
Proof.
  intros out. subst out.
  unfold handleStatusChange, updateAttendanceStatus, bind, api_put, ret.
  destruct (serve_put i st (backend w)) as [b response] eqn:Hput.
  cbn [fst snd wire]. split; [reflexivity|]. split.
  - intros reason ->. reflexivity.
  - intros Hasked. destruct (Hasked i st (backend w)) as (u & Hu & Hid & Hst).
    rewrite Hput in Hu. cbn in Hu. subst response. cbn [data].
    exists (replaceOne u). split; [reflexivity|]. intros r.
    unfold replaceOne. rewrite Hid.
    destruct (Nat.eqb_spec (id r) i); split; done.
Qed.

End Page.

Lemma echo_answers_as_asked : answers_as_asked unit echo_put.
Proof. intros i st b. eexists. repeat split. Defined.

Lemma handleBulkUpdate_marks_the_filtered_records_witness :
  answers_as_asked unit echo_put
  /\ exists f,
       (handleBulkUpdate unit echo_put
          (fun r => Nat.eqb (id r) 1) Late page_records
          {| backend := tt; wire := [] |}).1
       = List.map f page_records.
Proof.
  split; [exact echo_answers_as_asked|].
  destruct (handleBulkUpdate_marks_the_filtered_records unit echo_put
              (fun r => Nat.eqb (id r) 1) Late page_records
              {| backend := tt; wire := [] |} echo_answers_as_asked)
    as (f & Hf & _).
  now exists f.
Defined.

(** *** X22: the counts on the cards *)

Lemma fold_countRecord l acc :
  countPresent (fold_left countRecord l acc)
  = countPresent acc + with_status Present l
  /\ countAbsent (fold_left countRecord l acc)
     = countAbsent acc + with_status Absent l
  /\ countLate (fold_left countRecord l acc)
     = countLate acc + with_status Late l.
Proof.
  revert acc. induction l as [|r l IH]; intros acc.
  - unfold with_status. cbn [fold_left List.filter length]. lia.
  - cbn [fold_left]. destruct (IH (countRecord acc r)) as (-> & -> & ->).
    unfold with_status, countRecord. cbn [List.filter].
    destruct (status r); repeat case_bool_decide; try done;
      cbn [countPresent countAbsent countLate length]; lia.
Qed.

Lemma with_status_total l :
  with_status Present l + with_status Absent l + with_status Late l = length l.
Proof.
  unfold with_status. induction l as [|r l IH]; [done|].
  cbn [List.filter]. destruct (status r); repeat case_bool_decide; try done;
    cbn [length]; lia.
Qed.

(** X22. The three counts of [attendanceStats] are the numbers of
    filtered records that are Present, Absent and Late, and they add up
    to the number of filtered records (the "Total Students" card). *)
Theorem attendanceStats_counts_every_record (filtered : list Attendance) :
  countPresent (attendanceStats filtered) = with_status Present filtered
  /\ countAbsent (attendanceStats filtered) = with_status Absent filtered
  /\ countLate (attendanceStats filtered) = with_status Late filtered
  /\ countPresent (attendanceStats filtered)
     + countAbsent (attendanceStats filtered)
     + countLate (attendanceStats filtered)
     = length filtered.
Proof.
  unfold attendanceStats.
  destruct (fold_countRecord filtered
              {| countPresent := 0; countAbsent := 0; countLate := 0 |})
    as (-> & -> & ->).
  cbn. repeat split; try done. apply with_status_total.
Qed.

End AttendancePageProofs.

(** ** The bulk update with its requests in flight *)

Module InFlightProofs.
Import AdminApi InFlight.

Lemma first_rejection_snoc answers k (response : Settled AxiosResponse) :
  first_rejection (answers ++ [(k, response)])
  = match first_rejection answers with
    | Some reason => Some reason
    | None =>
        match response with
        | Rejected reason => Some reason
        | Fulfilled _ => None
        end
    end.
Proof.
  induction answers as [|[j [r | reason]] rest IH]; cbn; [|exact IH|done].
  now destruct response.
Qed.

(** While an update is pending, not all are fulfilled. *)
Lemma all_fulfilled_pending (fs : list Flight) k f :
  fs !! k = Some f -> update_promise f = None -> all_fulfilled fs = None.
Proof.
  revert k. induction fs as [|g rest IH]; intros [|k] Hk Hf; try done; cbn.
  - injection Hk as ->. now rewrite Hf.
  - rewrite (IH k Hk Hf). now destruct (update_promise g) as [[]|].
Qed.

Lemma request_insert (fs : list Flight) k f g :
  fs !! k = Some f -> request g = request f ->
  request <$> <[k := g]> fs = request <$> fs.
Proof.
  intros Hk Hreq. rewrite list_fmap_insert, Hreq.
  apply list_insert_id. now rewrite list_lookup_fmap, Hk.
Qed.

Section Client.
Variable Backend : Type.
Variable serve_put :
  nat -> AttendanceStatus -> Backend -> Backend * Settled AxiosResponse.

Abbreviation enabled := (enabled Backend).
Abbreviation step := (step Backend serve_put).
Abbreviation run := (run Backend serve_put).
Abbreviation bulk := (bulkUpdateAttendance Backend).

Lemma run_last c trace e : run c (trace ++ [e]) = step (run c trace) e.
Proof. unfold run, InFlight.run. now rewrite fold_left_app. Qed.

Lemma run_more c trace more : run c (trace ++ more) = run (run c trace) more.
Proof. unfold run, InFlight.run. now rewrite fold_left_app. Qed.

(** What every run of a call keeps. *)
Record invariant (ids : list nat) (st : AttendanceStatus) (b : Backend)
  (c : Call Backend) : Prop := {
  requests_kept : request <$> flights c = put st <$> ids;
  served_once : NoDup (servedOrder c);
  served_iff : forall k,
    k ∈ servedOrder c
    <-> exists f, flights c !! k = Some f /\ progress f <> Sent;
  server_served :
    server c = fold_left (serve_index Backend serve_put ids st)
                 (servedOrder c) b;
  promise_settled :
    promise c
    = match first_rejection (arrivals c) with
      | Some reason => Some (Rejected reason)
      | None => Fulfilled <$> all_fulfilled (flights c)
      end;
  arrived_iff : forall k response,
    (k, response) ∈ arrivals c
    <-> exists f, flights c !! k = Some f /\ progress f = Delivered response
}.

Lemma all_fulfilled_sent ids st :
  all_fulfilled ((fun i => updateAttendanceStatus i st) <$> ids)
  = match ids with [] => Some [] | _ => None end.
Proof. now destruct ids. Qed.

Lemma invariant_start ids st b : invariant ids st b (bulk ids st b).
Proof.
  split; cbn.
  - rewrite <- list_fmap_compose. done.
  - constructor.
  - intros k. split; [intros H; inversion H|].
    intros (f & Hf & Hp). change (List.map ?g ?l) with (g <$> l) in Hf.
    rewrite list_lookup_fmap in Hf.
    destruct (ids !! k); [|done]. injection Hf as <-. done.
  - done.
  - change (List.map ?g ?l) with (g <$> l).
    rewrite all_fulfilled_sent. now destruct ids.
  - intros k response. split; [intros H; inversion H|].
    intros (f & Hf & Hp). change (List.map ?g ?l) with (g <$> l) in Hf.
    rewrite list_lookup_fmap in Hf.
    destruct (ids !! k); [|done]. injection Hf as <-. done.
Qed.

Lemma invariant_step ids st b c e :
  invariant ids st b c -> invariant ids st b (step c e).
Proof.
  intros [Hreq Hnodup Hserved Hserver Hpromise Harrived].
  unfold step, InFlight.step. destruct e as [k | k]; cbn [InFlight.enabled].
  - (* the backend serves request [k] *)
    destruct (flights c !! k) as [f|] eqn:Hk; cbn; [|now split].
    destruct (progress f) eqn:Hp; try now split.
    cbn [handle]. rewrite Hk.
    destruct (serve_put (put_id (request f)) (put_status (request f))
                (server c)) as [b' response] eqn:Hput.
    assert (ids !! k = Some (put_id (request f))
            /\ put_status (request f) = st) as [Hid Hst].
    { assert (request <$> flights c !! k = put st <$> ids !! k) as H
        by now rewrite <- !list_lookup_fmap, Hreq.
      rewrite Hk in H. destruct (ids !! k); [|done].
      injection H as ->. done. }
    split; cbn.
    + rewrite <- Hreq. now apply request_insert with f.
    + apply NoDup_app. split; [done|]. split; [|apply NoDup_singleton].
      intros j Hj ->%list_elem_of_singleton.
      apply Hserved in Hj as (f' & Hf' & Hne). congruence.
    + intros j. rewrite elem_of_app, list_elem_of_singleton, Hserved.
      destruct (decide (j = k)) as [-> | Hjk].
      * rewrite list_lookup_insert_eq by now apply lookup_lt_Some with f.
        split; [|now right]. intros _. eexists. split; [done|]. done.
      * rewrite list_lookup_insert_ne by done. split; [|now left].
        now intros [H | ->].
    + rewrite fold_left_app. cbn. rewrite <- Hserver.
      unfold serve_index. rewrite Hid, <- Hst, Hput. done.
    + rewrite Hpromise. destruct (first_rejection (arrivals c)); [done|].
      rewrite (all_fulfilled_pending (flights c) k f) by
        (done || now unfold update_promise; rewrite Hp).
      erewrite (all_fulfilled_pending _ k); [done| |].
      * apply list_lookup_insert_eq. now apply lookup_lt_Some with f.
      * done.
    + intros j r. rewrite Harrived.
      destruct (decide (j = k)) as [-> | Hjk].
      * rewrite list_lookup_insert_eq by now apply lookup_lt_Some with f.
        rewrite Hk. split; intros (f' & [= <-] & Hf'); cbn in *; congruence.
      * now rewrite list_lookup_insert_ne by done.
  - (* the answer to request [k] arrives *)
    destruct (flights c !! k) as [f|] eqn:Hk; cbn; [|now split].
    destruct f as [r p]. cbn. destruct p as [|response|]; try now split.
    cbn [handle]. rewrite Hk. split; cbn.
    + rewrite <- Hreq. now apply request_insert with {| request := r; progress := Served response |}.
    + done.
    + intros j. rewrite Hserved.
      destruct (decide (j = k)) as [-> | Hjk].
      * rewrite list_lookup_insert_eq by now apply lookup_lt_Some in Hk.
        rewrite Hk. split; intros _; eexists; (split; [done|]); done.
      * now rewrite list_lookup_insert_ne by done.
    + done.
    + rewrite first_rejection_snoc, Hpromise.
      destruct (first_rejection (arrivals c)) as [reason|]; [done|].
      rewrite (all_fulfilled_pending (flights c) k _ Hk) by done.
      cbn. now destruct response.
    + intros j r'. rewrite elem_of_app, list_elem_of_singleton, Harrived.
      destruct (decide (j = k)) as [-> | Hjk].
      * rewrite list_lookup_insert_eq by now apply lookup_lt_Some in Hk.
        rewrite Hk. split.
        -- intros [(f' & [= <-] & Hf') | [= ->]]; [done|]. now eexists.
        -- intros (f' & [= <-] & [= ->]). now right.
      * rewrite list_lookup_insert_ne by done. split; [|now left].
        intros [H | [= ? _]]; done.
Qed.

Lemma invariant_run ids st b trace :
  invariant ids st b (run (bulk ids st b) trace).
Proof.
  induction trace as [|e trace IH] using rev_ind.
  - apply invariant_start.
  - rewrite run_last. now apply invariant_step.
Qed.

Lemma promise_stays c e outcome :
  promise c = Some outcome -> promise (step c e) = Some outcome.
Proof.
  intros Hp. unfold step, InFlight.step.
  destruct (enabled c e); [|done]. destruct e as [k | k]; cbn.
  - destruct (flights c !! k); [|done]. now destruct (serve_put _ _ _).
  - destruct (flights c !! k) as [[r [|response|]]|]; try done.
    cbn. now rewrite Hp.
Qed.

Lemma promise_stays_run c more outcome :
  promise c = Some outcome -> promise (run c more) = Some outcome.
Proof.
  revert c. induction more as [|e more IH]; intros c Hp; [done|].
  cbn. apply IH. now apply promise_stays.
Qed.

(** A request that has not been served can be. *)
Lemma unserved_enabled ids st b c k :
  invariant ids st b c ->
  enabled c (Serve k) = true <-> k < length ids /\ k ∉ servedOrder c.
Proof.
  intros Hinv. pose proof (requests_kept _ _ _ _ Hinv) as Hreq.
  pose proof (served_iff _ _ _ _ Hinv k) as Hserved.
  assert (length (flights c) = length ids) as Hlen
    by now rewrite <- (length_fmap request), Hreq, length_fmap.
  cbn. destruct (flights c !! k) as [f|] eqn:Hk; cbn.
  - apply lookup_lt_Some in Hk as Hlt. rewrite Hserved.
    destruct (progress f) eqn:Hp; split; try done.
    + intros _. split; [lia|]. intros (f' & [= <-] & Hne). done.
    + intros [_ Hnot]. exfalso. apply Hnot. exists f. now rewrite Hp.
    + intros [_ Hnot]. exfalso. apply Hnot. exists f. now rewrite Hp.
  - apply lookup_ge_None in Hk. split; [done|]. lia.
Qed.

(** Served and then answered, a request has acted on the backend as
    the single update [updateAttendanceStatus] of its id does, and its
    promise has settled as that update does. *)
Lemma serve_deliver_is_one_update ids st b c k i :
  invariant ids st b c ->
  ids !! k = Some i -> k ∉ servedOrder c ->
  let update :=
    AdminApi.updateAttendanceStatus Backend serve_put i st
      {| AdminApi.backend := server c; AdminApi.wire := [] |} in
  server (step c (Serve k)) = AdminApi.backend update.2
  /\ server (run c [Serve k; Deliver k]) = AdminApi.backend update.2
  /\ update_promise <$> flights (run c [Serve k; Deliver k]) !! k
     = Some (Some update.1).
Proof.
  intros Hinv Hid Hnot.
  assert (enabled c (Serve k) = true) as Hen.
  { apply (unserved_enabled ids st b); [done|]. split; [|done].
    now apply lookup_lt_Some in Hid. }
  pose proof (requests_kept _ _ _ _ Hinv) as Hreq.
  assert (exists f, flights c !! k = Some f /\ request f = put st i
                    /\ progress f = Sent) as (f & Hk & Hf & Hp).
  { cbn in Hen. destruct (flights c !! k) as [f|] eqn:Hk; [|done].
    exists f. split; [done|].
    assert (request <$> flights c !! k = put st <$> ids !! k) as H
      by now rewrite <- !list_lookup_fmap, Hreq.
    rewrite Hk, Hid in H. injection H as H. split; [done|].
    cbn in Hen. now destruct (progress f). }
  apply lookup_lt_Some in Hk as Hlt.
  assert (step c (Serve k)
          = {| server := (serve_put i st (server c)).1;
               flights :=
                 <[k := {| request := request f;
                           progress :=
                             Served (serve_put i st (server c)).2 |}]>
                   (flights c);
               promise := promise c;
               servedOrder := servedOrder c ++ [k];
               arrivals := arrivals c |}) as Hserve.
  { unfold step, InFlight.step. rewrite Hen. cbn [handle].
    rewrite Hk, Hf. cbn [put_id put_status put].
    now destruct (serve_put i st (server c)). }
  cbv zeta. unfold run, InFlight.run. cbn [fold_left]. rewrite Hserve.
  unfold AdminApi.updateAttendanceStatus, AdminApi.bind, AdminApi.api_put,
    AdminApi.ret. cbn [AdminApi.backend].
  destruct (serve_put i st (server c)) as [b' response]. cbn [fst snd].
  split; [done|].
  unfold step, InFlight.step. cbn [InFlight.enabled flights].
  rewrite list_lookup_insert_eq by exact Hlt. cbn.
  rewrite list_lookup_insert_eq by exact Hlt. cbn.
  split; [done|].
  rewrite list_lookup_insert_eq by (now rewrite length_insert).
  cbn. now destruct response.
Qed.

Lemma step_serve c k f :
  flights c !! k = Some f -> progress f = Sent ->
  step c (Serve k)
  = let answer :=
      serve_put (put_id (request f)) (put_status (request f)) (server c) in
    {| server := answer.1;
       flights :=
         <[k := {| request := request f; progress := Served answer.2 |}]>
           (flights c);
       promise := promise c;
       servedOrder := servedOrder c ++ [k];
       arrivals := arrivals c |}.
Proof.
  intros Hk Hp. unfold step, InFlight.step. cbn [InFlight.enabled handle].
  rewrite Hk. cbn. rewrite Hp. now destruct (serve_put _ _ _).
Qed.

Lemma step_deliver c k r response :
  flights c !! k = Some {| request := r; progress := Served response |} ->
  step c (Deliver k)
  = let updates :=
      <[k := {| request := r; progress := Delivered response |}]>
        (flights c) in
    {| server := server c;
       flights := updates;
       promise :=
         Promise_all_settle (promise c)
           (updateAttendanceStatus_resume response) updates;
       servedOrder := servedOrder c;
       arrivals := arrivals c ++ [(k, response)] |}.
Proof.
  intros Hk. unfold step, InFlight.step. cbn [InFlight.enabled handle].
  now rewrite Hk.
Qed.

(** Served and answered one after the other, in the order in which
    they were sent, the requests that are left act on the backend, and
    settle, as the single updates made in turn do. *)
Lemma in_order_from st rest : forall (done : list Flight) (c : Call Backend)
    (w : World Backend),
  flights c = done ++ ((fun i => updateAttendanceStatus i st) <$> rest) ->
  AdminApi.backend w = server c ->
  let c' :=
    run c (flat_map (fun k => [Serve k; Deliver k])
             (seq (length done) (length rest))) in
  let s := sequential_updates Backend serve_put rest st w in
  server c' = AdminApi.backend s.2
  /\ update_promise <$> flights c'
     = (update_promise <$> done) ++ (Some <$> s.1).
Proof.
  induction rest as [|i rest IH]; intros done c w Hflights Hw; cbv zeta.
  - cbn. rewrite Hflights. cbn. rewrite !app_nil_r. done.
  - cbn [length seq flat_map app]. unfold run, InFlight.run. cbn [fold_left].
    assert (flights c !! length done = Some (updateAttendanceStatus i st))
      as Hk by (rewrite Hflights; now rewrite lookup_app_r, Nat.sub_diag by lia).
    apply lookup_lt_Some in Hk as Hlt.
    rewrite (step_serve c _ _ Hk eq_refl). cbv zeta.
    cbn [request put_id put_status updateAttendanceStatus].
    set (answer := serve_put i st (server c)).
    erewrite step_deliver
      by (cbn [flights]; now apply list_lookup_insert_eq).
    cbv zeta. cbn [flights server promise servedOrder arrivals].
    rewrite list_insert_insert_eq, Hflights.
    rewrite insert_app_r_alt, Nat.sub_diag by lia. cbn [insert list_insert].
    match goal with |- context [fold_left _ _ ?c2] => set (c2' := c2) end.
    fold (InFlight.run Backend serve_put c2'
            (flat_map (fun k => [Serve k; Deliver k])
               (seq (S (length done)) (length rest)))).
    set (delivered :=
           {| request := {| put_id := i; put_status := st |};
              progress := Delivered answer.2 |}) in *.
    set (w1 := (AdminApi.updateAttendanceStatus Backend serve_put i st w).2).
    assert (AdminApi.backend w1 = server c2'
            /\ (AdminApi.updateAttendanceStatus Backend serve_put i st w).1
               = updateAttendanceStatus_resume answer.2) as [Hw1 Hr].
    { subst w1 c2' answer. cbn [server]. rewrite <- Hw.
      unfold AdminApi.updateAttendanceStatus, bind, api_put, ret.
      now destruct (serve_put i st (AdminApi.backend w)) as [b' []]. }
    assert (flights c2'
            = (done ++ [delivered])
              ++ ((fun i => updateAttendanceStatus i st) <$> rest))
      as Hflights2 by (subst c2'; cbn [flights]; now rewrite <- app_assoc).
    specialize (IH (done ++ [delivered]) c2' w1 Hflights2 Hw1).
    rewrite length_app, Nat.add_1_r in IH. cbv zeta in IH.
    destruct IH as [IHserver IHpromises].
    cbn [sequential_updates].
    destruct (AdminApi.updateAttendanceStatus Backend serve_put i st w)
      as [r w1'] eqn:Hupdate. cbn in Hr. subst w1. cbn [snd] in *.
    destruct (sequential_updates Backend serve_put rest st w1') as [rs w2].
    cbn [fst snd] in *. split; [exact IHserver|].
    rewrite IHpromises, fmap_app, <- app_assoc. cbn. now rewrite Hr.
Qed.

(** The sequential reading is one of the runs: when every request is
    served and answered before the next one is served, the batch acts
    on the backend, and its updates settle, as the updates issued one
    after the other in the order of the ids do. *)
Lemma in_order_is_sequential ids st b :
  let c := run (bulk ids st b) (in_order (length ids)) in
  let s :=
    sequential_updates Backend serve_put ids st
      {| AdminApi.backend := b; AdminApi.wire := [] |} in
  server c = AdminApi.backend s.2
  /\ update_promise <$> flights c = Some <$> s.1.
Proof.
  apply (in_order_from st ids [] (bulk ids st b)
           {| AdminApi.backend := b; AdminApi.wire := [] |}); reflexivity.
Qed.

(** C9, amended. [bulkUpdateAttendance(ids, status)] starts one
    [updateAttendanceStatus(id, status)] per id, in the order of the
    ids and before any of them is answered; from then on the backend
    serves the requests, and the answers arrive, in any order. Whatever
    the order and the outcomes: the requests on the wire are one PUT
    per id, in the order of the ids; each is served at most once, and
    can be for as long as it has not been, so that no failure keeps
    another update from being served;
    the backend is the result of the served requests, each applied
    once in the order of service, none undone; and a request that is
    served and answered next acts on the backend, and settles, as the
    single call [updateAttendanceStatus(id, status)] does. The updates
    made one after the other in the order of the ids are one of the
    runs, the one in which every request is served and answered before
    the next one is served. *)
Theorem bulkUpdateAttendance_concurrent_updates
  (ids : list nat) (st : AttendanceStatus) (b : Backend)
  (trace : list Event) :
  let c0 := bulk ids st b in
  let c := run c0 trace in
  request <$> flights c = put st <$> ids
  /\ NoDup (servedOrder c)
  /\ (forall k,
        enabled c (Serve k) = true <-> k < length ids /\ k ∉ servedOrder c)
  /\ server c
     = fold_left (serve_index Backend serve_put ids st) (servedOrder c) b
  /\ (forall k i,
        ids !! k = Some i -> k ∉ servedOrder c ->
        let update :=
          AdminApi.updateAttendanceStatus Backend serve_put i st
            {| AdminApi.backend := server c; AdminApi.wire := [] |} in
        server (run c [Serve k; Deliver k]) = AdminApi.backend update.2
        /\ update_promise <$> flights (run c [Serve k; Deliver k]) !! k
           = Some (Some update.1))
  /\ (let sequential :=
        sequential_updates Backend serve_put ids st
          {| AdminApi.backend := b; AdminApi.wire := [] |} in
      server (run c0 (in_order (length ids)))
      = AdminApi.backend sequential.2
      /\ update_promise <$> flights (run c0 (in_order (length ids)))
         = Some <$> sequential.1).
Proof.
  cbv zeta. pose proof (invariant_run ids st b trace) as Hinv.
  split; [apply (requests_kept _ _ _ _ Hinv)|].
  split; [apply (served_once _ _ _ _ Hinv)|].
  split; [intros k; now apply (unserved_enabled ids st b)|].
  split; [apply (server_served _ _ _ _ Hinv)|].
  split; [|apply in_order_is_sequential].
  intros k i Hid Hnot.
  now destruct (serve_deliver_is_one_update ids st b _ k i Hinv Hid Hnot)
    as (_ & Hserver & Hpromise).
Qed.

(** *** The promise of the bulk update *)

Lemma all_fulfilled_spec (fs : list Flight) (vs : list Attendance) :
  all_fulfilled fs = Some vs
  <-> update_promise <$> fs = (fun v => Some (Fulfilled v)) <$> vs.
Proof.
  revert vs. induction fs as [|f rest IH]; intros vs; cbn.
  - split; [now intros [= <-]|]. now destruct vs.
  - destruct (update_promise f) as [[v | reason]|]; cbn;
      try (split; [done|]; now destruct vs).
    destruct (all_fulfilled rest) as [ws|] eqn:Hrest.
    + split.
      * intros [= <-]. cbn. f_equal. now apply IH.
      * destruct vs as [|v' vs']; [done|]. cbn. intros [= <- Hr].
        apply IH in Hr. now injection Hr as <-.
    + split; [done|]. destruct vs as [|v' vs']; [done|]. cbn.
      intros [= <- Hr]. now apply IH in Hr.
Qed.

Lemma first_rejection_arrived answers reason :
  first_rejection answers = Some reason ->
  exists k, (k, Rejected reason) ∈ answers.
Proof.
  induction answers as [|[j [r | e]] rest IH]; cbn; [done| |].
  - intros H. destruct (IH H) as [k Hk]. exists k. now right.
  - intros [= ->]. exists j. now left.
Qed.

(** X17. The promise [bulkUpdateAttendance] returns is settled by the
    answers in the order in which they arrive, not in the order of the
    ids: it is rejected as soon as one update is, with the reason of
    the first rejection to arrive; it is fulfilled exactly when every
    update is, and then with the updated records in the order of the
    ids; otherwise it is pending. Each answer that has arrived is the
    answer to its request, and arrived once. *)
Theorem bulkUpdateAttendance_settles_as_answers_arrive
  (ids : list nat) (st : AttendanceStatus) (b : Backend)
  (trace : list Event) :
  let c := run (bulk ids st b) trace in
  (forall reason,
     promise c = Some (Rejected reason)
     <-> first_rejection (arrivals c) = Some reason)
  /\ (forall updated,
        promise c = Some (Fulfilled updated)
        <-> update_promise <$> flights c
            = (fun v => Some (Fulfilled v)) <$> updated)
  /\ (promise c = None
      <-> first_rejection (arrivals c) = None
          /\ all_fulfilled (flights c) = None)
  /\ (forall k response,
        (k, response) ∈ arrivals c
        <-> exists f, flights c !! k = Some f
                      /\ progress f = Delivered response).
Proof.
  cbv zeta. pose proof (invariant_run ids st b trace) as Hinv.
  pose proof (promise_settled _ _ _ _ Hinv) as Hp.
  pose proof (arrived_iff _ _ _ _ Hinv) as Harrived.
  set (c := run (bulk ids st b) trace) in *.
  assert (forall vs, all_fulfilled (flights c) = Some vs ->
                     first_rejection (arrivals c) = None) as Hnone.
  { intros vs Hall. destruct (first_rejection (arrivals c)) as [reason|] eqn:H;
      [|done].
    apply first_rejection_arrived in H as [k Hk].
    apply Harrived in Hk as (f & Hf & Hprog).
    apply all_fulfilled_spec in Hall.
    assert (update_promise <$> flights c !! k
            = (fun v => Some (Fulfilled v)) <$> vs !! k) as Hk
      by now rewrite <- !list_lookup_fmap, Hall.
    rewrite Hf in Hk. cbn in Hk. unfold update_promise in Hk.
    rewrite Hprog in Hk. cbn in Hk. now destruct (vs !! k). }
  repeat split.
  - rewrite Hp. destruct (first_rejection (arrivals c)); [now intros [= ->]|].
    now destruct (all_fulfilled (flights c)).
  - intros H. now rewrite Hp, H.
  - rewrite Hp. destruct (first_rejection (arrivals c)); [done|].
    destruct (all_fulfilled (flights c)) as [vs|] eqn:Hall; [|done].
    intros [= <-]. now apply all_fulfilled_spec.
  - intros H. apply all_fulfilled_spec in H. rewrite Hp, (Hnone _ H), H. done.
  - rewrite Hp in H. now destruct (first_rejection (arrivals c)).
  - rewrite Hp in H. destruct (first_rejection (arrivals c)); [done|].
    now destruct (all_fulfilled (flights c)).
  - intros [H1 H2]. now rewrite Hp, H1, H2.
  - now apply Harrived.
  - now apply Harrived.
Qed.

(** *** The page *)

(** X18. When the bulk update rejects, the page keeps the records it
    had, for good: the promise is settled by the first rejection to
    arrive, while a PUT for every filtered record is on the wire. The
    requests that were not served by then still are, later, and change
    the backend behind the page: it remains the result of all served
    requests, in the order of service. *)
Theorem handleBulkUpdate_rejection_leaves_page_behind
  (matchesFilters : Attendance -> bool) (st : AttendanceStatus)
  (attendanceData : list Attendance) (b : Backend)
  (trace more : list Event) (reason : string) :
  let ids := id <$> filteredAttendance matchesFilters attendanceData in
  let c := run (handleBulkUpdate Backend matchesFilters st attendanceData b)
             trace in
  promise c = Some (Rejected reason) ->
  attendanceData_at Backend attendanceData c = attendanceData
  /\ request <$> flights c = put st <$> ids
  /\ (forall k,
        k < length ids -> k ∉ servedOrder c -> enabled c (Serve k) = true)
  /\ attendanceData_at Backend attendanceData (run c more) = attendanceData
  /\ server (run c more)
     = fold_left (serve_index Backend serve_put ids st)
         (servedOrder (run c more)) b.
Proof.
  cbv zeta. intros Hrej. unfold handleBulkUpdate in *.
  change (List.map id ?l) with (id <$> l) in *.
  set (ids := id <$> filteredAttendance matchesFilters attendanceData) in *.
  pose proof (invariant_run ids st b trace) as Hinv.
  split; [unfold attendanceData_at; now rewrite Hrej|].
  split; [apply (requests_kept _ _ _ _ Hinv)|].
  split; [intros k Hk Hnot; now apply (unserved_enabled ids st b)|].
  split.
  - unfold attendanceData_at.
    now rewrite (promise_stays_run _ more _ Hrej).
  - rewrite <- run_more. apply (server_served _ _ _ _ (invariant_run _ _ _ _)).
Qed.

(** Every answer is the backend's answer to the request it answers. *)
Definition answered (c : Call Backend) : Prop :=
  forall k f response,
    flights c !! k = Some f ->
    progress f = Served response \/ progress f = Delivered response ->
    exists b, response
              = (serve_put (put_id (request f)) (put_status (request f)) b).2.

Lemma answered_step c e : answered c -> answered (step c e).
Proof.
  intros Hc. unfold step, InFlight.step.
  destruct (enabled c e) eqn:Hen; [|done].
  destruct e as [k | k]; cbn in Hen |- *.
  - destruct (flights c !! k) as [f|] eqn:Hk; [|done].
    destruct (serve_put _ _ (server c)) as [b' response] eqn:Hput.
    intros j g r. cbn [flights].
    destruct (decide (j = k)) as [-> | Hjk].
    + rewrite list_lookup_insert_eq by now apply lookup_lt_Some with f.
      intros [= <-]. cbn. intros [[= <-] | [=]]. exists (server c).
      now rewrite Hput.
    + rewrite list_lookup_insert_ne by done. apply Hc.
  - destruct (flights c !! k) as [[r [|response|]]|] eqn:Hk; try done.
    intros j g r'. cbn [flights].
    destruct (decide (j = k)) as [-> | Hjk].
    + rewrite list_lookup_insert_eq by now apply lookup_lt_Some in Hk.
      intros [= <-]. cbn. intros [[=] | [= <-]].
      apply (Hc k _ response Hk). now left.
    + rewrite list_lookup_insert_ne by done. apply Hc.
Qed.

Lemma answered_run ids st b trace : answered (run (bulk ids st b) trace).
Proof.
  induction trace as [|e trace IH] using rev_ind.
  - intros k f response Hk. cbn in Hk.
    change (List.map ?g ?l) with (g <$> l) in Hk.
    rewrite list_lookup_fmap in Hk. destruct (ids !! k); [|done].
    injection Hk as <-. now intros [|].
  - rewrite run_last. now apply answered_step.
Qed.

(** X30. In every run of "mark all", at every point of it, the page
    lists the same ids in the same order as before the click. *)
Theorem page_ids_kept_in_every_run
  (matchesFilters : Attendance -> bool) (st : AttendanceStatus)
  (attendanceData : list Attendance) (b : Backend) (trace : list Event) :
  let c := run (handleBulkUpdate Backend matchesFilters st attendanceData b)
             trace in
  id <$> attendanceData_at Backend attendanceData c = id <$> attendanceData.
Proof.
  cbv zeta. unfold attendanceData_at, handleBulkUpdate_resume.
  destruct (promise _) as [[updated | reason]|]; try done.
  change (List.map ?g ?l) with (g <$> l).
  rewrite <- list_fmap_compose. apply list_fmap_ext.
  intros k r _. apply AttendancePageProofs.replaceUpdated_id.
Qed.

(** X31. Against a backend that answers every PUT with a record of the
    id and status asked for, "mark all" succeeds in whatever order the
    requests are served and answered: the promise is never rejected;
    when it is fulfilled, the updated records have the ids of the
    filtered records, in their order, and the status, and on the page
    every record whose id is among them has the status and every other
    record is exactly as it was; until then the page is as it was. *)
Theorem mark_all_in_every_run
  (matchesFilters : Attendance -> bool) (st : AttendanceStatus)
  (attendanceData : list Attendance) (b : Backend) (trace : list Event) :
  AttendancePage.answers_as_asked Backend serve_put ->
  let ids := id <$> filteredAttendance matchesFilters attendanceData in
  let c := run (handleBulkUpdate Backend matchesFilters st attendanceData b)
             trace in
  (forall reason, promise c <> Some (Rejected reason))
  /\ (forall updated,
        promise c = Some (Fulfilled updated) ->
        id <$> updated = ids
        /\ Forall (fun u => status u = st) updated
        /\ exists f,
             attendanceData_at Backend attendanceData c = f <$> attendanceData
             /\ forall r,
                  id (f r) = id r
                  /\ (id r ∈ ids -> status (f r) = st)
                  /\ (id r ∉ ids -> f r = r))
  /\ (promise c = None ->
      attendanceData_at Backend attendanceData c = attendanceData).
Proof.
  cbv zeta. intros Hasked. unfold handleBulkUpdate.
  change (List.map id ?l) with (id <$> l).
  set (ids := id <$> filteredAttendance matchesFilters attendanceData).
  pose proof (invariant_run ids st b trace) as Hinv.
  pose proof (answered_run ids st b trace) as Hans.
  pose proof (promise_settled _ _ _ _ Hinv) as Hp.
  pose proof (arrived_iff _ _ _ _ Hinv) as Harrived.
  pose proof (requests_kept _ _ _ _ Hinv) as Hreq.
  set (c := run (bulk ids st b) trace) in *.
  assert (forall k f response,
            flights c !! k = Some f -> progress f = Delivered response ->
            exists r, response = Fulfilled {| data := r |}
                      /\ ids !! k = Some (id r) /\ status r = st) as Hdelivered.
  { intros k f response Hk Hprog.
    destruct (Hans k f response Hk) as [b' ->]; [now right|].
    destruct (Hasked (put_id (request f)) (put_status (request f)) b')
      as (r & Hr & Hid & Hst).
    exists r. split; [done|].
    assert (request <$> flights c !! k = put st <$> ids !! k) as H
      by now rewrite <- !list_lookup_fmap, Hreq.
    rewrite Hk in H. destruct (ids !! k) as [i|]; [|done].
    injection H as H. rewrite H in Hid, Hst. cbn in Hid, Hst.
    now rewrite Hid. }
  split; [|split].
  - intros reason Hrej. rewrite Hp in Hrej.
    destruct (first_rejection (arrivals c)) as [e|] eqn:Hfirst.
    + apply first_rejection_arrived in Hfirst as [k Hk].
      apply Harrived in Hk as (f & Hf & Hprog).
      now destruct (Hdelivered k f _ Hf Hprog) as (r & Hr & _).
    + now destruct (all_fulfilled (flights c)).
  - intros updated Hful. rewrite Hp in Hful.
    destruct (first_rejection (arrivals c)); [done|].
    destruct (all_fulfilled (flights c)) as [vs|] eqn:Hall; [|done].
    injection Hful as ->. apply all_fulfilled_spec in Hall.
    assert (forall k u, updated !! k = Some u ->
                        ids !! k = Some (id u) /\ status u = st) as Hupdated.
    { intros k u Hu.
      assert (update_promise <$> flights c !! k
              = (fun v => Some (Fulfilled v)) <$> updated !! k) as H
        by now rewrite <- !list_lookup_fmap, Hall.
      rewrite Hu in H. destruct (flights c !! k) as [f|] eqn:Hk; [|done].
      cbn in H. unfold update_promise in H.
      destruct (progress f) as [| |response] eqn:Hprog; try done.
      destruct (Hdelivered k f response Hk Hprog) as (r & -> & Hid & Hst).
      cbn in H. now injection H as ->. }
    assert (id <$> updated = ids) as Hids.
    { apply list_eq. intros k. rewrite list_lookup_fmap.
      destruct (updated !! k) as [u|] eqn:Hu.
      - now destruct (Hupdated k u Hu) as [-> _].
      - cbn. symmetry. apply lookup_ge_None. apply lookup_ge_None in Hu.
        assert (length updated = length ids) as <-; [|done].
        rewrite <- (length_fmap (fun v => Some (Fulfilled v)) updated), <- Hall,
          length_fmap, <- (length_fmap request), Hreq, length_fmap. done. }
    assert (Forall (fun u => status u = st) updated) as Hstatus.
    { apply Forall_lookup. intros k u Hu. now destruct (Hupdated k u Hu). }
    split; [done|]. split; [done|].
    exists (replaceUpdated updated). split.
    + unfold attendanceData_at. now rewrite Hp.
    + intros r. split; [apply AttendancePageProofs.replaceUpdated_id|].
      rewrite <- Hids. split.
      * intros Hin%list_elem_of_In.
        destruct (AttendancePageProofs.replaceUpdated_found updated r Hin)
          as [Hu%list_elem_of_In _].
        rewrite Forall_forall in Hstatus. now apply Hstatus.
      * intros Hnot. apply AttendancePageProofs.replaceUpdated_missing.
        now rewrite <- list_elem_of_In.
  - intros Hnone. unfold attendanceData_at. now rewrite Hnone.
Qed.

End Client.

(** C9, as stated, fails. The updates of ids 1 and 2 both fail; the
    backend happens to serve, and answer, the second request first.
    The call rejects with the second update's reason and the backend
    has served 2 before 1, where the updates made one after the other
    in the order of the ids give the first update's reason and serve 1
    before 2. *)
Lemma bulk_update_is_not_the_sequential_updates :
  let c := run (list nat) logging_put (bulkUpdateAttendance _ [1; 2] Present [])
             [Serve 1; Deliver 1; Serve 0; Deliver 0] in
  let sequential :=
    AdminApi.sequential_updates (list nat) logging_put [1; 2] Present
      {| AdminApi.backend := []; AdminApi.wire := [] |} in
  promise c = Some (Rejected "Request failed with status code 404")
  /\ AdminApi.Promise_all sequential.1
     = Rejected "Request failed with status code 500"
  /\ promise c <> Some (AdminApi.Promise_all sequential.1)
  /\ server c = [2; 1]
  /\ AdminApi.backend sequential.2 = [1; 2]
  /\ server c <> AdminApi.backend sequential.2.
Proof. vm_compute. repeat split; done. Qed.

Lemma handleBulkUpdate_rejection_leaves_page_behind_witness :
  let c := run _ store_put
             (handleBulkUpdate _ (fun _ => true) Present
                AttendancePage.page_records two_records)
             [Serve 1; Deliver 1] in
  promise c = Some (Rejected "Request failed with status code 404")
  /\ servedOrder c = [1]
  /\ attendanceData_at _ AttendancePage.page_records
       (run _ store_put c [Serve 2; Serve 0; Deliver 0])
     = AttendancePage.page_records
  /\ status <$> server (run _ store_put c [Serve 2; Serve 0; Deliver 0]) !! 1
     = Some Present.
Proof.
  cbv zeta.
  assert (promise
            (run _ store_put
               (handleBulkUpdate _ (fun _ => true) Present
                  AttendancePage.page_records two_records)
               [Serve 1; Deliver 1])
          = Some (Rejected "Request failed with status code 404")) as Hrej
    by (vm_compute; reflexivity).
  destruct (handleBulkUpdate_rejection_leaves_page_behind _ store_put
              (fun _ => true) Present AttendancePage.page_records two_records
              [Serve 1; Deliver 1] [Serve 2; Serve 0; Deliver 0] _ Hrej)
    as (_ & _ & _ & Hpage & _).
  split; [exact Hrej|]. split; [vm_compute; reflexivity|].
  split; [exact Hpage|]. vm_compute. reflexivity.
Defined.

Lemma mark_all_in_every_run_witness :
  let c := run unit AttendancePage.echo_put
             (handleBulkUpdate unit (fun _ => true) Late
                AttendancePage.page_records tt)
             [Serve 2; Serve 0; Deliver 0; Serve 1; Deliver 2; Deliver 1] in
  AttendancePage.answers_as_asked unit AttendancePage.echo_put
  /\ (exists updated, promise c = Some (Fulfilled updated))
  /\ Forall (fun r => status r = Late)
       (attendanceData_at unit AttendancePage.page_records c).
Proof.
  cbv zeta.
  destruct (mark_all_in_every_run unit AttendancePage.echo_put
              (fun _ => true) Late AttendancePage.page_records tt
              [Serve 2; Serve 0; Deliver 0; Serve 1; Deliver 2; Deliver 1]
              AttendancePageProofs.echo_answers_as_asked)
    as (_ & Hfulfilled & _).
  split; [exact AttendancePageProofs.echo_answers_as_asked|].
  split; [eexists; vm_compute; reflexivity|].
  edestruct Hfulfilled as (_ & _ & f & -> & Hf); [vm_compute; reflexivity|].
  apply Forall_fmap, Forall_forall. intros r Hr. apply Hf.
  change (filteredAttendance (fun _ => true) AttendancePage.page_records)
    with AttendancePage.page_records.
  now apply list_elem_of_fmap_2.
Defined.

End InFlightProofs.

(** ** ISO dates and the attendance page's date filter *)

Module IsoDateProofs.
Import JSDate JSDateProofs IsoDate AdminApi AttendancePage.
Local Open Scope Z_scope.

#[local] Arguments String.append !s1 s2 : simpl nomatch.

Lemma append_length (s1 s2 : string) :
  String.length (s1 ++ s2)%string
  = (String.length s1 + String.length s2)%nat.
Proof. induction s1 as [|c s1 IH]; cbn; [done|]. now rewrite IH. Qed.

(** Two texts with heads of one length are equal only part by part. *)
Lemma append_inj (s1 s2 a b : string) :
  String.length s1 = String.length s2 ->
  (s1 ++ a)%string = (s2 ++ b)%string -> s1 = s2 /\ a = b.
Proof.
  revert s2. induction s1 as [|c s1 IH]; intros [|c2 s2] Hl Heq;
    cbn in *; try discriminate; [done|].
  injection Heq as -> Heq. injection Hl as Hl.
  now destruct (IH s2 Hl Heq) as [-> ->].
Qed.

Lemma prefix_same_length (s1 s2 rest : string) :
  String.length s1 = String.length s2 ->
  String.prefix s1 (s2 ++ rest)%string = true <-> s1 = s2.
Proof.
  revert s2. induction s1 as [|c s1 IH]; intros [|c2 s2] Hl;
    cbn in *; try discriminate; [now destruct rest|].
  injection Hl as Hl. destruct (ascii_dec c c2) as [-> | Hne].
  - rewrite (IH s2 Hl). split; [now intros -> | now intros [= ->]].
  - split; [discriminate | now intros [= -> _]].
Qed.

Lemma has_char_append c (s1 s2 : string) :
  has_char c (s1 ++ s2)%string = has_char c s1 || has_char c s2.
Proof.
  induction s1 as [|a s1 IH]; cbn; [done|]. now rewrite IH, orb_assoc.
Qed.

Lemma before_char_append c (s rest : string) :
  has_char c s = false -> before_char c (s ++ String c rest)%string = s.
Proof.
  induction s as [|a s IH]; cbn.
  - now rewrite Ascii.eqb_refl.
  - intros [Ha Hs]%orb_false_elim. rewrite Ha. now rewrite IH.
Qed.

Lemma digitChar_code d :
  0 <= d < 10 -> nat_of_ascii (digitChar d) = (48 + Z.to_nat d)%nat.
Proof. intros Hd. unfold digitChar. apply nat_ascii_embedding. lia. Qed.

Lemma digitChar_inj d1 d2 :
  0 <= d1 < 10 -> 0 <= d2 < 10 -> digitChar d1 = digitChar d2 -> d1 = d2.
Proof.
  intros H1 H2 Heq. apply (f_equal nat_of_ascii) in Heq.
  rewrite !digitChar_code in Heq by done. lia.
Qed.

Lemma digitChar_not_T d : 0 <= d < 10 -> Ascii.eqb (digitChar d) "T" = false.
Proof.
  intros Hd. apply Ascii.eqb_neq. intros Heq.
  apply (f_equal nat_of_ascii) in Heq. rewrite digitChar_code in Heq by done.
  assert (nat_of_ascii "T" = 84%nat) as HT by reflexivity.
  rewrite HT in Heq. lia.
Qed.

Lemma padded_length w n : String.length (padded w n) = w.
Proof.
  revert n. induction w as [|w IH]; intros n; cbn [padded]; [done|].
  rewrite append_length, IH. cbn. lia.
Qed.

Lemma padded_no_T w n : has_char "T" (padded w n) = false.
Proof.
  revert n. induction w as [|w IH]; intros n; cbn [padded]; [done|].
  rewrite has_char_append, IH. cbn [has_char orb].
  rewrite digitChar_not_T by (apply Z.mod_pos_bound; lia). done.
Qed.

(** Below [10 ^ width] the padded decimal determines the number. *)
Lemma padded_inj w n m :
  0 <= n < 10 ^ Z.of_nat w -> 0 <= m < 10 ^ Z.of_nat w ->
  padded w n = padded w m -> n = m.
Proof.
  revert n m. induction w as [|w IH]; intros n m Hn Hm Heq.
  - cbn in Hn, Hm. lia.
  - rewrite Nat2Z.inj_succ, Z.pow_succ_r in Hn, Hm by lia.
    cbn [padded] in Heq.
    apply append_inj in Heq as [Hhigh [= Hlow]];
      [|now rewrite !padded_length].
    apply digitChar_inj in Hlow; try (apply Z.mod_pos_bound; lia).
    apply IH in Hhigh;
      try (split; [apply Z.div_pos; lia | apply Z.div_lt_upper_bound; lia]).
    rewrite (Z.div_mod n 10), (Z.div_mod m 10) by lia. lia.
Qed.

Lemma yearString_four_digits y : 0 <= y <= 9999 -> yearString y = padded 4 y.
Proof.
  intros Hy. unfold yearString.
  destruct (Z.leb_spec 0 y), (Z.leb_spec y 9999); cbn [andb]; done || lia.
Qed.

Lemma yearString_no_T y : has_char "T" (yearString y) = false.
Proof.
  unfold yearString. repeat case_match; rewrite ?has_char_append;
    rewrite padded_no_T; done.
Qed.

Lemma isoDate_no_T d : has_char "T" (isoDate d) = false.
Proof.
  unfold isoDate.
  rewrite !has_char_append, yearString_no_T, !padded_no_T. done.
Qed.

Lemma isoDate_length d :
  four_digit_year d -> String.length (isoDate d) = 10%nat.
Proof.
  intros Hy. unfold isoDate. rewrite yearString_four_digits by exact Hy.
  rewrite !append_length, !padded_length. done.
Qed.

(** [split("T")[0]] of the printed time is its date part. *)
Lemma isoDay_isoDate t : isoDay t = isoDate (Day t).
Proof.
  unfold isoDay, toISOString. apply before_char_append, isoDate_no_T.
Qed.

(** Printed with four-digit years, different days read differently. *)
Lemma isoDate_inj d1 d2 :
  four_digit_year d1 -> four_digit_year d2 ->
  isoDate d1 = isoDate d2 -> d1 = d2.
Proof.
  intros H1 H2 Heq. unfold isoDate in Heq.
  rewrite !yearString_four_digits in Heq by done.
  apply append_inj in Heq as [Hy Heq]; [|now rewrite !padded_length].
  apply append_inj in Heq as [_ Heq]; [|done].
  apply append_inj in Heq as [Hm Heq]; [|now rewrite !padded_length].
  apply append_inj in Heq as [_ Hd]; [|done].
  pose proof (MonthFromDay_range d1). pose proof (MonthFromDay_range d2).
  pose proof (DateFromDay_range d1). pose proof (DateFromDay_range d2).
  apply padded_inj in Hy; [|cbn; unfold four_digit_year in *; lia..].
  apply padded_inj in Hm; [|cbn; lia..].
  apply padded_inj in Hd; [|cbn; lia..].
  apply civil_date_injective; [done | lia | done].
Qed.

(** X23. [date.toISOString().split("T")[0]], the text the report
    requests send as [startDate] and [endDate] and the attendance page
    filters by, is the ten-character date of the UTC day of [date]:
    for years 0 to 9999 two dates give the same text exactly when they
    fall on the same UTC day. *)
Theorem isoDay_names_the_utc_day (t1 t2 : Z) :
  four_digit_year (Day t1) -> four_digit_year (Day t2) ->
  isoDay t1 = isoDate (Day t1)
  /\ String.length (isoDay t1) = 10%nat
  /\ (isoDay t1 = isoDay t2 <-> Day t1 = Day t2).
Proof.
  intros H1 H2. rewrite !isoDay_isoDate. split; [done|].
  split; [now apply isoDate_length|].
  split; [now apply isoDate_inj | now intros ->].
Qed.

(** X24. The attendance page's date filter goes by the UTC day of the
    date picked: a record whose [date] begins with the ISO date of a
    day (years 0 to 9999) passes [isDateMatch] exactly when the picked
    date falls on that day in UTC, whatever the local day is. *)
Theorem isDateMatch_selects_the_utc_day
  (selectedDate D : Z) (rest : string) (record : Attendance) :
  four_digit_year (Day selectedDate) -> four_digit_year D ->
  date record = (isoDate D ++ rest)%string ->
  isDateMatch selectedDate record = true <-> Day selectedDate = D.
Proof.
  intros Ht HD Hdate. unfold isDateMatch. rewrite Hdate, isoDay_isoDate.
  rewrite prefix_same_length by now rewrite !isoDate_length.
  split; [now apply isoDate_inj | now intros ->].
Qed.

Lemma isoDay_names_the_utc_day_witness :
  isoDay may_1_0030_local = "2024-04-30"%string
  /\ (isoDay may_1_0030_local = isoDay apr_30_2330_local
      <-> Day may_1_0030_local = Day apr_30_2330_local).
Proof.
  assert (four_digit_year (Day may_1_0030_local)) as H1
    by (vm_compute; split; discriminate).
  assert (four_digit_year (Day apr_30_2330_local)) as H2
    by (vm_compute; split; discriminate).
  destruct (isoDay_names_the_utc_day may_1_0030_local apr_30_2330_local H1 H2)
    as (Hdate & _ & Hiff).
  split; [rewrite Hdate; vm_compute; reflexivity | exact Hiff].
Defined.

(** Half past midnight on 1 May in Kathmandu is still 30 April in UTC:
    picked then, the filter shows the records of 30 April. *)
Lemma isDateMatch_selects_the_utc_day_witness :
  localDay kathmandu may_1_0030_local = 19844
  /\ Day may_1_0030_local = 19843
  /\ isDateMatch may_1_0030_local
       {| id := 7; student := "Asha"; status := Present;
          date := "2024-04-30" |} = true.
Proof.
  split; [vm_compute; reflexivity|]. split; [vm_compute; reflexivity|].
  assert (four_digit_year (Day may_1_0030_local)) as H1
    by (vm_compute; split; discriminate).
  assert (four_digit_year 19843) as H2 by (vm_compute; split; discriminate).
  apply (isDateMatch_selects_the_utc_day may_1_0030_local 19843 ""
           _ H1 H2); vm_compute; reflexivity.
Defined.

End IsoDateProofs.

(** ** The classes page *)

Module ClassesPageProofs.
Import AdminApi ClassesPage.

Lemma filter_keeps_all {A : Type} (f : A -> bool) (l : list A) :
  Forall (fun a => f a = true) l -> List.filter f l = l.
Proof.
  induction 1 as [|a l Ha _ IH]; cbn; [done|]. now rewrite Ha, IH.
Qed.

Lemma fresh_id_survives classId (classes : list Class) :
  ~ In classId (class_ids classes) ->
  Forall (fun c => negb (Nat.eqb (class_id c) classId) = true) classes.
Proof.
  intros Hfresh. apply List.Forall_forall. intros c Hc.
  apply negb_true_iff, Nat.eqb_neq. intros Heq. apply Hfresh.
  apply List.in_map_iff. now exists c.
Qed.

Lemma class_ids_filter classId (classes : list Class) :
  class_ids (List.filter (fun c => negb (Nat.eqb (class_id c) classId)) classes)
  = List.filter (fun i => negb (Nat.eqb i classId)) (class_ids classes).
Proof.
  unfold class_ids. induction classes as [|c rest IH]; cbn; [done|].
  destruct (negb (Nat.eqb (class_id c) classId)); cbn; now rewrite IH.
Qed.

(** X25. A class the server answered an add with, under an id no class
    on the page has, is taken off again by deleting that id, and the
    page is as it was before the add. *)
Theorem add_then_delete_restores_the_page
  (addedClass : Class) (classes : list Class) :
  ~ In (class_id addedClass) (class_ids classes) ->
  handleDeleteClass (Fulfilled tt) (class_id addedClass)
    (handleAddClass (Fulfilled addedClass) classes)
  = classes.
Proof.
  intros Hfresh.
  cbn [handleAddClass handleDeleteClass]. rewrite List.filter_app.
  rewrite filter_keeps_all by now apply fresh_id_survives.
  cbn [List.filter]. rewrite Nat.eqb_refl. cbn [negb]. apply app_nil_r.
Qed.

(** X26. Deleting takes off the page every class with the id, and only
    those: the other ids stay in their order. It goes by the id alone,
    so a class added under an id the page already had is deleted
    together with the older classes of that id. A failed delete and a
    failed add change nothing. *)
Theorem handleDeleteClass_removes_every_class_of_the_id
  (classId : nat) (addedClass : Class) (classes : list Class)
  (reason : string) :
  class_ids (handleDeleteClass (Fulfilled tt) classId classes)
  = List.filter (fun i => negb (Nat.eqb i classId)) (class_ids classes)
  /\ ~ In classId
       (class_ids (handleDeleteClass (Fulfilled tt) classId classes))
  /\ handleDeleteClass (Fulfilled tt) (class_id addedClass)
       (handleAddClass (Fulfilled addedClass) classes)
     = handleDeleteClass (Fulfilled tt) (class_id addedClass) classes
  /\ handleDeleteClass (Rejected reason) classId classes = classes
  /\ handleAddClass (Rejected reason) classes = classes.
Proof.
  cbn [handleDeleteClass handleAddClass]. rewrite class_ids_filter.
  split; [reflexivity|]. split.
  - intros [_ Hne]%List.filter_In. now rewrite Nat.eqb_refl in Hne.
  - split; [|done]. rewrite List.filter_app. cbn [List.filter].
    rewrite Nat.eqb_refl. cbn [negb]. apply app_nil_r.
Qed.

Lemma add_then_delete_restores_the_page_witness :
  let algebra := {| class_id := 3; name := "Algebra"; section := "A";
                    semester := "First"; year := 2024; admin := AdminId 6 |} in
  let logic := {| class_id := 5; name := "Logic"; section := "B";
                  semester := "Second"; year := 2024; admin := AdminId 6 |} in
  ~ In (class_id logic) (class_ids [algebra])
  /\ handleDeleteClass (Fulfilled tt) 5
       (handleAddClass (Fulfilled logic) [algebra])
     = [algebra].
Proof.
  cbv zeta.
  assert (~ In 5 (class_ids
            [{| class_id := 3; name := "Algebra"; section := "A";
                semester := "First"; year := 2024; admin := AdminId 6 |}]))
    as Hfresh by (cbn; intros [[=] | []]).
  split; [exact Hfresh|].
  exact (add_then_delete_restores_the_page
           {| class_id := 5; name := "Logic"; section := "B";
              semester := "Second"; year := 2024; admin := AdminId 6 |}
           _ Hfresh).
Defined.

(** X27. An update never adds, removes or reorders classes, and the
    ids on the page stay the same: every class with the id of the
    record the server returned is replaced by that record, the others
    are kept; handling the same answer again changes nothing more, and
    a failed request changes nothing. *)
Theorem handleUpdateClass_replaces_in_place
  (updated : Class) (classes : list Class) (reason : string) :
  class_ids (handleUpdateClass (Fulfilled updated) classes)
  = class_ids classes
  /\ (forall i c,
        classes !! i = Some c ->
        handleUpdateClass (Fulfilled updated) classes !! i
        = Some (if Nat.eqb (class_id c) (class_id updated) then updated
                else c))
  /\ handleUpdateClass (Fulfilled updated)
       (handleUpdateClass (Fulfilled updated) classes)
     = handleUpdateClass (Fulfilled updated) classes
  /\ handleUpdateClass (Rejected reason) classes = classes.
Proof.
  cbn [handleUpdateClass]. unfold class_ids. repeat split.
  - rewrite List.map_map. apply List.map_ext. intros c.
    destruct (Nat.eqb_spec (class_id c) (class_id updated)); done.
  - intros i c Hi. change (@List.map) with (@fmap list _).
    now rewrite list_lookup_fmap, Hi.
  - rewrite List.map_map. apply List.map_ext. intros c.
    destruct (Nat.eqb_spec (class_id c) (class_id updated)) as [Heq | Hne].
    + now rewrite Nat.eqb_refl.
    + now apply Nat.eqb_neq in Hne as ->.
Qed.

End ClassesPageProofs.
